(** * Notification dispatch engine: notifier actors and backend adapters

    A shallow embedding of [notifier_base.py], [telegram_notifier.py],
    [discord_notifier.py] and [cqhttp_notifier.py].

    The Python coroutines are embedded as computations in a state and
    exception monad.  Everything a coroutine does that is visible from
    outside (a bot API call, an HTTP POST, a sleep, a log record, a write to
    the status registry) is appended to a chronological [trace]; the
    answers of the outside world are read from an environment indexed by
    the number of calls made so far. *)

From Stdlib Require Import ZArith Ascii.
From stdpp Require Import base option list strings gmap.

Local Open Scope Z_scope.

(** ** Python strings

    A [str] is modelled by the [string] of the bytes of its UTF-8
    encoding.  [chars] cuts a text into its characters, one UTF-8 sequence
    for each code point; [isspace], [strip] and [upper] work on these. *)

Module Py.

(** The bytes [0x80] to [0xBF], which continue a UTF-8 sequence. *)
Definition continuation (c : ascii) : bool :=
  let n := Ascii.nat_of_ascii c in (128 <=? n)%nat && (n <=? 191)%nat.

(** The characters of a text, each as the string of its bytes. *)
Fixpoint chars (s : string) : list string :=
  match s with
  | EmptyString => []
  | String c s' =>
      match chars s' with
      | String b h :: t =>
          if continuation b then String c (String b h) :: t
          else String c EmptyString :: String b h :: t
      | t => String c EmptyString :: t
      end
  end.

(** The bytes of a character. *)
Fixpoint codes (ch : string) : list nat :=
  match ch with
  | EmptyString => []
  | String c ch' => Ascii.nat_of_ascii c :: codes ch'
  end.

Definition join_chars (l : list string) : string :=
  foldr String.append EmptyString l.

(** [str.isspace] on one character: U+0009 to U+000D, U+001C to U+0020,
    U+0085, U+00A0, U+1680, U+2000 to U+200A, U+2028, U+2029, U+202F,
    U+205F and U+3000. *)
Definition isspace (ch : string) : bool :=
  match codes ch with
  | [n] => ((9 <=? n)%nat && (n <=? 13)%nat) || ((28 <=? n)%nat && (n <=? 32)%nat)
  | [194%nat; n] => (n =? 133)%nat || (n =? 160)%nat
  | [225%nat; 154%nat; 128%nat] => true
  | [226%nat; 128%nat; n] =>
      ((128 <=? n)%nat && (n <=? 138)%nat)
      || (n =? 168)%nat || (n =? 169)%nat || (n =? 175)%nat
  | [226%nat; 129%nat; 159%nat] => true
  | [227%nat; 128%nat; 128%nat] => true
  | _ => false
  end.

Fixpoint lstrip_chars (l : list string) : list string :=
  match l with
  | [] => []
  | ch :: rest => if isspace ch then lstrip_chars rest else l
  end.

(** [str.strip()] with no argument. *)
Definition strip (s : string) : string :=
  join_chars (reverse (lstrip_chars (reverse (lstrip_chars (chars s))))).

(** The upper case of one character, for the characters whose upper case
    is made of ASCII letters: the letters [a] to [z]; U+0131 and U+017F,
    whose upper case is [I] and [S]; U+00DF and the ligatures U+FB00 to
    U+FB06, which expand to [SS], [FF], [FI], [FL], [FFI], [FFL], [ST] and
    [ST].  The upper case of any other character is not ASCII; such a
    character is kept as it stands. *)
Definition upper_char (ch : string) : string :=
  match codes ch with
  | [n] =>
      if ((97 <=? n)%nat && (n <=? 122)%nat)
      then String (Ascii.ascii_of_nat (n - 32)) EmptyString else ch
  | [195%nat; 159%nat] => "SS"
  | [196%nat; 177%nat] => "I"
  | [197%nat; 191%nat] => "S"
  | [239%nat; 172%nat; 128%nat] => "FF"
  | [239%nat; 172%nat; 129%nat] => "FI"
  | [239%nat; 172%nat; 130%nat] => "FL"
  | [239%nat; 172%nat; 131%nat] => "FFI"
  | [239%nat; 172%nat; 132%nat] => "FFL"
  | [239%nat; 172%nat; 133%nat] => "ST"
  | [239%nat; 172%nat; 134%nat] => "ST"
  | _ => ch
  end.

(** [str.upper()], with the full case mapping of Unicode.  It is exact on
    every text whose upper case is ASCII, and gives a text that is not
    ASCII otherwise; the program compares its result with ASCII literals
    only. *)
Definition upper (s : string) : string := join_chars (upper_char <$> chars s).

(** [str.replace(old, new)] for a non-empty [old]: every occurrence,
    scanning from the left, occurrences do not overlap.  [skip] counts
    the characters of a matched occurrence that are still to be dropped. *)
Fixpoint replace_from (old new : string) (skip : nat) (s : string) : string :=
  match s with
  | EmptyString => EmptyString
  | String c s' =>
      match skip with
      | S k => replace_from old new k s'
      | O =>
          if String.prefix old s
          then new +:+ replace_from old new (Nat.pred (String.length old)) s'
          else String c (replace_from old new O s')
      end
  end.

Definition replace (old new s : string) : string := replace_from old new O s.

(** Truth value of an [Optional[List[...]]]: [None] and [[]] are falsy. *)
Definition truthy {A} (l : option (list A)) : bool :=
  match l with
  | Some (_ :: _) => true
  | _ => false
  end.

(** The list behind an optional list that passed a truth test. *)
Definition items {A} (l : option (list A)) : list A := default [] l.

End Py.

(** ** Exceptions

    The classes that the four modules raise or catch.  [bases] is the
    class statement of each: the built-in ones derive from [Exception];
    [telegram.error] declares [NetworkError], [RetryAfter], [Forbidden] and
    [InvalidToken] as subclasses of [TelegramError], and [BadRequest] and
    [TimedOut] as subclasses of [NetworkError]. *)

Inductive exn_class :=
| Exception
| AssertionError
| RuntimeError
| AttributeError
| TimeoutError
| ClientError
| TelegramError
| NetworkError
| BadRequest
| TimedOut
| RetryAfter
| Forbidden
| InvalidToken
| TypeError.

Global Instance exn_class_eq_dec : EqDecision exn_class.
Proof. solve_decision. Defined.

Definition bases (c : exn_class) : option exn_class :=
  match c with
  | Exception => None
  | AssertionError | RuntimeError | AttributeError | TimeoutError
  | ClientError | TelegramError | TypeError => Some Exception
  | NetworkError | RetryAfter | Forbidden | InvalidToken => Some TelegramError
  | BadRequest | TimedOut => Some NetworkError
  end.

(** Method resolution order: the class, then its ancestors.  The hierarchy
    is four levels deep. *)
Fixpoint mro_upto (depth : nat) (c : exn_class) : list exn_class :=
  match depth with
  | O => [c]
  | S d => c :: match bases c with
                | Some b => mro_upto d b
                | None => []
                end
  end.

Definition mro : exn_class → list exn_class := mro_upto 3.

Definition issubclass (c d : exn_class) : bool := bool_decide (d ∈ mro c).

(** An exception object: its class and the values formatted into its
    message. *)
Record exn := { exn_cls : exn_class; exn_args : list string }.

Global Instance exn_eq_dec : EqDecision exn.
Proof. solve_decision. Defined.

(** [isinstance(e, (c1, ..., cn))], the test of an [except] clause. *)
Definition isinstance (e : exn) (classes : list exn_class) : bool :=
  existsb (issubclass (exn_cls e)) classes.

Inductive result (A : Type) :=
| Return (a : A)
| Raise (e : exn).
Global Arguments Return {A} a.
Global Arguments Raise {A} e.

(** ** Data model *)

Inductive notifier := Telegram | Discord | Cqhttp.

Global Instance notifier_eq_dec : EqDecision notifier.
Proof. solve_decision. Defined.

Definition notifier_name (cls : notifier) : string :=
  match cls with
  | Telegram => "Telegram"
  | Discord => "Discord"
  | Cqhttp => "Cqhttp"
  end.

(** [class Message]. *)
Record Message := {
  text : string;
  photo_url_list : option (list string);
  video_url_list : option (list string);
}.

(** The three subclasses of [Message], each with its list of targets. *)
Inductive envelope :=
| TelegramMessage (chat_id_list : list Z) (m : Message)
| DiscordMessage (webhook_url_list : list string) (m : Message)
| CqhttpMessage (url_list : list string) (m : Message).

(** [telegram.InputMediaPhoto(media=..., caption=...)]. *)
Record InputMediaPhoto := { media : string; caption : option string }.

(** An inbound [telegram.Message]: [date], [chat.id] and [text]. *)
Record inbound := { date : Z; chat_id : Z; inbound_text : option string }.

(** [telegram.Update]. *)
Record Update := { update_id : Z; message : option inbound }.

(** The calls made on [cls.bot], with their arguments.  The constant
    keyword [disable_web_page_preview=True] of [send_message] is left out;
    the keyword [timeout=60] that the notifier adds to its media sends is
    passed by [call_bot_timeout] below. *)
Module Bot.
Inductive call :=
| send_video (chat_id : Z) (video caption : string)
| send_photo (chat_id : Z) (photo caption : string)
| send_media_group (chat_id : Z) (media : list InputMediaPhoto)
| send_message (chat_id : Z) (text : string)
| get_updates (offset : option Z).

(** What a call gives back: a list of updates (empty for the send
    calls, whose value the notifier never reads) or an exception. *)
Definition answer := result (list Update).
End Bot.

(** [session.post]: Discord posts [json={"content": ...}], Cqhttp posts
    [data={'message': ...}] with [cls.headers]. *)
Inductive http_body :=
| JsonContent (content : string)
| FormMessage (message : string).

Record http_request := {
  url : string;
  headers : option string;
  body : http_body;
}.

(** A response: [resp.status], [await resp.text()] and [await resp.json()],
    of which only [result.get("status")] is read. *)
Record http_response := {
  status : Z;
  resp_text : string;
  resp_json : result (option string);
}.

Inductive level := INFO | WARNING | ERROR.

Inductive log_msg :=
| MsgText (s : string)
| MsgRetrying (e : exn) (attempt tries : Z)
| MsgWithoutMedia (e : exn)
| MsgFailedToSend (url : string) (e : exn)
| MsgExn (e : exn).

(** What a run leaves behind, in chronological order.  [EvDeliver] is a
    ghost event: it marks the point where a worker calls
    [cls.send_message(message)]. *)
Inductive event :=
| EvBot (c : Bot.call)
| EvPost (r : http_request)
| EvSleep (seconds : Z)
| EvLog (logger_name : string) (lvl : level) (msg : log_msg)
| EvPrint (e : exn)
| EvStatus (name : string) (healthy : bool)
| EvDeliver (cls : notifier) (message : envelope).

(** ** The world and the monad of coroutines *)

(** The outside: what the Telegram servers answer to the [n]-th bot call,
    what the HTTP endpoints answer to the [n]-th POST, and what
    [datetime.now(timezone.utc)] reads after [n] events. *)
Record outside := {
  bot_env : nat → Bot.call → Bot.answer;
  http_env : nat → http_request → result http_response;
  clock : nat → Z;
}.

(** The class attributes of the notifiers.  [initialized] and [logger]
    are set on each subclass by its [init]; [bot] and [update_offset] belong
    to [TelegramNotifier], [cq_headers] is [CqhttpNotifier.headers] (the
    bearer token, when one is configured). *)
Record attrs := {
  initialized : notifier → bool;
  logger : notifier → option string;
  bot : option string;
  cq_headers : option string;
  update_offset : option Z;
}.

Record world := {
  out : outside;
  attr : attrs;
  trace : list event;
  n_bot : nat;
  n_http : nat;
}.

Definition St (Σ A : Type) : Type := Σ → result A * Σ.

Global Instance St_ret {Σ} : MRet (St Σ) := λ A a σ, (Return a, σ).

Global Instance St_bind {Σ} : MBind (St Σ) := λ A B f m σ,
  match m σ with
  | (Return a, σ') => f a σ'
  | (Raise e, σ') => (Raise e, σ')
  end.

Global Instance St_throw {Σ} : MThrow exn (St Σ) := λ A e σ, (Raise e, σ).

Abbreviation M := (St world).

(** [try: body except classes as e: handler e]. *)
Definition try_except {Σ A} (body : St Σ A) (classes : list exn_class)
    (handler : exn → St Σ A) : St Σ A := λ σ,
  match body σ with
  | (Raise e, σ') =>
      if isinstance e classes then handler e σ' else (Raise e, σ')
  | r => r
  end.

(** [for x in l: f x]. *)
Fixpoint for_ {Σ A} (l : list A) (f : A → St Σ ()) : St Σ () :=
  match l with
  | [] => mret ()
  | x :: l' => f x ;; for_ l' f
  end.

Definition mk_exn (c : exn_class) (args : list string) : exn :=
  {| exn_cls := c; exn_args := args |}.

Definition assert_ {Σ} (b : bool) : St Σ () :=
  if b then mret () else mthrow (mk_exn AssertionError []).

Definition emit (ev : event) : M () := λ w,
  (Return (),
   {| out := out w; attr := attr w; trace := trace w ++ [ev];
      n_bot := n_bot w; n_http := n_http w |}).

Definition get_attr {A} (f : attrs → A) : M A := λ w, (Return (f (attr w)), w).

Definition set_attrs (a : attrs) : M () := λ w,
  (Return (),
   {| out := out w; attr := a; trace := trace w;
      n_bot := n_bot w; n_http := n_http w |}).

(** [await cls.bot.<call>]: the call is recorded and the outside answers. *)
Definition call_bot (c : Bot.call) : M (list Update) := λ w,
  (bot_env (out w) (n_bot w) c,
   {| out := out w; attr := attr w; trace := trace w ++ [EvBot c];
      n_bot := S (n_bot w); n_http := n_http w |}).

(** What the library raises for a keyword that a method does not have. *)
Definition unexpected_keyword (name : string) : exn :=
  mk_exn TypeError ["got an unexpected keyword argument"; name].

(** [await cls.bot.<call>(..., timeout=seconds)].  Modelled from the
    library: the module imports [telegram.request.HTTPXRequest], which
    python-telegram-bot has from version 20 on.  There the keywords of a
    call are bound to the parameters of the method before any request is
    made, and of the methods called here only [get_updates] has a
    parameter [timeout]: on the send methods the keyword raises a
    [TypeError], and nothing is sent. *)
Definition call_bot_timeout (c : Bot.call) (seconds : Z) : M (list Update) :=
  match c with
  | Bot.get_updates _ => call_bot c
  | _ => mthrow (unexpected_keyword "timeout")
  end.

(** [session.post(...)]. *)
Definition session_post (r : http_request) : M http_response := λ w,
  (http_env (out w) (n_http w) r,
   {| out := out w; attr := attr w; trace := trace w ++ [EvPost r];
      n_bot := n_bot w; n_http := S (n_http w) |}).

(** A value or an exception computed without touching the world. *)
Definition lift_result {A} (r : result A) : M A := λ w, (r, w).

(** [await asyncio.sleep(seconds)]. *)
Definition sleep (seconds : Z) : M () := emit (EvSleep seconds).

(** [datetime.now(timezone.utc)]. *)
Definition now : M Z := λ w, (Return (clock (out w) (length (trace w))), w).

(** [cls.logger.<lvl>(msg)]; on a class whose [logger] is still [None] the
    attribute access fails. *)
Definition log (cls : notifier) (lvl : level) (msg : log_msg) : M () :=
  l ← get_attr (λ a, logger a cls);
  match l with
  | Some name => emit (EvLog name lvl msg)
  | None => mthrow (mk_exn AttributeError ["NoneType"])
  end.

(** ** telegram_notifier.py *)

Module TelegramNotifier.

Definition transient : list exn_class := [RetryAfter; TimedOut; NetworkError].

(** The loop of [_retry] from iteration [i] on, [remaining] iterations
    of [range(tries)] being left. *)
Fixpoint _retry_from {A} (func : M A) (tries delay : Z) (i : Z)
    (remaining : nat) : M A :=
  match remaining with
  | O => mthrow (mk_exn RuntimeError ["Max retries exceeded."])
  | S k =>
      try_except func transient (λ e,
        log Telegram WARNING (MsgRetrying e (i + 1) tries) ;;
        sleep delay ;;
        _retry_from func tries delay (i + 1) k)
  end.

Definition _retry {A} (func : M A) (tries delay : Z) : M A :=
  _retry_from func tries delay 0 (Z.to_nat tries).

(** A call through [_retry] with the defaults [tries=5, delay=5]. *)
Definition _retry_call (c : Bot.call) : M (list Update) :=
  _retry (call_bot c) 5 5.

(** The same with the keyword [timeout=60], which [_retry] hands on to the
    call with its other keywords. *)
Definition _retry_call_timeout (c : Bot.call) : M (list Update) :=
  _retry (call_bot_timeout c 60) 5 5.

(** [InputMediaPhoto(media=photo_url_list[0], caption=text)] followed by
    the captionless [photo_url_list[1:10]]. *)
Definition media_group (text : string) (first : string)
    (others : list string) : list InputMediaPhoto :=
  {| media := first; caption := Some text |}
    :: ((λ photo_url, {| media := photo_url; caption := None |})
          <$> take 9 others).

(** The [if video_url_list: ... elif photo_url_list: ... else: ...]
    chain; a truthy list is a [Some] of a non-empty list, whose element
    [0] is its head. *)
Definition _send_message_to_single_chat (chat_id : Z) (text : string)
    (photo_url_list video_url_list : option (list string)) : M () :=
  b ← get_attr bot;
  assert_ (bool_decide (is_Some b)) ;;
  match video_url_list with
  | Some (video :: _) =>
      _retry_call_timeout (Bot.send_video chat_id video text) ;; mret ()
  | _ =>
      match photo_url_list with
      | Some [photo] =>
          _retry_call_timeout (Bot.send_photo chat_id photo text) ;; mret ()
      | Some (photo :: others) =>
          _retry_call_timeout
            (Bot.send_media_group chat_id (media_group text photo others)) ;;
          mret ()
      | _ =>
          _retry_call (Bot.send_message chat_id text) ;; mret ()
      end
  end.

Definition send_message (message : envelope) : M () :=
  i ← get_attr (λ a, initialized a Telegram);
  assert_ i ;;
  match message with
  | TelegramMessage chat_id_list m =>
      for_ chat_id_list (λ chat_id,
        try_except
          (_send_message_to_single_chat chat_id (text m)
             (photo_url_list m) (video_url_list m))
          [BadRequest]
          (λ e,
             log Telegram ERROR (MsgWithoutMedia e) ;;
             _send_message_to_single_chat chat_id (text m) None None))
  | _ => mthrow (mk_exn AssertionError [])
  end.

Definition _get_updates (offset : option Z) : M (list Update) :=
  b ← get_attr bot;
  assert_ (bool_decide (is_Some b)) ;;
  _retry_call (Bot.get_updates offset).

Definition set_update_offset (o : option Z) : M () :=
  a ← get_attr id;
  set_attrs {| initialized := initialized a; logger := logger a;
               bot := bot a; cq_headers := cq_headers a;
               update_offset := o |}.

(** [updates[-1].update_id + 1 if updates else None], and the same test
    in [_get_new_updates], where a falsy list leaves the offset alone. *)
Definition _get_new_updates : M (list Update) :=
  o ← get_attr update_offset;
  updates ← _get_updates o;
  match last updates with
  | Some u => set_update_offset (Some (update_id u + 1))
  | None => mret ()
  end ;;
  mret updates.

(** The [for update in updates] loop of [confirm]: [Return (Some b)] when
    the loop executes [return b], [Return None] when it runs to its end.
    [update.message.text.strip()] fails on a message without text. *)
Fixpoint scan_replies (sending_time : Z) (chat_id_list : list Z)
    (updates : list Update) : result (option bool) :=
  match updates with
  | [] => Return None
  | update :: rest =>
      match message update with
      | None => scan_replies sending_time chat_id_list rest
      | Some msg =>
          if date msg <? sending_time
          then scan_replies sending_time chat_id_list rest
          else if negb (bool_decide (chat_id msg ∈ chat_id_list))
          then scan_replies sending_time chat_id_list rest
          else
            match inbound_text msg with
            | None => Raise (mk_exn AttributeError ["NoneType"; "strip"])
            | Some t =>
                let text := Py.upper (Py.strip t) in
                if String.eqb text "Y" then Return (Some true)
                else if String.eqb text "N" then Return (Some false)
                else scan_replies sending_time chat_id_list rest
            end
      end
  end.

(** The [while True] loop of [confirm], cut after [rounds] polls:
    [Return None] means that the loop is still polling. *)
Fixpoint _confirm_loop (rounds : nat) (sending_time : Z)
    (chat_id_list : list Z) : M (option bool) :=
  match rounds with
  | O => mret None
  | S k =>
      updates ← _get_new_updates;
      r ← lift_result (scan_replies sending_time chat_id_list updates);
      match r with
      | Some b => mret (Some b)
      | None => sleep 10 ;; _confirm_loop k sending_time chat_id_list
      end
  end.

Definition newline : string := String (Ascii.ascii_of_nat 10) EmptyString.

Definition confirm (rounds : nat) (message : envelope) : M (option bool) :=
  i ← get_attr (λ a, initialized a Telegram);
  assert_ i ;;
  match message with
  | TelegramMessage chat_id_list m =>
      let m' := {| text := text m +:+ newline +:+ "Please reply Y/N";
                   photo_url_list := photo_url_list m;
                   video_url_list := video_url_list m |} in
      send_message (TelegramMessage chat_id_list m') ;;
      sending_time ← now;
      _confirm_loop rounds sending_time chat_id_list
  | _ => mthrow (mk_exn AssertionError [])
  end.

End TelegramNotifier.

(** ** discord_notifier.py *)

Module DiscordNotifier.

Definition _post (url content : string) : M () :=
  resp ← session_post {| url := url; headers := None;
                         body := JsonContent content |};
  if negb (status resp =? 204)
  then mthrow (mk_exn RuntimeError
                 ["Discord webhook failed"; resp_text resp; url; content])
  else mret ().

Definition send_message (message : envelope) : M () :=
  i ← get_attr (λ a, initialized a Discord);
  assert_ i ;;
  match message with
  | DiscordMessage webhook_url_list m =>
      for_ webhook_url_list (λ url,
        try_except
          (_post url (text m) ;;
           (if Py.truthy (photo_url_list m)
            then for_ (Py.items (photo_url_list m)) (_post url)
            else mret ()) ;;
           (if Py.truthy (video_url_list m)
            then for_ (Py.items (video_url_list m)) (_post url)
            else mret ()))
          [Exception]
          (λ e, log Discord ERROR (MsgFailedToSend url e)))
  | _ => mthrow (mk_exn AssertionError [])
  end.

End DiscordNotifier.

(** ** cqhttp_notifier.py *)

Definition _remove_http (text : string) : string :=
  let text := Py.replace "https://" EmptyString text in
  let text := Py.replace "http://" EmptyString text in
  text.

Module CqhttpNotifier.

Definition _post (url : string) (data : string) : M () :=
  h ← get_attr cq_headers;
  resp ← session_post {| url := url; headers := h;
                         body := FormMessage data |};
  if negb (status resp =? 200)
  then mthrow (mk_exn RuntimeError ["Post failed"; resp_text resp])
  else
    result ← lift_result (resp_json resp);
    if negb (bool_decide (result = Some "ok"))
    then mthrow (mk_exn RuntimeError ["Response error"])
    else mret ().

Definition _send_text (url text : string) : M () :=
  _post url (_remove_http text).

Definition _send_photo (url photo_url : string) : M () :=
  _post url ("[CQ:image,file=" +:+ photo_url +:+ "]").

Definition _send_video (url video_url : string) : M () :=
  _post url ("[CQ:video,file=" +:+ video_url +:+ "]").

Definition send_message (message : envelope) : M () :=
  i ← get_attr (λ a, initialized a Cqhttp);
  assert_ i ;;
  match message with
  | CqhttpMessage url_list m =>
      for_ url_list (λ url,
        try_except
          (_send_text url (text m) ;;
           (if Py.truthy (photo_url_list m)
            then for_ (Py.items (photo_url_list m)) (_send_photo url)
            else mret ()) ;;
           (if Py.truthy (video_url_list m)
            then for_ (Py.items (video_url_list m)) (_send_video url)
            else mret ()))
          [Exception]
          (λ e, log Cqhttp ERROR (MsgFailedToSend url e)))
  | _ => mthrow (mk_exn AssertionError [])
  end.

End CqhttpNotifier.

(** ** notifier_base.py *)

(** The process: the world, the queue, the worker tasks and the status
    registry.  [message_queue] is the class attribute
    [NotifierBase.message_queue]; no subclass and no [init] rebinds it, so
    the three notifiers read and write this one queue.  [waiters] are the
    worker tasks suspended in [message_queue.get()], oldest first, which is
    the order in which [asyncio.Queue] hands out items. *)
Record system := {
  the_world : world;
  message_queue : list envelope;
  waiters : list notifier;
  notifier_status : gmap string bool;
}.

Abbreviation Sys := (St system).

Definition lift {A} (m : M A) : Sys A := λ s,
  let r := m (the_world s) in
  (r.1, {| the_world := r.2; message_queue := message_queue s;
           waiters := waiters s; notifier_status := notifier_status s |}).

Module StatusTracker.

(** Modelled from the spec: [status_tracker.py] is missing.  The Status
    Registry is a key to boolean mapping keyed by backend identity, and
    [set(backend, healthy)] is its only mutator.  The write is also
    recorded in the trace. *)
Definition set_notifier_status (name : string) (healthy : bool) : Sys () :=
  λ s,
  lift (emit (EvStatus name healthy))
    {| the_world := the_world s; message_queue := message_queue s;
       waiters := waiters s;
       notifier_status := <[name := healthy]> (notifier_status s) |}.

End StatusTracker.

(** Modelled from the spec: [utils.check_initialized] is missing.  An
    operation guarded by it is rejected with an initialization-order fault
    unless the class is initialized. *)
Definition check_initialized {A} (cls : notifier) (method : Sys A) : Sys A :=
  i ← lift (get_attr (λ a, initialized a cls));
  if (i : bool) then method else mthrow (mk_exn RuntimeError ["NotReadyFault"]).

Module NotifierBase.

Definition set_initialized (cls : notifier) : M () :=
  a ← get_attr id;
  set_attrs {| initialized := λ c, if decide (c = cls) then true
                                    else initialized a c;
               logger := logger a; bot := bot a;
               cq_headers := cq_headers a;
               update_offset := update_offset a |}.

(** [asyncio.create_task(cls._work())]: the new task passes the
    [check_initialized] guard and suspends in [message_queue.get()]. *)
Definition create_worker (cls : notifier) : Sys () :=
  check_initialized cls (λ s,
    (Return (),
     {| the_world := the_world s; message_queue := message_queue s;
        waiters := waiters s ++ [cls];
        notifier_status := notifier_status s |})).

Definition init (cls : notifier) : Sys () :=
  StatusTracker.set_notifier_status (notifier_name cls) true ;;
  lift (set_initialized cls) ;;
  create_worker cls.

(** The abstract [send_message], resolved on the class. *)
Definition send_message (cls : notifier) (message : envelope) : M () :=
  match cls with
  | Telegram => TelegramNotifier.send_message message
  | Discord => DiscordNotifier.send_message message
  | Cqhttp => CqhttpNotifier.send_message message
  end.

(** One turn of the [while True] loop of [_work], from the point where
    [message_queue.get()] has returned [message]. *)
Definition _work_iteration (cls : notifier) (message : envelope) : Sys () :=
  try_except
    (StatusTracker.set_notifier_status (notifier_name cls) false ;;
     lift (emit (EvDeliver cls message)) ;;
     lift (send_message cls message) ;;
     StatusTracker.set_notifier_status (notifier_name cls) true)
    [Exception]
    (λ e,
       lift (emit (EvPrint e)) ;;
       l ← lift (get_attr (λ a, logger a cls));
       if bool_decide (is_Some (l : option string))
       then lift (log cls ERROR (MsgExn e))
       else mret ()).

Definition put_message_into_queue (cls : notifier) (message : envelope)
    : Sys () :=
  check_initialized cls (λ s,
    (Return (),
     {| the_world := the_world s;
        message_queue := message_queue s ++ [message];
        waiters := waiters s; notifier_status := notifier_status s |})).

(** One step of the event loop: the oldest waiting worker receives the
    oldest queued envelope and runs one turn of its loop, to completion.
    A worker whose turn returns is back in [message_queue.get()]; a worker
    whose turn raises is a finished task.  [None]: no worker can run. *)
Definition dispatch (s : system) : option system :=
  match waiters s, message_queue s with
  | cls :: ws, message :: q =>
      let r := _work_iteration cls message
                 {| the_world := the_world s; message_queue := q;
                    waiters := ws; notifier_status := notifier_status s |} in
      match r.1 with
      | Return _ =>
          Some {| the_world := the_world r.2;
                  message_queue := message_queue r.2;
                  waiters := waiters r.2 ++ [cls];
                  notifier_status := notifier_status r.2 |}
      | Raise _ => Some r.2
      end
  | _, _ => None
  end.

Fixpoint run_workers (steps : nat) (s : system) : system :=
  match steps with
  | O => s
  | S k =>
      match dispatch s with
      | Some s' => run_workers k s'
      | None => s
      end
  end.

End NotifierBase.

(** ** The [init] of the three notifiers *)

Definition set_logger (cls : notifier) (logger_name : string) : M () :=
  a ← get_attr id;
  set_attrs {| initialized := initialized a;
               logger := λ c, if decide (c = cls) then Some logger_name
                              else logger a c;
               bot := bot a; cq_headers := cq_headers a;
               update_offset := update_offset a |}.

Definition TelegramNotifier_init (token logger_name : string) : Sys () :=
  assert_ (negb (String.eqb token EmptyString)) ;;
  lift (a ← get_attr id;
        set_attrs {| initialized := initialized a; logger := logger a;
                     bot := Some token; cq_headers := cq_headers a;
                     update_offset := update_offset a |}) ;;
  lift (set_logger Telegram logger_name) ;;
  updates ← lift (TelegramNotifier._get_updates None);
  lift (TelegramNotifier.set_update_offset
          ((λ u, update_id u + 1) <$> last updates)) ;;
  lift (log Telegram INFO (MsgText "Init telegram notifier succeed.")) ;;
  lift (NotifierBase.set_initialized Telegram) ;;
  NotifierBase.init Telegram.

Definition DiscordNotifier_init (logger_name : string) : Sys () :=
  lift (set_logger Discord logger_name) ;;
  lift (log Discord INFO (MsgText "Init discord notifier succeed.")) ;;
  NotifierBase.init Discord.

Definition CqhttpNotifier_init (token logger_name : string) : Sys () :=
  lift (a ← get_attr id;
        set_attrs {| initialized := initialized a; logger := logger a;
                     bot := bot a;
                     cq_headers := if String.eqb token EmptyString then None
                                   else Some token;
                     update_offset := update_offset a |}) ;;
  lift (set_logger Cqhttp logger_name) ;;
  lift (log Cqhttp INFO (MsgText "Init cqhttp notifier succeed.")) ;;
  NotifierBase.init Cqhttp.

(** The process before any [init]: nothing initialized, no logger, an empty
    queue, no worker, an empty registry. *)
Definition boot (o : outside) : system :=
  {| the_world :=
       {| out := o;
          attr := {| initialized := λ _, false; logger := λ _, None;
                     bot := None; cq_headers := None;
                     update_offset := None |};
          trace := []; n_bot := 0; n_http := 0 |};
     message_queue := []; waiters := []; notifier_status := ∅ |}.

(** ** Reading a trace *)

Definition bot_calls (evs : list event) : list Bot.call :=
  omap (λ ev, match ev with EvBot c => Some c | _ => None end) evs.

Definition posts (evs : list event) : list http_request :=
  omap (λ ev, match ev with EvPost r => Some r | _ => None end) evs.

Definition sleeps (evs : list event) : list Z :=
  omap (λ ev, match ev with EvSleep d => Some d | _ => None end) evs.

Definition deliveries (evs : list event) : list (notifier * envelope) :=
  omap (λ ev, match ev with EvDeliver c m => Some (c, m) | _ => None end) evs.

(** The events that an adapter can produce: network calls, sleeps and log
    records, but no write to the status registry and no delivery mark. *)
Definition adapter_event (ev : event) : bool :=
  match ev with
  | EvBot _ | EvPost _ | EvSleep _ | EvLog _ _ _ => true
  | EvPrint _ | EvStatus _ _ | EvDeliver _ _ => false
  end.

(** The events appended between two worlds. *)
Definition since (w w' : world) : list event := drop (length (trace w)) (trace w').

(** ** Notions used in the statements *)

(** An adapter computation: it only appends adapter events to the trace
    and leaves the class attributes and the outside alone. *)
Definition quiet {A} (m : M A) : Prop :=
  ∀ w, ∃ evs,
    trace (m w).2 = trace w ++ evs
    ∧ Forall (λ ev, adapter_event ev = true) evs
    ∧ attr (m w).2 = attr w
    ∧ out (m w).2 = out w.

(** The world after [call_bot c], the warning and the sleep of one failed
    turn of [_retry]. *)
Definition after_failed_attempt (w : world) (c : Bot.call) (name : string)
    (e : exn) (attempt tries delay : Z) : world :=
  {| out := out w; attr := attr w;
     trace := trace w ++ [EvBot c;
                          EvLog name WARNING (MsgRetrying e attempt tries);
                          EvSleep delay];
     n_bot := S (n_bot w); n_http := n_http w |}.

(** A per-target send [r] started in [w] goes out as the bot call [c]: the
    calls made are attempts of [c], at least one and at most five, and just
    one, followed by a normal return, when the first attempt is answered. *)
Definition sent_as (w : world) (r : result () * world) (c : Bot.call) : Prop :=
  ∃ k : nat,
    (1 ≤ k ≤ 5)%nat
    ∧ bot_calls (since w r.2) = replicate k c
    ∧ (∀ x, bot_env (out w) (n_bot w) c = Return x →
            r.1 = Return () ∧ since w r.2 = [EvBot c]).

(** ** Scenarios *)

Definition ok_response : http_response :=
  {| status := 200; resp_text := "{}"; resp_json := Return (Some "ok") |}.

Definition no_content : http_response :=
  {| status := 204; resp_text := EmptyString; resp_json := Return None |}.

(** An outside that answers the [n]-th bot call with the [n]-th entry of
    [script] (and normally once the script is over), and every POST with
    [response]. *)
Definition scripted (script : list Bot.answer) (response : http_response)
    : outside :=
  {| bot_env := λ n _, default (Return []) (script !! n);
     http_env := λ _ _, Return response;
     clock := λ n, Z.of_nat n |}.

(** The class attributes once the three notifiers are initialized. *)
Definition ready : attrs :=
  {| initialized := λ _, true;
     logger := λ cls, Some (notifier_name cls);
     bot := Some "token";
     cq_headers := None;
     update_offset := None |}.

Definition ready_world (o : outside) : world :=
  {| out := o; attr := ready; trace := []; n_bot := 0; n_http := 0 |}.

Definition timed_out : Bot.answer := Raise (mk_exn TimedOut ["Timed out"]).

Definition bad_request : Bot.answer :=
  Raise (mk_exn BadRequest ["Wrong file identifier/HTTP URL specified"]).

(** An inbound update that [confirm] passes over: no message, a message
    dated before the sending time, or a message from a chat that is not in
    the target list. *)
Definition passed_over (sending_time : Z) (chat_id_list : list Z)
    (u : Update) : Prop :=
  match message u with
  | None => True
  | Some m => date m < sending_time ∨ chat_id m ∉ chat_id_list
  end.

(** The request that [CqhttpNotifier._post url data] sends in world [w]. *)
Definition cq_request (w : world) (url data : string) : http_request :=
  {| url := url; headers := cq_headers (attr w); body := FormMessage data |}.

(** The world after the POSTs [reqs] have been sent, one after the other. *)
Definition posted (w : world) (reqs : list http_request) : world :=
  {| out := out w; attr := attr w;
     trace := trace w ++ (EvPost <$> reqs);
     n_bot := n_bot w; n_http := (n_http w + length reqs)%nat |}.

(** Every POST is answered with HTTP 200 and a JSON body whose status
    field is ["ok"]. *)
Definition gateway_accepts (o : outside) : Prop :=
  ∀ n r, ∃ resp, http_env o n r = Return resp
                 ∧ status resp = 200
                 ∧ resp_json resp = Return (Some "ok").

(** The envelope [{text: "hello", photos: ["http://x/1.jpg",
    "http://x/2.jpg"]}] of the end-to-end scenario, for one Cqhttp target. *)
Definition hello_envelope (target : string) : envelope :=
  CqhttpMessage [target]
    {| text := "hello";
       photo_url_list := Some ["http://x/1.jpg"; "http://x/2.jpg"];
       video_url_list := None |}.

(** The world [w] with the events [evs] appended to its trace. *)
Definition appended (w : world) (evs : list event) : world :=
  {| out := out w; attr := attr w; trace := trace w ++ evs;
     n_bot := n_bot w; n_http := n_http w |}.

(** The world in which a worker of [cls] that has dequeued [message] in
    [s] calls [cls.send_message(message)]: the registry entry has just been
    set to [False]. *)
Definition at_delivery (s : system) (cls : notifier) (message : envelope)
    : world :=
  appended (the_world s)
    [EvStatus (notifier_name cls) false; EvDeliver cls message].

(** What the [except Exception] handler of [_work] leaves in the trace. *)
Definition fault_report (w : world) (cls : notifier) (e : exn) : list event :=
  EvPrint e :: match logger (attr w) cls with
               | Some name => [EvLog name ERROR (MsgExn e)]
               | None => []
               end.

(** The process once [TelegramNotifier.init] has run on a fresh process. *)
Definition telegram_started (o : outside) : system :=
  (TelegramNotifier_init "token" "Telegram" (boot o)).2.

(** The process once [TelegramNotifier.init] and then
    [DiscordNotifier.init] have run. *)
Definition two_notifiers (o : outside) : system :=
  (DiscordNotifier_init "Discord" (telegram_started o)).2.

Definition plain (text : string) : Message :=
  {| text := text; photo_url_list := None; video_url_list := None |}.

(** The [init] of each notifier ([DiscordNotifier.init] takes no token). *)
Definition init_of (cls : notifier) (token logger_name : string) : Sys () :=
  match cls with
  | Telegram => TelegramNotifier_init token logger_name
  | Discord => DiscordNotifier_init logger_name
  | Cqhttp => CqhttpNotifier_init token logger_name
  end.

(** A computation that, when it returns, leaves the registry entry [name]
    at [True]. *)
Definition ends_healthy (name : string) (m : Sys ()) : Prop :=
  ∀ s, (m s).1 = Return () → notifier_status (m s).2 !! name = Some true.

(** An outside where every bot call addressed to [chat] is answered with
    [fault] and every other call is answered normally. *)
Definition chat_faults (chat : Z) (fault : exn) : outside :=
  {| bot_env := λ _ c,
       match c with
       | Bot.send_video c' _ _ | Bot.send_photo c' _ _
       | Bot.send_media_group c' _ | Bot.send_message c' _ =>
           if bool_decide (c' = chat) then Raise fault else Return []
       | Bot.get_updates _ => Return []
       end;
     http_env := λ _ _, Return ok_response;
     clock := λ n, Z.of_nat n |}.


(** ** Further notions used in the statements *)

(** An answer that ends the loop of [_retry]: a value, or an exception
    that its [except] clause does not catch. *)
Definition settled (a : Bot.answer) : Prop :=
  match a with
  | Return _ => True
  | Raise e => isinstance e TelegramNotifier.transient = false
  end.

(** Every bot call is answered with a value. *)
Definition bot_answers (o : outside) : Prop :=
  ∀ n c, ∃ x, bot_env o n c = Return x.

(** The request that [DiscordNotifier._post url content] sends. *)
Definition discord_request (url content : string) : http_request :=
  {| url := url; headers := None; body := JsonContent content |}.

(** Every POST is answered with HTTP 204. *)
Definition webhook_accepts (o : outside) : Prop :=
  ∀ n r, ∃ resp, http_env o n r = Return resp ∧ status resp = 204.

(** No POST is answered with HTTP 204: the request fails, or the status is
    another one (a plain 200 included). *)
Definition webhook_rejects (o : outside) : Prop :=
  ∀ n r, match http_env o n r with
         | Return resp => status resp ≠ 204
         | Raise _ => True
         end.

(** No POST is answered with HTTP 200 and a JSON status ["ok"]. *)
Definition gateway_rejects (o : outside) : Prop :=
  ∀ n r, match http_env o n r with
         | Return resp =>
             status resp ≠ 200 ∨ resp_json resp ≠ Return (Some "ok")
         | Raise _ => True
         end.

(** The trace of a target whose first POST [req] fails with [e]: the POST,
    then the error record of the [except] clause. *)
Definition failed_target (name url : string) (req : http_request) (e : exn)
    : list event :=
  [EvPost req; EvLog name ERROR (MsgFailedToSend url e)].

(** [sub in s], for Python strings. *)
Definition occurs_in (sub s : string) : Prop :=
  ∃ pre post, s = pre +:+ sub +:+ post.

(** An inbound update that [confirm] does not act upon: one that is passed
    over, or a reply of a target whose text, stripped and upper-cased, is
    neither [Y] nor [N]. *)
Definition not_a_reply (sending_time : Z) (chat_id_list : list Z)
    (u : Update) : Prop :=
  passed_over sending_time chat_id_list u
  ∨ ∃ m t, message u = Some m ∧ inbound_text m = Some t
           ∧ Py.upper (Py.strip t) ≠ "Y" ∧ Py.upper (Py.strip t) ≠ "N".

(** The cursor after a poll that started at [offset] and brought
    [updates]: one past the last update, or [offset] when there is none. *)
Definition cursor_after (offset : option Z) (updates : list Update)
    : option Z :=
  match last updates with
  | Some u => Some (update_id u + 1)
  | None => offset
  end.

(** The world once [TelegramNotifier.init] has created the bot and the
    logger, before its handshake. *)
Definition telegram_configured (w : world) (token logger_name : string)
    : world :=
  {| out := out w;
     attr := {| initialized := initialized (attr w);
                logger := λ c, if decide (c = Telegram) then Some logger_name
                               else logger (attr w) c;
                bot := Some token;
                cq_headers := cq_headers (attr w);
                update_offset := update_offset (attr w) |};
     trace := trace w; n_bot := n_bot w; n_http := n_http w |}.

(** The process [s] with its world replaced by [w]. *)
Definition with_world (s : system) (w : world) : system :=
  {| the_world := w; message_queue := message_queue s;
     waiters := waiters s; notifier_status := notifier_status s |}.

(** A computation of an adapter all of whose events satisfy [P], which may
    read the class attributes; the class attributes themselves are kept. *)
Definition emits_at (P : attrs → event → Prop) {A} (m : M A) : Prop :=
  ∀ w, ∃ evs,
    trace (m w).2 = trace w ++ evs
    ∧ Forall (P (attr w)) evs
    ∧ attr (m w).2 = attr w.

(** The chat that a bot call is addressed to. *)
Definition chat_of (c : Bot.call) : option Z :=
  match c with
  | Bot.send_video chat _ _ | Bot.send_photo chat _ _
  | Bot.send_media_group chat _ | Bot.send_message chat _ => Some chat
  | Bot.get_updates _ => None
  end.

(** The text that a bot call carries, as its text or as a caption. *)
Definition text_of (c : Bot.call) : option string :=
  match c with
  | Bot.send_video _ _ caption | Bot.send_photo _ _ caption => Some caption
  | Bot.send_media_group _ group => head group ≫= caption
  | Bot.send_message _ text => Some text
  | Bot.get_updates _ => None
  end.

(** An event that delivering [message] may leave: a bot call to one of its
    chats, carrying its text, for a Telegram envelope; a POST to one of its
    URLs, without headers for a Discord envelope and with the configured
    headers for a Cqhttp one; a sleep between two attempts of a Telegram
    call; a log record. *)
Definition delivers (message : envelope) (a : attrs) (ev : event) : Prop :=
  match ev, message with
  | EvBot c, TelegramMessage chat_id_list m =>
      (∃ chat, chat_of c = Some chat ∧ chat ∈ chat_id_list)
      ∧ text_of c = Some (text m)
  | EvPost r, DiscordMessage webhook_url_list _ =>
      url r ∈ webhook_url_list ∧ headers r = None
  | EvPost r, CqhttpMessage url_list _ =>
      url r ∈ url_list ∧ headers r = cq_headers a
  | EvSleep _, TelegramMessage _ _ => True
  | EvLog _ _ _, _ => True
  | _, _ => False
  end.

(** ** [TelegramNotifier.listen_exit_command] *)

(** Where [listen_exit_command] stands when the model stops: still in one
    of its loops, or past [os._exit(0)]. *)
Inductive listener := Listening | Exited.

Definition exit_question : string := "Do you want to exit the program?".
Definition exit_farewell : string := "Program will exit after 5 sec.".

(** The [for update in updates] loop of [listen_exit_command]:
    [Return None] when the loop runs to its end.  [rounds] cuts the loop of
    [confirm]; a [confirm] that is still polling leaves the listener
    [Listening]. *)
Fixpoint exit_scan (rounds : nat) (starting_time chat : Z)
    (updates : list Update) : M (option listener) :=
  match updates with
  | [] => mret None
  | update :: rest =>
      match message update with
      | None => exit_scan rounds starting_time chat rest
      | Some msg =>
          if date msg <? starting_time
          then exit_scan rounds starting_time chat rest
          else if negb (chat_id msg =? chat)
          then exit_scan rounds starting_time chat rest
          else
            match inbound_text msg with
            | None => mthrow (mk_exn AttributeError ["NoneType"; "strip"])
            | Some t =>
                if String.eqb (Py.upper (Py.strip t)) "EXIT"
                then
                  confirmed ← TelegramNotifier.confirm rounds
                                (TelegramMessage [chat] (plain exit_question));
                  match confirmed with
                  | None => mret (Some Listening)
                  | Some true =>
                      TelegramNotifier.send_message
                        (TelegramMessage [chat] (plain exit_farewell)) ;;
                      log Telegram ERROR
                        (MsgText "The program exits by the telegram command.") ;;
                      sleep 5 ;;
                      mret (Some Exited)
                  | Some false => exit_scan rounds starting_time chat rest
                  end
                else exit_scan rounds starting_time chat rest
            end
      end
  end.

(** The [while True] loop of [listen_exit_command], cut after [polls]
    polls. *)
Fixpoint _listen_loop (polls rounds : nat) (starting_time chat : Z)
    : M listener :=
  match polls with
  | O => mret Listening
  | S k =>
      updates ← TelegramNotifier._get_new_updates;
      r ← exit_scan rounds starting_time chat updates;
      match r with
      | Some l => mret l
      | None => sleep 20 ;; _listen_loop k rounds starting_time chat
      end
  end.

Definition listen_exit_command (polls rounds : nat) (chat : Z) : M listener :=
  starting_time ← now;
  _listen_loop polls rounds starting_time chat.

(** An inbound update that [listen_exit_command] does not act upon: no
    message, a message dated before the starting time, a message of another
    chat, or a text that, stripped and upper-cased, is not [EXIT]. *)
Definition not_a_command (starting_time chat : Z) (u : Update) : Prop :=
  match message u with
  | None => True
  | Some m =>
      date m < starting_time ∨ chat_id m ≠ chat
      ∨ ∃ t, inbound_text m = Some t ∧ Py.upper (Py.strip t) ≠ "EXIT"
  end.

(** An outside whose answers to [get_updates] never hold a command. *)
Definition only_chatter (o : outside) (starting_time chat : Z) : Prop :=
  ∀ n offset, ∃ us,
    bot_env o n (Bot.get_updates offset) = Return us
    ∧ Forall (not_a_command starting_time chat) us.

(** A computation that only appends to the trace. *)
Definition grows {A} (m : M A) : Prop :=
  ∀ w, ∃ evs, trace (m w).2 = trace w ++ evs.

(** * The rotating-token client of [twitter_watcher.py]

    [TwitterWatcher.query] and the functions it calls.  The methods run
    synchronously; they are embedded as computations in a state and
    exception monad of their own, over the fields of the watcher, the
    answers of the web and the history of what was requested, logged and
    slept.  [__init__] reads the cookie files and draws the first token at
    random; here a watcher starts from the fields that [__init__] leaves. *)

Module TwitterWatcher.

(** ** Python dicts and JSON values *)

(** A [dict] with [str] keys: its items in insertion order. *)
Definition pydict (V : Type) : Type := list (string * V).

(** [d.get(k)]. *)
Fixpoint dict_get {V} (d : pydict V) (k : string) : option V :=
  match d with
  | [] => None
  | (k', v) :: rest => if String.eqb k' k then Some v else dict_get rest k
  end.

(** [d[k] = v]: the value of a present key is replaced where it stands, a
    new key goes to the end. *)
Fixpoint dict_set {V} (k : string) (v : V) (d : pydict V) : pydict V :=
  match d with
  | [] => [(k, v)]
  | (k', v') :: rest =>
      if String.eqb k' k then (k', v) :: rest else (k', v') :: dict_set k v rest
  end.

(** The items [items] stored one after the other into [d]. *)
Definition dict_update {V} (d : pydict V) (items : list (string * V))
    : pydict V :=
  foldl (λ acc kv, dict_set kv.1 kv.2 acc) d items.

(** A dict display, a dict comprehension or [dict(items)]. *)
Definition dict_of {V} (items : list (string * V)) : pydict V :=
  dict_update [] items.

(** [d1 | d2]. *)
Definition dict_or {V} (d1 d2 : pydict V) : pydict V := dict_update d1 d2.

(** [sorted(d.items())]: the keys of a dict are distinct, so the items are
    ordered by their keys. *)
Fixpoint insert_by_key {V} (kv : string * V) (l : list (string * V))
    : list (string * V) :=
  match l with
  | [] => [kv]
  | x :: rest =>
      if String.leb kv.1 x.1 then kv :: l else x :: insert_by_key kv rest
  end.

Definition sorted {V} (items : list (string * V)) : list (string * V) :=
  foldr insert_by_key [] items.

Definition lower_char (c : ascii) : ascii :=
  let n := Ascii.nat_of_ascii c in
  if ((65 <=? n)%nat && (n <=? 90)%nat) then Ascii.ascii_of_nat (n + 32) else c.

(** [str.lower()] (ASCII letters). *)
Fixpoint lower (s : string) : string :=
  match s with
  | EmptyString => EmptyString
  | String c s' => String (lower_char c) (lower s')
  end.

(** [sep.join(l)]. *)
Fixpoint join (sep : string) (l : list string) : string :=
  match l with
  | [] => EmptyString
  | [x] => x
  | x :: rest => x +:+ sep +:+ join sep rest
  end.

(** What [json.load] and [response.json()] return. *)
#[warnings="-register-all"] Inductive json :=
| JNull
| JBool (b : bool)
| JInt (n : Z)
| JFloat (literal : string)
| JString (s : string)
| JArray (items : list json)
| JObject (members : list (string * json)).

(** ** Exceptions, the web and the watcher *)

(** [ConnectionError] stands for [requests.exceptions.ConnectionError] and
    its subclasses, [RequestException] for the other exceptions of
    [requests.request]. *)
Inductive error :=
| ConnectionError (detail : string)
| RequestException (detail : string)
| JSONDecodeError
| TypeError
| KeyError (key : string)
| IndexError
| ZeroDivisionError
| UnboundLocalError.

Inductive outcome (A : Type) :=
| Ok (a : A)
| Err (e : error).
Arguments Ok {A} a.
Arguments Err {A} e.

(** What [GraphqlAPI.get_api_data] returns: [url, method, headers,
    features]. *)
Record api_data := {
  api_url : string;
  api_method : string;
  api_headers : pydict string;
  api_features : json;
}.

(** [requests.request(method=, url=, headers=, params=, timeout=30)]. *)
Record request := {
  req_method : string;
  req_url : string;
  req_headers : pydict string;
  req_params : pydict string;
}.

(** A response: [status_code], [text] and [json()], which fails on a body
    that is not JSON. *)
Record response := {
  status_code : Z;
  body_text : string;
  body_json : option json;
}.

Inductive log_record :=
| ConnectionFailed (url detail : string)
| EmptyResponse (url : string) (status : Z)
| ReturnedErrors (url : string) (errors : json)
| HttpStatus (url : string) (status : Z) (body : string)
| AllTokensFailed (auth_headers params : pydict string).

Inductive happening :=
| Requested (r : request)
| Logged (lvl : level) (record : log_record)
| Slept (seconds : Z).

(** The fields of a [TwitterWatcher]; a cookie jar holds the cookies of
    one account, with string values. *)
Record watcher := {
  token_number : Z;
  auth_cookie_list : list (pydict string);
  current_token_index : Z;
}.

(** The outside.  [graphql_api.py] is missing: [get_api_data] is whatever
    function of the API name it is, and may fail.  [json.dumps] is the
    library's function from values to text.  The web answers the [n]-th
    request. *)
Record outside := {
  get_api_data : string → outcome api_data;
  dumps : json → string;
  web : nat → request → outcome response;
}.

Record world := {
  self : watcher;
  out : outside;
  history : list happening;
  requests_made : nat;
}.

Definition W (A : Type) : Type := world → outcome A * world.

Global Instance W_ret : MRet W := λ A a w, (Ok a, w).

Global Instance W_bind : MBind W := λ A B f m w,
  match m w with
  | (Ok a, w') => f a w'
  | (Err e, w') => (Err e, w')
  end.

Definition raise {A} (e : error) : W A := λ w, (Err e, w).

Definition lift_outcome {A} (r : outcome A) : W A := λ w, (r, w).

Definition get {A} (f : watcher → A) : W A := λ w, (Ok (f (self w)), w).

Definition ask {A} (f : outside → A) : W A := λ w, (Ok (f (out w)), w).

Definition record (h : happening) : W () := λ w,
  (Ok (),
   {| self := self w; out := out w; history := history w ++ [h];
      requests_made := requests_made w |}).

(** [self.current_token_index = i]. *)
Definition set_current_token_index (i : Z) : W () := λ w,
  (Ok (),
   {| self := {| token_number := token_number (self w);
                 auth_cookie_list := auth_cookie_list (self w);
                 current_token_index := i |};
      out := out w; history := history w;
      requests_made := requests_made w |}).

(** [requests.request(...)]: the request is recorded and the web answers. *)
Definition requests_request (r : request) : W response := λ w,
  (web (out w) (requests_made w) r,
   {| self := self w; out := out w; history := history w ++ [Requested r];
      requests_made := S (requests_made w) |}).

(** [try: response = requests.request(...)] with the clause
    [except requests.exceptions.ConnectionError as e]: the exception that
    the clause catches, or the response. *)
Definition try_request (r : request) : W (string + response) := λ w,
  match requests_request r w with
  | (Ok resp, w') => (Ok (inr resp), w')
  | (Err (ConnectionError detail), w') => (Ok (inl detail), w')
  | (Err e, w') => (Err e, w')
  end.

(** [self.logger.<lvl>(...)]. *)
Definition log (lvl : level) (r : log_record) : W () := record (Logged lvl r).

(** [l[i]] on a list: a negative index counts from the end. *)
Definition list_index {A} (l : list A) (i : Z) : outcome A :=
  let len := Z.of_nat (length l) in
  let j := if i <? 0 then i + len else i in
  if (0 <=? j) && (j <? len)
  then match l !! Z.to_nat j with
       | Some x => Ok x
       | None => Err IndexError
       end
  else Err IndexError.

(** ** The module-level functions *)

Definition truthy (v : option string) : bool :=
  match v with
  | Some (String _ _) => true
  | _ => false
  end.

(** The auth-related headers taken from the cookies. *)
Definition auth_items (cookies : pydict string) : pydict string :=
  [ ("cookie", join "; " ((λ kv, kv.1 +:+ "=" +:+ kv.2) <$> cookies));
    ("referer", "https://twitter.com/");
    ("x-csrf-token", default EmptyString (dict_get cookies "ct0"));
    ("x-guest-token", default EmptyString (dict_get cookies "guest_token"));
    ("x-twitter-auth-type",
     if truthy (dict_get cookies "auth_token") then "OAuth2Session"
     else EmptyString);
    ("x-twitter-active-user", "yes");
    ("x-twitter-client-language", "en") ].

Definition _get_auth_headers (headers cookies : pydict string)
    : pydict string :=
  let authed_headers := dict_or headers (dict_of (auth_items cookies)) in
  dict_of (sorted (dict_of ((λ kv, (lower kv.1, kv.2)) <$> authed_headers))).

Definition _build_params (dumps : json → string) (params : pydict json)
    : pydict string :=
  dict_of ((λ kv, (kv.1, dumps kv.2)) <$> params).

(** [cookie[key]] on a dict. *)
Definition item {V} (d : pydict V) (key : string) : outcome V :=
  match dict_get d key with
  | Some v => Ok v
  | None => Err (KeyError key)
  end.

(** The dict comprehension runs through the cookies in order; for each, the
    key expression [cookie["name"]] is evaluated before the value
    expression. *)
Fixpoint playwright_items (cookie_list : list (pydict string))
    : outcome (list (string * string)) :=
  match cookie_list with
  | [] => Ok []
  | cookie :: rest =>
      match item cookie "name" with
      | Err e => Err e
      | Ok name =>
          match item cookie "value" with
          | Err e => Err e
          | Ok value =>
              match playwright_items rest with
              | Err e => Err e
              | Ok items => Ok ((name, value) :: items)
              end
          end
      end
  end.

Definition convert_playwright_cookie_list_to_dict
    (cookie_list : list (pydict string)) : outcome (pydict string) :=
  match playwright_items cookie_list with
  | Ok items => Ok (dict_of items)
  | Err e => Err e
  end.

(** ** [TwitterWatcher.query] *)

(** ["errors" in json_response]: a key of an object, an element of an
    array, a substring of a string; the other values are not iterable. *)
Definition contains_errors (j : json) : outcome bool :=
  match j with
  | JObject members => Ok (bool_decide (is_Some (dict_get members "errors")))
  | JArray items =>
      Ok (existsb (λ x, match x with
                        | JString s => String.eqb s "errors"
                        | _ => false
                        end) items)
  | JString s => Ok (bool_decide (is_Some (String.index 0 "errors" s)))
  | JNull | JBool _ | JInt _ | JFloat _ => Err TypeError
  end.

(** [json_response['errors']]: only an object is indexed by a string. *)
Definition errors_of (j : json) : outcome json :=
  match j with
  | JObject members => item members "errors"
  | _ => Err TypeError
  end.

(** The [for _ in range(self.token_number)] loop with [remaining]
    iterations left, and what follows it.  [auth_headers] is the local
    variable of that name, unbound before the first iteration.  A [return]
    in the loop ends the computation with [Some]; [None] is what the
    function returns after the loop. *)
Fixpoint _query_loop (api : api_data) (params : pydict string)
    (remaining : nat) (auth_headers : option (pydict string))
    : W (option json) :=
  match remaining with
  | O =>
      match auth_headers with
      | Some hs => log ERROR (AllTokensFailed hs params) ;; mret None
      | None => raise UnboundLocalError
      end
  | S k =>
      i ← get current_token_index;
      n ← get token_number;
      (if n =? 0 then raise ZeroDivisionError
       else set_current_token_index ((i + 1) `mod` n)) ;;
      cookies ← get auth_cookie_list;
      i' ← get current_token_index;
      jar ← lift_outcome (list_index cookies i');
      let hs := _get_auth_headers (api_headers api) jar in
      let next := _query_loop api params k (Some hs) in
      answer ← try_request {| req_method := api_method api;
                              req_url := api_url api;
                              req_headers := hs; req_params := params |};
      match answer with
      | inl detail =>
          log ERROR (ConnectionFailed (api_url api) detail) ;; next
      | inr resp =>
          if bool_decide (status_code resp ∈ [200; 403; 404])
          then
            if String.eqb (body_text resp) EmptyString
            then
              log WARNING (EmptyResponse (api_url api) (status_code resp)) ;;
              next
            else
              match body_json resp with
              | None => raise JSONDecodeError
              | Some json_response =>
                  has ← lift_outcome (contains_errors json_response);
                  if (has : bool)
                  then
                    errors ← lift_outcome (errors_of json_response);
                    log WARNING (ReturnedErrors (api_url api) errors) ;;
                    next
                  else mret (Some json_response)
              end
          else if negb (status_code resp =? 429)
          then
            log WARNING (HttpStatus (api_url api) (status_code resp)
                           (body_text resp)) ;;
            next
          else next
      end
  end.

Definition query (api_name : string) (params : json) : W (option json) :=
  get_api ← ask get_api_data;
  api ← lift_outcome (get_api api_name);
  dumps ← ask dumps;
  let params := _build_params dumps [("variables", params);
                                     ("features", api_features api)] in
  n ← get token_number;
  _query_loop api params (Z.to_nat n) None.

(** [get_user_by_username], its [while json_response is None] loop cut
    after [rounds] further queries: [None] means that it is still
    looping.  [params] is the dict of that name; the default is one dict
    shared by all calls, into which only the key [screen_name] is ever
    stored. *)
Fixpoint _until_answered (api_name : string) (params : json) (rounds : nat)
    (json_response : option json) : W (option json) :=
  match json_response with
  | Some j => mret (Some j)
  | None =>
      match rounds with
      | O => mret None
      | S k =>
          record (Slept 60) ;;
          r ← query api_name params;
          _until_answered api_name params k r
      end
  end.

Definition get_user_by_username (rounds : nat) (username : string)
    (params : pydict json) : W (option json) :=
  let params := JObject (dict_set "screen_name" (JString username) params) in
  r ← query "UserByScreenName" params;
  _until_answered "UserByScreenName" params rounds r.

(** [get_user_by_id]: the same, for the API [UserByRestId] and the key
    [userId]. *)
Definition get_user_by_id (rounds : nat) (user_id : Z)
    (params : pydict json) : W (option json) :=
  let params := JObject (dict_set "userId" (JInt user_id) params) in
  r ← query "UserByRestId" params;
  _until_answered "UserByRestId" params rounds r.

End TwitterWatcher.

(** ** Notions used in the statements about the watcher *)

(** What [__init__] leaves: at least one token, one cookie jar for each,
    and an index that points at one of them. *)
Definition well_formed (self : TwitterWatcher.watcher) : Prop :=
  0 < TwitterWatcher.token_number self
  ∧ Z.of_nat (length (TwitterWatcher.auth_cookie_list self))
    = TwitterWatcher.token_number self
  ∧ 0 ≤ TwitterWatcher.current_token_index self
      < TwitterWatcher.token_number self.

(** The happenings appended between two worlds. *)
Definition happened (w w' : TwitterWatcher.world) : list TwitterWatcher.happening :=
  drop (length (TwitterWatcher.history w)) (TwitterWatcher.history w').

Definition requests_of (hs : list TwitterWatcher.happening)
    : list TwitterWatcher.request :=
  omap (λ h, match h with
             | TwitterWatcher.Requested r => Some r
             | _ => None
             end) hs.

Definition records_of (hs : list TwitterWatcher.happening)
    : list (level * TwitterWatcher.log_record) :=
  omap (λ h, match h with
             | TwitterWatcher.Logged lvl r => Some (lvl, r)
             | _ => None
             end) hs.

(** The request that [query] makes with the [m]-th token after the current
    one, for the API data [api] and the built parameters [params]. *)
Definition rotated_request (w : TwitterWatcher.world)
    (api : TwitterWatcher.api_data) (params : TwitterWatcher.pydict string)
    (m : nat) : TwitterWatcher.request :=
  let me := TwitterWatcher.self w in
  let i := (TwitterWatcher.current_token_index me + Z.of_nat m)
             `mod` TwitterWatcher.token_number me in
  {| TwitterWatcher.req_method := TwitterWatcher.api_method api;
     TwitterWatcher.req_url := TwitterWatcher.api_url api;
     TwitterWatcher.req_headers :=
       TwitterWatcher._get_auth_headers (TwitterWatcher.api_headers api)
         (default [] (TwitterWatcher.auth_cookie_list me !! Z.to_nat i));
     TwitterWatcher.req_params := params |}.

(** The watcher of [w] with its index moved to [i]. *)
Definition at_token (w : TwitterWatcher.world) (i : Z) : TwitterWatcher.watcher :=
  {| TwitterWatcher.token_number := TwitterWatcher.token_number (TwitterWatcher.self w);
     TwitterWatcher.auth_cookie_list :=
       TwitterWatcher.auth_cookie_list (TwitterWatcher.self w);
     TwitterWatcher.current_token_index := i |}.

(** What the loop of [query], entered in [w] with [remaining] iterations
    left, has done when it ends in [r]: it made [k] requests, at least one
    if any iteration was left, with the tokens that follow the current one
    in turn, and left the index at the last of them; it touched no other
    field; it returned [None] only after the last iteration, and a value
    only if that was the body of the last response. *)
Definition rotated (api : TwitterWatcher.api_data)
    (params : TwitterWatcher.pydict string) (remaining : nat)
    (w : TwitterWatcher.world)
    (r : TwitterWatcher.outcome (option TwitterWatcher.json) * TwitterWatcher.world)
    : Prop :=
  ∃ (k : nat) (hs : list TwitterWatcher.happening),
    (k ≤ remaining)%nat
    ∧ (remaining ≠ O → (1 ≤ k)%nat)
    ∧ TwitterWatcher.history r.2 = TwitterWatcher.history w ++ hs
    ∧ requests_of hs = rotated_request w api params <$> seq 1 k
    ∧ TwitterWatcher.requests_made r.2 = (TwitterWatcher.requests_made w + k)%nat
    ∧ TwitterWatcher.out r.2 = TwitterWatcher.out w
    ∧ TwitterWatcher.self r.2
      = at_token w ((TwitterWatcher.current_token_index (TwitterWatcher.self w)
                     + Z.of_nat k)
                    `mod` TwitterWatcher.token_number (TwitterWatcher.self w))
    ∧ (r.1 = TwitterWatcher.Ok None → k = remaining)
    ∧ (∀ j, r.1 = TwitterWatcher.Ok (Some j) →
         ∃ resp,
           TwitterWatcher.web (TwitterWatcher.out w)
             (TwitterWatcher.requests_made w + k - 1)%nat
             (rotated_request w api params k)
           = TwitterWatcher.Ok resp
           ∧ TwitterWatcher.status_code resp ∈ [200; 403; 404]
           ∧ TwitterWatcher.body_json resp = Some j
           ∧ TwitterWatcher.contains_errors j = TwitterWatcher.Ok false).

(** An outside that answers every request with HTTP 429. *)
Definition throttled (o : TwitterWatcher.outside) : Prop :=
  ∀ n r, ∃ resp,
    TwitterWatcher.web o n r = TwitterWatcher.Ok resp
    ∧ TwitterWatcher.status_code resp = 429.

(** The parameters that [query] builds for the API data [api]. *)
Definition built_params (w : TwitterWatcher.world) (api : TwitterWatcher.api_data)
    (params : TwitterWatcher.json) : TwitterWatcher.pydict string :=
  TwitterWatcher._build_params (TwitterWatcher.dumps (TwitterWatcher.out w))
    [("variables", params); ("features", TwitterWatcher.api_features api)].

(** What a query that finds every token throttled leaves in the history:
    one request for each token in turn, then the final error record with
    the headers of the last request. *)
Definition throttled_round (w : TwitterWatcher.world) (api : TwitterWatcher.api_data)
    (params : TwitterWatcher.pydict string) : list TwitterWatcher.happening :=
  let n := Z.to_nat (TwitterWatcher.token_number (TwitterWatcher.self w)) in
  ((λ m, TwitterWatcher.Requested (rotated_request w api params m)) <$> seq 1 n)
  ++ [TwitterWatcher.Logged ERROR
        (TwitterWatcher.AllTokensFailed
           (TwitterWatcher.req_headers (rotated_request w api params n)) params)].

(** A watcher with three tokens, the first of which is current. *)
Definition three_tokens : TwitterWatcher.watcher :=
  {| TwitterWatcher.token_number := 3;
     TwitterWatcher.auth_cookie_list :=
       [ [("ct0", "a"); ("username", "alice")];
         [("ct0", "b"); ("username", "bob")];
         [("ct0", "c"); ("username", "carol")] ];
     TwitterWatcher.current_token_index := 0 |}.

Definition user_api : TwitterWatcher.api_data :=
  {| TwitterWatcher.api_url := "https://x/UserByScreenName";
     TwitterWatcher.api_method := "GET";
     TwitterWatcher.api_headers := [("Authorization", "Bearer t")];
     TwitterWatcher.api_features := TwitterWatcher.JObject [] |}.

(** The world of the watcher [three_tokens] before any request, in which
    the web answers the [n]-th request with [answers !! n], and with
    HTTP 429 beyond. *)
Definition watching (answers : list (TwitterWatcher.outcome TwitterWatcher.response))
    : TwitterWatcher.world :=
  {| TwitterWatcher.self := three_tokens;
     TwitterWatcher.out :=
       {| TwitterWatcher.get_api_data := λ _, TwitterWatcher.Ok user_api;
          TwitterWatcher.dumps := λ _, "{}";
          TwitterWatcher.web := λ n _,
            default (TwitterWatcher.Ok
                       {| TwitterWatcher.status_code := 429;
                          TwitterWatcher.body_text := "Rate limit exceeded";
                          TwitterWatcher.body_json := None |})
                    (answers !! n) |};
     TwitterWatcher.history := [];
     TwitterWatcher.requests_made := 0 |}.

(** * Properties *)

(** ** The model on small inputs *)

Example strip_upper_reply : Py.upper (Py.strip "  n ") = "N".
Proof. reflexivity. Qed.

Example strip_keeps_inner_space : Py.strip " a b  " = "a b".
Proof. reflexivity. Qed.

Example strip_blank : Py.strip "   " = EmptyString.
Proof. reflexivity. Qed.

(** U+00A0 before and U+3000 after the letter: both are stripped. *)
Example strip_upper_unicode_space :
  let nbsp := String (Ascii.ascii_of_nat 194) (String (Ascii.ascii_of_nat 160) EmptyString) in
  let wide := String (Ascii.ascii_of_nat 227)
                (String (Ascii.ascii_of_nat 128)
                   (String (Ascii.ascii_of_nat 128) EmptyString)) in
  Py.upper (Py.strip (nbsp +:+ "y" +:+ wide)) = "Y".
Proof. reflexivity. Qed.

(** The upper case of U+0131, the dotless i, is [I]. *)
Example upper_dotless_i :
  let dotless := String (Ascii.ascii_of_nat 196)
                   (String (Ascii.ascii_of_nat 177) EmptyString) in
  Py.upper ("ex" +:+ dotless +:+ "t") = "EXIT".
Proof. reflexivity. Qed.

(** A character outside ASCII whose upper case is not ASCII either. *)
Example upper_keeps_other_characters :
  let e_acute := String (Ascii.ascii_of_nat 195)
                   (String (Ascii.ascii_of_nat 169) EmptyString) in
  Py.chars ("y" +:+ e_acute) = ["y"; e_acute]
  ∧ Py.upper ("y" +:+ e_acute) ≠ "Y".
Proof. split; [reflexivity|discriminate]. Qed.

Example replace_every_occurrence :
  Py.replace "http://" EmptyString "a http://x/1 http://y" = "a x/1 y".
Proof. reflexivity. Qed.

Example replace_is_one_pass :
  Py.replace "http://" EmptyString "hthttp://tp://x" = "http://x".
Proof. reflexivity. Qed.

Example remove_http_both_schemes :
  _remove_http "see https://t.co/a and http://t.co/b" = "see t.co/a and t.co/b".
Proof. reflexivity. Qed.

Example BadRequest_mro :
  mro BadRequest = [BadRequest; NetworkError; TelegramError; Exception].
Proof. reflexivity. Qed.

Example media_group_of_twelve :
  media <$> TelegramNotifier.media_group "t" "p0"
              ["p1"; "p2"; "p3"; "p4"; "p5"; "p6"; "p7"; "p8"; "p9"; "p10"; "p11"]
  = ["p0"; "p1"; "p2"; "p3"; "p4"; "p5"; "p6"; "p7"; "p8"; "p9"].
Proof. reflexivity. Qed.

(** A run of [confirm]: the question is sent, the first poll brings a
    reply dated before the sending time, a reply from a stranger and a reply
    that is neither [Y] nor [N]; the second poll brings [ n ] from the
    target. *)
Example confirm_run :
  let target_says (date : Z) (t : string) :=
    {| update_id := date;
       message := Some {| date := date; chat_id := 7; inbound_text := Some t |} |} in
  let stranger_says (date : Z) (t : string) :=
    {| update_id := date;
       message := Some {| date := date; chat_id := 8; inbound_text := Some t |} |} in
  let w := ready_world
             (scripted [Return [];
                        Return [target_says 0 "y"; stranger_says 5 "y";
                                target_says 6 "maybe"];
                        Return [target_says 30 " n "]]
                ok_response) in
  let r := TelegramNotifier.confirm 3 (TelegramMessage [7] (plain "Exit?")) w in
  r.1 = Return (Some false)
  ∧ bot_calls (trace r.2)
    = [Bot.send_message 7 ("Exit?" +:+ TelegramNotifier.newline +:+ "Please reply Y/N");
       Bot.get_updates None; Bot.get_updates (Some 7)]
  ∧ sleeps (trace r.2) = [10].
Proof. by vm_compute. Qed.

(** ** Basic facts about the monad *)

Lemma bind_run {Σ A B} (m : St Σ A) (f : A → St Σ B) (σ : Σ) :
  (m ≫= f) σ = match m σ with
               | (Return a, σ') => f a σ'
               | (Raise e, σ') => (Raise e, σ')
               end.
Proof. reflexivity. Qed.

Lemma bind_return {Σ A B} (m : St Σ A) (f : A → St Σ B) σ a σ' :
  m σ = (Return a, σ') → (m ≫= f) σ = f a σ'.
Proof. intros H. rewrite bind_run, H. reflexivity. Qed.

Lemma bind_raise {Σ A B} (m : St Σ A) (f : A → St Σ B) σ e σ' :
  m σ = (Raise e, σ') → (m ≫= f) σ = (Raise e, σ').
Proof. intros H. rewrite bind_run, H. reflexivity. Qed.

Lemma try_return {Σ A} (body : St Σ A) cs h σ a σ' :
  body σ = (Return a, σ') → try_except body cs h σ = (Return a, σ').
Proof. intros H. unfold try_except. rewrite H. reflexivity. Qed.

Lemma try_caught {Σ A} (body : St Σ A) cs h σ e σ' :
  body σ = (Raise e, σ') → isinstance e cs = true →
  try_except body cs h σ = h e σ'.
Proof. intros H Hi. unfold try_except. rewrite H, Hi. reflexivity. Qed.

Lemma try_uncaught {Σ A} (body : St Σ A) cs h σ e σ' :
  body σ = (Raise e, σ') → isinstance e cs = false →
  try_except body cs h σ = (Raise e, σ').
Proof. intros H Hi. unfold try_except. rewrite H, Hi. reflexivity. Qed.

(** Every class derives from [Exception]: [except Exception] catches
    whatever an adapter raises. *)
Lemma isinstance_Exception (e : exn) : isinstance e [Exception] = true.
Proof. destruct e as [[] args]; reflexivity. Qed.

(** A [BadRequest] is a [NetworkError], so the [except] clause of [_retry]
    catches it. *)
Lemma BadRequest_is_transient (e : exn) :
  isinstance e [BadRequest] = true →
  isinstance e TelegramNotifier.transient = true.
Proof. destruct e as [[] args]; simpl; intros H; done. Qed.

Lemma since_app (w w' : world) (evs : list event) :
  trace w' = trace w ++ evs → since w w' = evs.
Proof. intros H. unfold since. rewrite H. apply drop_app_length. Qed.

Lemma bot_calls_app (l1 l2 : list event) :
  bot_calls (l1 ++ l2) = bot_calls l1 ++ bot_calls l2.
Proof. apply omap_app. Qed.

Lemma sleeps_app (l1 l2 : list event) : sleeps (l1 ++ l2) = sleeps l1 ++ sleeps l2.
Proof. apply omap_app. Qed.

Lemma posts_app (l1 l2 : list event) : posts (l1 ++ l2) = posts l1 ++ posts l2.
Proof. apply omap_app. Qed.

Lemma deliveries_app (l1 l2 : list event) :
  deliveries (l1 ++ l2) = deliveries l1 ++ deliveries l2.
Proof. apply omap_app. Qed.

(** ** Adapter computations are quiet *)

Create HintDb quiet.

Lemma quiet_ret {A} (a : A) : quiet (mret a).
Proof. intros w. exists []. simpl. rewrite app_nil_r. done. Qed.

Lemma quiet_throw {A} (e : exn) : quiet (mthrow e : M A).
Proof. intros w. exists []. simpl. rewrite app_nil_r. done. Qed.

Lemma quiet_bind {A B} (m : M A) (f : A → M B) :
  quiet m → (∀ a, quiet (f a)) → quiet (m ≫= f).
Proof.
  intros Hm Hf w. rewrite bind_run.
  destruct (Hm w) as (evs & Ht & Hev & Ha & Ho).
  destruct (m w) as [[a|e] w1]; simpl in *.
  - destruct (Hf a w1) as (evs' & Ht' & Hev' & Ha' & Ho').
    exists (evs ++ evs'). rewrite Ht', Ht, Ha', Ho', app_assoc.
    split_and!; try done. by apply Forall_app.
  - by exists evs.
Qed.

Lemma quiet_try {A} (body : M A) cs (h : exn → M A) :
  quiet body → (∀ e, quiet (h e)) → quiet (try_except body cs h).
Proof.
  intros Hm Hf w. unfold try_except.
  destruct (Hm w) as (evs & Ht & Hev & Ha & Ho).
  destruct (body w) as [[a|e] w1]; simpl in *.
  - by exists evs.
  - destruct (isinstance e cs); [|by exists evs].
    destruct (Hf e w1) as (evs' & Ht' & Hev' & Ha' & Ho').
    exists (evs ++ evs'). rewrite Ht', Ht, Ha', Ho', app_assoc.
    split_and!; try done. by apply Forall_app.
Qed.

Lemma quiet_for {A} (l : list A) (f : A → M ()) :
  (∀ x, quiet (f x)) → quiet (for_ l f).
Proof.
  intros Hf. induction l as [|x l IH]; simpl.
  - apply quiet_ret.
  - apply quiet_bind; auto.
Qed.

Lemma quiet_emit (ev : event) : adapter_event ev = true → quiet (emit ev).
Proof. intros H w. exists [ev]. simpl. split_and!; try done. by constructor. Qed.

Lemma quiet_get_attr {A} (f : attrs → A) : quiet (get_attr f).
Proof. intros w. exists []. simpl. rewrite app_nil_r. done. Qed.

Lemma quiet_lift_result {A} (r : result A) : quiet (lift_result r).
Proof. intros w. exists []. simpl. rewrite app_nil_r. done. Qed.

Lemma quiet_call_bot (c : Bot.call) : quiet (call_bot c).
Proof. intros w. exists [EvBot c]. simpl. split_and!; try done. by constructor. Qed.

Lemma quiet_session_post (r : http_request) : quiet (session_post r).
Proof. intros w. exists [EvPost r]. simpl. split_and!; try done. by constructor. Qed.

Lemma quiet_assert (b : bool) : quiet (assert_ b).
Proof. destruct b; [apply quiet_ret | apply quiet_throw]. Qed.

Lemma quiet_sleep (d : Z) : quiet (sleep d).
Proof. by apply quiet_emit. Qed.

Lemma quiet_log cls lvl msg : quiet (log cls lvl msg).
Proof.
  apply quiet_bind; [apply quiet_get_attr|].
  intros [name|]; [by apply quiet_emit | apply quiet_throw].
Qed.

Global Hint Resolve quiet_ret quiet_throw quiet_get_attr quiet_lift_result
  quiet_call_bot quiet_session_post quiet_assert quiet_sleep quiet_log : quiet.

(** Breaks a computation built from the combinators into its primitive
    steps. *)
Ltac quiet_steps :=
  repeat first
    [ progress auto with quiet
    | apply quiet_bind; [|intros]
    | apply quiet_try; [|intros]
    | apply quiet_for; intros
    | case_match ].

Lemma quiet_retry_from {A} (func : M A) tries delay i n :
  quiet func → quiet (TelegramNotifier._retry_from func tries delay i n).
Proof.
  intros Hf. revert i. induction n as [|n IH]; intros i; simpl.
  - apply quiet_throw.
  - quiet_steps.
Qed.

Lemma quiet_retry_call c : quiet (TelegramNotifier._retry_call c).
Proof. apply quiet_retry_from, quiet_call_bot. Qed.

Lemma quiet_call_bot_timeout c seconds : quiet (call_bot_timeout c seconds).
Proof. destruct c; first [apply quiet_throw | apply quiet_call_bot]. Qed.

Lemma quiet_retry_call_timeout c : quiet (TelegramNotifier._retry_call_timeout c).
Proof. apply quiet_retry_from, quiet_call_bot_timeout. Qed.

Global Hint Resolve quiet_retry_call quiet_retry_call_timeout : quiet.

Lemma quiet_single_chat chat_id text pl vl :
  quiet (TelegramNotifier._send_message_to_single_chat chat_id text pl vl).
Proof. unfold TelegramNotifier._send_message_to_single_chat. quiet_steps. Qed.

Global Hint Resolve quiet_single_chat : quiet.

Lemma quiet_send_message cls message : quiet (NotifierBase.send_message cls message).
Proof.
  destruct cls; simpl.
  - unfold TelegramNotifier.send_message. quiet_steps.
  - unfold DiscordNotifier.send_message, DiscordNotifier._post. quiet_steps.
  - unfold CqhttpNotifier.send_message, CqhttpNotifier._send_text,
      CqhttpNotifier._send_photo, CqhttpNotifier._send_video,
      CqhttpNotifier._post.
    quiet_steps.
Qed.

(** ** The retry loop *)

Lemma retry_from_success c tries d i n w r :
  bot_env (out w) (n_bot w) c = Return r →
  TelegramNotifier._retry_from (call_bot c) tries d i (S n) w = (Return r, (call_bot c w).2).
Proof.
  intros H. simpl. unfold try_except, call_bot. rewrite H. reflexivity.
Qed.

Lemma retry_from_uncaught c tries d i n w e :
  bot_env (out w) (n_bot w) c = Raise e →
  isinstance e TelegramNotifier.transient = false →
  TelegramNotifier._retry_from (call_bot c) tries d i (S n) w = (Raise e, (call_bot c w).2).
Proof.
  intros H Hi. simpl. unfold try_except, call_bot. rewrite H. cbv beta iota. rewrite Hi. reflexivity.
Qed.

Lemma retry_from_transient c tries d i n w e name :
  bot_env (out w) (n_bot w) c = Raise e →
  isinstance e TelegramNotifier.transient = true →
  logger (attr w) Telegram = Some name →
  TelegramNotifier._retry_from (call_bot c) tries d i (S n) w =
  TelegramNotifier._retry_from (call_bot c) tries d (i + 1) n
    (after_failed_attempt w c name e (i + 1) tries d).
Proof.
  intros H Hi Hl. simpl. unfold try_except at 1. unfold call_bot at 1. rewrite H. cbv beta iota. rewrite Hi.
  unfold log, sleep, emit, get_attr, mbind, St_bind.
  cbn [attr]. rewrite Hl. cbn [trace out attr n_bot n_http].
  unfold after_failed_attempt. rewrite <- !app_assoc. reflexivity.
Qed.

Lemma retry_from_no_logger c tries d i n w e :
  bot_env (out w) (n_bot w) c = Raise e →
  isinstance e TelegramNotifier.transient = true →
  logger (attr w) Telegram = None →
  TelegramNotifier._retry_from (call_bot c) tries d i (S n) w =
  (Raise (mk_exn AttributeError ["NoneType"]), (call_bot c w).2).
Proof.
  intros H Hi Hl. simpl. unfold try_except at 1. unfold call_bot at 1. rewrite H. cbv beta iota. rewrite Hi.
  unfold log, get_attr, mbind, St_bind.
  cbn [attr]. rewrite Hl. reflexivity.
Qed.

Lemma since_refl (w : world) : since w w = [].
Proof. unfold since. apply drop_all. Qed.

Lemma not_transient_not_BadRequest (e : exn) :
  isinstance e TelegramNotifier.transient = false →
  isinstance e [BadRequest] = false.
Proof.
  intros H. destruct (isinstance e [BadRequest]) eqn:Hb; [|done].
  apply BadRequest_is_transient in Hb. congruence.
Qed.

(** Whatever the outside answers, a call through the retry loop makes
    between one and [n] attempts of the same call and nothing else on the
    bot, and what it raises is never a [BadRequest]. *)
Lemma retry_from_calls (c : Bot.call) (tries d : Z) (n : nat) :
  ∀ (i : Z) (w : world),
    let r := TelegramNotifier._retry_from (call_bot c) tries d i n w in
    ∃ (k : nat) (evs : list event),
      trace r.2 = trace w ++ evs
      ∧ bot_calls evs = replicate k c
      ∧ (k ≤ n)%nat
      ∧ (n ≠ 0%nat → (1 ≤ k)%nat)
      ∧ (∀ e, r.1 = Raise e → isinstance e [BadRequest] = false).
Proof.
  induction n as [|n IH]; intros i w r.
  - exists 0%nat, []. subst r. simpl. rewrite app_nil_r.
    split_and!; try done. intros e [= <-]. reflexivity.
  - destruct (bot_env (out w) (n_bot w) c) as [x|e] eqn:Hc.
    { exists 1%nat, [EvBot c]. subst r.
      rewrite (retry_from_success _ _ _ _ _ _ _ Hc). simpl.
      split_and!; try done; lia. }
    destruct (isinstance e TelegramNotifier.transient) eqn:Ht.
    2:{ exists 1%nat, [EvBot c]. subst r.
        rewrite (retry_from_uncaught _ _ _ _ _ _ _ Hc Ht). simpl.
        split_and!; try done; try lia.
        intros e' [= <-]. by apply not_transient_not_BadRequest. }
    destruct (logger (attr w) Telegram) as [name|] eqn:Hl.
    2:{ exists 1%nat, [EvBot c]. subst r.
        rewrite (retry_from_no_logger _ _ _ _ _ _ _ Hc Ht Hl). simpl.
        split_and!; try done; try lia.
        intros e' [= <-]. reflexivity. }
    subst r. rewrite (retry_from_transient _ _ _ _ _ _ _ _ Hc Ht Hl).
    destruct (IH (i + 1) (after_failed_attempt w c name e (i + 1) tries d))
      as (k & evs & Htr & Hcalls & Hle & _ & Hraise).
    exists (S k), ([EvBot c; EvLog name WARNING (MsgRetrying e (i + 1) tries);
                    EvSleep d] ++ evs).
    rewrite Htr. simpl. rewrite <- app_assoc. simpl.
    split_and!; try done; try lia.
    unfold bot_calls in *. simpl. by rewrite Hcalls.
Qed.

(** When every one of the [n] attempts meets a transient fault, the loop
    runs to its end: [n] attempts, [n] warnings and sleeps, and the
    [RuntimeError] of the last line. *)
Lemma retry_from_exhausted (c : Bot.call) (tries d : Z) (name : string) (n : nat) :
  ∀ (i : Z) (w : world),
    logger (attr w) Telegram = Some name →
    (∀ j, (j < n)%nat → ∃ e, bot_env (out w) (n_bot w + j) c = Raise e
                             ∧ isinstance e TelegramNotifier.transient = true) →
    let r := TelegramNotifier._retry_from (call_bot c) tries d i n w in
    r.1 = Raise (mk_exn RuntimeError ["Max retries exceeded."])
    ∧ ∃ evs, trace r.2 = trace w ++ evs
             ∧ bot_calls evs = replicate n c
             ∧ sleeps evs = replicate n d.
Proof.
  induction n as [|n IH]; intros i w Hl Hall r.
  - subst r. simpl. split; [done|]. exists []. by rewrite app_nil_r.
  - destruct (Hall 0%nat ltac:(lia)) as (e & Hc & Ht).
    rewrite Nat.add_0_r in Hc.
    subst r. rewrite (retry_from_transient _ _ _ _ _ _ _ _ Hc Ht Hl).
    destruct (IH (i + 1) (after_failed_attempt w c name e (i + 1) tries d))
      as (Hres & evs & Htr & Hcalls & Hsl).
    + exact Hl.
    + intros j Hj. simpl. destruct (Hall (S j) ltac:(lia)) as (e' & Hc' & Ht').
      exists e'. split; [|done]. rewrite <- Hc'. f_equal. lia.
    + split; [exact Hres|].
      exists ([EvBot c; EvLog name WARNING (MsgRetrying e (i + 1) tries);
               EvSleep d] ++ evs).
      rewrite Htr. simpl. rewrite <- app_assoc. simpl.
      split_and!; try done.
      * unfold bot_calls in *. simpl. by rewrite Hcalls.
      * unfold sleeps in *. simpl. by rewrite Hsl.
Qed.

(** ** The per-target send of the Telegram adapter *)

Lemma retry_call_sent_as (w : world) (c : Bot.call) :
  sent_as w ((TelegramNotifier._retry_call c ≫= λ _, mret ()) w) c.
Proof.
  unfold TelegramNotifier._retry_call, TelegramNotifier._retry.
  change (Z.to_nat 5) with 5%nat.
  destruct (retry_from_calls c 5 5 5 0 w) as (k & evs & Htr & Hcalls & Hle & Hge & _).
  rewrite bind_run.
  exists k. split; [lia|]. split.
  - destruct (TelegramNotifier._retry_from (call_bot c) 5 5 0 5 w) as [[x|e] w1];
      simpl in *; by rewrite (since_app _ _ _ Htr).
  - intros x Hx. rewrite (retry_from_success _ _ _ _ _ _ _ Hx). simpl.
    split; [done|]. by apply since_app.
Qed.

(** A send method that is called with the keyword [timeout] raises at
    once: nothing is sent, logged or slept. *)
Lemma retry_call_timeout_rejected (w : world) (c : Bot.call) :
  (∀ offset, c ≠ Bot.get_updates offset) →
  (TelegramNotifier._retry_call_timeout c ≫= λ _, mret ()) w
  = (Raise (unexpected_keyword "timeout"), w).
Proof.
  intros Hc. rewrite bind_run.
  unfold TelegramNotifier._retry_call_timeout, TelegramNotifier._retry.
  change (Z.to_nat 5) with 5%nat. cbn [TelegramNotifier._retry_from].
  unfold try_except.
  destruct c; try reflexivity. by destruct (Hc offset).
Qed.

Lemma single_chat_video (w : world) chat text pl v vs :
  is_Some (bot (attr w)) →
  TelegramNotifier._send_message_to_single_chat chat text pl (Some (v :: vs)) w
  = (TelegramNotifier._retry_call_timeout (Bot.send_video chat v text)
     ≫= λ _, mret ()) w.
Proof.
  intros Hb. unfold TelegramNotifier._send_message_to_single_chat.
  rewrite bind_run. unfold get_attr. cbv beta iota.
  rewrite bool_decide_eq_true_2 by done. reflexivity.
Qed.

Lemma single_chat_photo (w : world) chat text p vl :
  is_Some (bot (attr w)) → Py.truthy vl = false →
  TelegramNotifier._send_message_to_single_chat chat text (Some [p]) vl w
  = (TelegramNotifier._retry_call_timeout (Bot.send_photo chat p text)
     ≫= λ _, mret ()) w.
Proof.
  intros Hb Hv. unfold TelegramNotifier._send_message_to_single_chat.
  rewrite bind_run. unfold get_attr. cbv beta iota.
  rewrite bool_decide_eq_true_2 by done.
  destruct vl as [[|v vs]|]; done.
Qed.

Lemma single_chat_group (w : world) chat text p q ps vl :
  is_Some (bot (attr w)) → Py.truthy vl = false →
  TelegramNotifier._send_message_to_single_chat chat text (Some (p :: q :: ps)) vl w
  = (TelegramNotifier._retry_call_timeout
       (Bot.send_media_group chat (TelegramNotifier.media_group text p (q :: ps)))
       ≫= λ _, mret ()) w.
Proof.
  intros Hb Hv. unfold TelegramNotifier._send_message_to_single_chat.
  rewrite bind_run. unfold get_attr. cbv beta iota.
  rewrite bool_decide_eq_true_2 by done.
  destruct vl as [[|v vs]|]; done.
Qed.

Lemma single_chat_text (w : world) chat text pl vl :
  is_Some (bot (attr w)) → Py.truthy vl = false → Py.truthy pl = false →
  TelegramNotifier._send_message_to_single_chat chat text pl vl w
  = (TelegramNotifier._retry_call (Bot.send_message chat text) ≫= λ _, mret ()) w.
Proof.
  intros Hb Hv Hp. unfold TelegramNotifier._send_message_to_single_chat.
  rewrite bind_run. unfold get_attr. cbv beta iota.
  rewrite bool_decide_eq_true_2 by done.
  destruct vl as [[|v vs]|]; try done; destruct pl as [[|p ps]|]; done.
Qed.

Lemma single_chat_media_rejected (w : world) chat text pl vl :
  is_Some (bot (attr w)) →
  Py.truthy pl || Py.truthy vl = true →
  TelegramNotifier._send_message_to_single_chat chat text pl vl w
  = (Raise (unexpected_keyword "timeout"), w).
Proof.
  intros Hb Hmedia.
  destruct vl as [[|v vs]|].
  2:{ rewrite single_chat_video by done. by apply retry_call_timeout_rejected. }
  all: destruct pl as [[|p [|q ps]]|]; try done.
  all: first [ rewrite single_chat_photo by done
             | rewrite single_chat_group by done ];
       by apply retry_call_timeout_rejected.
Qed.

(** An envelope with media ends [send_message] at its first chat, with the
    [TypeError] of the media send and nothing done. *)
Lemma media_envelope_rejected (w : world) chat chats (m : Message) :
  initialized (attr w) Telegram = true →
  is_Some (bot (attr w)) →
  Py.truthy (photo_url_list m) || Py.truthy (video_url_list m) = true →
  TelegramNotifier.send_message (TelegramMessage (chat :: chats) m) w
  = (Raise (unexpected_keyword "timeout"), w).
Proof.
  intros Hi Hb Hmedia. unfold TelegramNotifier.send_message.
  rewrite bind_run. unfold get_attr at 1. cbv beta iota. rewrite Hi.
  unfold assert_. rewrite bind_run.
  change ((mret () : M ()) w) with (Return (), w). cbv beta iota.
  cbn [for_]. rewrite bind_run. unfold try_except.
  by rewrite single_chat_media_rejected.
Qed.

Lemma media_group_length text p others :
  (length (TelegramNotifier.media_group text p others) ≤ 10)%nat.
Proof.
  unfold TelegramNotifier.media_group. simpl.
  rewrite length_fmap, length_take. lia.
Qed.

Lemma media_group_media text p others :
  media <$> TelegramNotifier.media_group text p others = take 10 (p :: others).
Proof.
  unfold TelegramNotifier.media_group.
  change (take 10 (p :: others)) with (p :: take 9 others).
  rewrite fmap_cons. f_equal.
  induction (take 9 others) as [|u l IH]; [done|].
  rewrite !fmap_cons. by rewrite IH.
Qed.

Lemma media_group_captions text p others (i : nat) item :
  (0 < i)%nat →
  TelegramNotifier.media_group text p others !! i = Some item →
  caption item = None.
Proof.
  intros Hi. destruct i as [|i]; [lia|].
  unfold TelegramNotifier.media_group.
  change ((?x :: ?l) !! S i) with (l !! i).
  intros (u & -> & _)%list_lookup_fmap_Some. reflexivity.
Qed.

(** ** Retry, media and precedence: the claims on the Telegram adapter *)

(** C4: with a transient fault on attempts 1 and 2 and an answer on
    attempt 3, a call through [_retry] with bound 5 and delay [d] returns
    that answer after exactly three attempts and exactly two sleeps of length
    [d].  And whatever the outside does, [_retry] makes at most five
    attempts; when all five meet a transient fault a [RuntimeError] is
    raised to the caller. *)
Theorem retry_third_attempt_succeeds (w : world) (c : Bot.call) (d : Z)
    (e1 e2 : exn) (x : list Update) (name : string) :
  logger (attr w) Telegram = Some name →
  bot_env (out w) (n_bot w) c = Raise e1 →
  isinstance e1 TelegramNotifier.transient = true →
  bot_env (out w) (S (n_bot w)) c = Raise e2 →
  isinstance e2 TelegramNotifier.transient = true →
  bot_env (out w) (S (S (n_bot w))) c = Return x →
  let r := TelegramNotifier._retry (call_bot c) 5 d w in
  r.1 = Return x
  ∧ since w r.2 = [EvBot c; EvLog name WARNING (MsgRetrying e1 1 5); EvSleep d;
                   EvBot c; EvLog name WARNING (MsgRetrying e2 2 5); EvSleep d;
                   EvBot c]
  ∧ bot_calls (since w r.2) = [c; c; c]
  ∧ sleeps (since w r.2) = [d; d]
  ∧ (∀ (w' : world) (c' : Bot.call) (d' : Z),
       let r' := TelegramNotifier._retry (call_bot c') 5 d' w' in
       (length (bot_calls (since w' r'.2)) ≤ 5)%nat
       ∧ (is_Some (logger (attr w') Telegram) →
          (∀ j, (j < 5)%nat →
                ∃ e, bot_env (out w') (n_bot w' + j) c' = Raise e
                     ∧ isinstance e TelegramNotifier.transient = true) →
          r'.1 = Raise (mk_exn RuntimeError ["Max retries exceeded."])
          ∧ bot_calls (since w' r'.2) = replicate 5 c'
          ∧ sleeps (since w' r'.2) = replicate 5 d')).
Proof.
  intros Hl H1 T1 H2 T2 H3 r.
  assert (Hr : r = (Return x,
                    (call_bot c
                       (after_failed_attempt
                          (after_failed_attempt w c name e1 1 5 d)
                          c name e2 2 5 d)).2)).
  { subst r. unfold TelegramNotifier._retry. change (Z.to_nat 5) with 5%nat.
    rewrite (retry_from_transient _ _ _ _ _ _ _ _ H1 T1 Hl).
    rewrite (retry_from_transient c 5 d (0 + 1) 3
               (after_failed_attempt w c name e1 (0 + 1) 5 d) e2 name);
      [|exact H2|exact T2|exact Hl].
    rewrite (retry_from_success c 5 d (0 + 1 + 1) 2 _ x); [reflexivity|exact H3]. }
  assert (Hs : since w r.2
               = [EvBot c; EvLog name WARNING (MsgRetrying e1 1 5); EvSleep d;
                  EvBot c; EvLog name WARNING (MsgRetrying e2 2 5); EvSleep d;
                  EvBot c]).
  { rewrite Hr. apply since_app. simpl. by rewrite <- !app_assoc. }
  split; [by rewrite Hr|]. split; [exact Hs|]. rewrite Hs.
  split; [reflexivity|]. split; [reflexivity|].
  intros w' c' d' r'. subst r'. unfold TelegramNotifier._retry.
  change (Z.to_nat 5) with 5%nat. split.
  - destruct (retry_from_calls c' 5 d' 5 0 w') as (k & evs & Htr & Hc & Hle & _).
    rewrite (since_app _ _ _ Htr), Hc, length_replicate. exact Hle.
  - intros [name' Hl'] Hall.
    destruct (retry_from_exhausted c' 5 d' name' 5 0 w' Hl' Hall)
      as (Hres & evs & Htr & Hc & Hsl).
    rewrite (since_app _ _ _ Htr). done.
Qed.

Lemma retry_third_attempt_succeeds_witness :
  let w := ready_world (scripted [timed_out; timed_out] ok_response) in
  let c := Bot.send_message 42 "hi" in
  logger (attr w) Telegram = Some "Telegram"
  ∧ bot_env (out w) (n_bot w) c = timed_out
  ∧ bot_env (out w) (S (n_bot w)) c = timed_out
  ∧ bot_env (out w) (S (S (n_bot w))) c = Return []
  ∧ (TelegramNotifier._retry (call_bot c) 5 3 w).1 = Return []
  ∧ sleeps (since w (TelegramNotifier._retry (call_bot c) 5 3 w).2) = [3; 3].
Proof.
  intros w c.
  destruct (retry_third_attempt_succeeds w c 3
              (mk_exn TimedOut ["Timed out"]) (mk_exn TimedOut ["Timed out"])
              [] "Telegram" eq_refl eq_refl eq_refl eq_refl eq_refl eq_refl)
    as (Hres & _ & _ & Hsleeps & _).
  split_and!; [reflexivity | reflexivity | reflexivity | reflexivity
              | exact Hres | exact Hsleeps].
Defined.

(** C9: failing runs.  The per-target send picks the call that the claim
    asks for: with no video, [send_photo] with the text as caption for
    exactly one photo, and for two or more photos one [send_media_group]
    whose first item carries the caption, whose other items carry none, and
    which holds the first photos of the list, ten at most; with videos,
    [send_video] of the first video with the text as caption.  But it makes
    each of these calls with the keyword [timeout=60], which the send
    methods do not have: the call raises a [TypeError] before any request,
    [_retry] does not catch it, and the per-target send ends with it in the
    world in which it started.  No photo, no group and no video is ever
    sent. *)
Theorem media_send_raises_TypeError (w : world) (chat : Z) (text : string) :
  is_Some (bot (attr w)) →
  let send := λ pl vl,
    TelegramNotifier._send_message_to_single_chat chat text pl vl w in
  let attempt := λ c, (TelegramNotifier._retry_call_timeout c ;; mret ()) w in
  let rejected : result () * world := (Raise (unexpected_keyword "timeout"), w) in
  (∀ p vl, Py.truthy vl = false →
     send (Some [p]) vl = attempt (Bot.send_photo chat p text)
     ∧ send (Some [p]) vl = rejected)
  ∧ (∀ p ps vl, Py.truthy vl = false → (2 ≤ length (p :: ps))%nat →
       ∃ group,
         send (Some (p :: ps)) vl = attempt (Bot.send_media_group chat group)
         ∧ group !! 0%nat = Some {| media := p; caption := Some text |}
         ∧ (length group ≤ 10)%nat
         ∧ media <$> group = take 10 (p :: ps)
         ∧ (∀ i item, (0 < i)%nat → group !! i = Some item → caption item = None)
         ∧ send (Some (p :: ps)) vl = rejected)
  ∧ (∀ v vs pl,
       send pl (Some (v :: vs)) = attempt (Bot.send_video chat v text)
       ∧ send pl (Some (v :: vs)) = rejected).
Proof.
  intros Hb send attempt rejected. subst send attempt rejected. cbv beta.
  split_and!.
  - intros p vl Hv. rewrite single_chat_photo by done.
    split; [done|]. by apply retry_call_timeout_rejected.
  - intros p [|q ps] vl Hv Hlen; [simpl in Hlen; lia|].
    exists (TelegramNotifier.media_group text p (q :: ps)).
    rewrite single_chat_group by done.
    split; [done|].
    split; [reflexivity|].
    split; [apply media_group_length|].
    split; [apply media_group_media|].
    split; [intros i item; apply media_group_captions|].
    by apply retry_call_timeout_rejected.
  - intros v vs pl. rewrite single_chat_video by done.
    split; [done|]. by apply retry_call_timeout_rejected.
Qed.

Lemma media_send_raises_TypeError_witness :
  let w := ready_world (scripted [] ok_response) in
  let send := λ pl vl,
    TelegramNotifier._send_message_to_single_chat 42 "news" pl vl w in
  is_Some (bot (attr w))
  ∧ send (Some ["a.jpg"]) None = (Raise (unexpected_keyword "timeout"), w)
  ∧ send (Some ["a.jpg"; "b.jpg"]) None = (Raise (unexpected_keyword "timeout"), w)
  ∧ send None (Some ["v.mp4"; "w.mp4"]) = (Raise (unexpected_keyword "timeout"), w)
  ∧ bot_calls (trace (send (Some ["a.jpg"]) None).2) = [].
Proof.
  intros w send.
  assert (Hb : is_Some (bot (attr w))) by (by eexists).
  destruct (media_send_raises_TypeError w 42 "news" Hb) as (Hphoto & Hgroup & Hvideo).
  destruct (Hphoto "a.jpg" None eq_refl) as [_ H1].
  destruct (Hgroup "a.jpg" ["b.jpg"] None eq_refl (le_n 2))
    as (group & _ & _ & _ & _ & _ & H2).
  destruct (Hvideo "v.mp4" ["w.mp4"] None) as [_ H3].
  split_and!; [exact Hb | exact H1 | exact H2 | exact H3 | reflexivity].
Defined.

(** C10: a failing run.  When an envelope has both a non-empty video list
    and a non-empty photo list, the per-target send takes the video branch:
    the one call that it attempts is [send_video] of the first video with
    the text as caption.  The call is made with the keyword [timeout=60] and
    raises a [TypeError] before any request, which neither [_retry] nor the
    [except BadRequest] clause of [send_message] catches: [send_message]
    ends with it at the first chat, in the world in which it started.  No
    photo and no text is sent, but the video is not sent either. *)
Theorem video_branch_raises_TypeError (w : world) (chat : Z) (chats : list Z)
    (caption : string) (p : string) (ps : list string) (v : string)
    (vs : list string) :
  initialized (attr w) Telegram = true →
  is_Some (bot (attr w)) →
  let m := {| text := caption; photo_url_list := Some (p :: ps);
              video_url_list := Some (v :: vs) |} in
  let r := TelegramNotifier._send_message_to_single_chat chat caption
             (Some (p :: ps)) (Some (v :: vs)) w in
  r = (TelegramNotifier._retry_call_timeout (Bot.send_video chat v caption) ;;
       mret ()) w
  ∧ r = (Raise (unexpected_keyword "timeout"), w)
  ∧ bot_calls (since w r.2) = []
  ∧ TelegramNotifier.send_message (TelegramMessage (chat :: chats) m) w
    = (Raise (unexpected_keyword "timeout"), w).
Proof.
  intros Hi Hb m r.
  assert (Hr : r = (Raise (unexpected_keyword "timeout"), w)).
  { subst r. rewrite single_chat_video by done.
    by apply retry_call_timeout_rejected. }
  split_and!.
  - subst r. by rewrite single_chat_video.
  - exact Hr.
  - rewrite Hr. cbn [snd]. by rewrite since_refl.
  - by apply media_envelope_rejected.
Qed.

Lemma video_branch_raises_TypeError_witness :
  let w := ready_world (scripted [] ok_response) in
  let m := {| text := "news"; photo_url_list := Some ["a.jpg"; "b.jpg"];
              video_url_list := Some ["v.mp4"] |} in
  let r := TelegramNotifier.send_message (TelegramMessage [42; 43] m) w in
  initialized (attr w) Telegram = true
  ∧ is_Some (bot (attr w))
  ∧ r.1 = Raise (unexpected_keyword "timeout")
  ∧ bot_calls (trace r.2) = [].
Proof.
  intros w m r.
  assert (Hb : is_Some (bot (attr w))) by (by eexists).
  destruct (video_branch_raises_TypeError w 42 [43] "news" "a.jpg" ["b.jpg"]
              "v.mp4" [] eq_refl Hb) as (_ & _ & _ & Hsend).
  split_and!; [reflexivity | exact Hb | exact (f_equal fst Hsend)
              | exact (f_equal (λ x, bot_calls (trace x.2)) Hsend)].
Defined.

(** ** The confirmation protocol *)

Lemma scan_passed_over T0 ids (us : list Update) :
  Forall (passed_over T0 ids) us →
  TelegramNotifier.scan_replies T0 ids us = Return None.
Proof.
  induction 1 as [|u us Hu _ IH]; [done|].
  simpl. unfold passed_over in Hu.
  destruct (message u) as [m|]; [|exact IH].
  destruct (Z.ltb_spec (date m) T0) as [Hlt|Hge]; [exact IH|].
  destruct Hu as [Hu|Hu]; [lia|].
  rewrite bool_decide_eq_false_2 by done. exact IH.
Qed.

Lemma get_new_updates_answered (w : world) (us : list Update) :
  is_Some (bot (attr w)) →
  bot_env (out w) (n_bot w) (Bot.get_updates (update_offset (attr w))) = Return us →
  ∃ w1,
    TelegramNotifier._get_new_updates w = (Return us, w1)
    ∧ out w1 = out w
    ∧ bot (attr w1) = bot (attr w)
    ∧ n_bot w1 = S (n_bot w)
    ∧ trace w1 = trace w ++ [EvBot (Bot.get_updates (update_offset (attr w)))].
Proof.
  intros Hb Hus.
  unfold TelegramNotifier._get_new_updates, TelegramNotifier._get_updates.
  rewrite bind_run. unfold get_attr at 1. cbv beta iota.
  rewrite bind_run.
  assert (Hg : (get_attr bot ≫= λ b, assert_ (bool_decide (is_Some b)) ;;
                  TelegramNotifier._retry_call
                    (Bot.get_updates (update_offset (attr w)))) w
               = (Return us,
                  (call_bot (Bot.get_updates (update_offset (attr w))) w).2)).
  { rewrite bind_run. unfold get_attr. cbv beta iota.
    rewrite bool_decide_eq_true_2 by done.
    unfold assert_. rewrite bind_run. cbv beta iota.
    unfold TelegramNotifier._retry_call, TelegramNotifier._retry.
    change (Z.to_nat 5) with 5%nat.
    by apply retry_from_success. }
  rewrite Hg. cbv beta iota. rewrite bind_run.
  destruct (last us) as [u|]; eexists; (split; [reflexivity|done]).
Qed.

Lemma confirm_loop_round (T0 : Z) (ids : list Z) (k : nat) (w w1 : world)
    (us : list Update) :
  TelegramNotifier._get_new_updates w = (Return us, w1) →
  TelegramNotifier._confirm_loop (S k) T0 ids w
  = match TelegramNotifier.scan_replies T0 ids us with
    | Return (Some b) => (Return (Some b), w1)
    | Return None => (sleep 10 ;; TelegramNotifier._confirm_loop k T0 ids) w1
    | Raise e => (Raise e, w1)
    end.
Proof.
  intros Hrun. cbn [TelegramNotifier._confirm_loop].
  rewrite (bind_return _ _ _ _ _ Hrun).
  rewrite bind_run. unfold lift_result. cbv beta iota.
  destruct (TelegramNotifier.scan_replies T0 ids us) as [[b|]|e]; reflexivity.
Qed.

Lemma scan_not_a_reply T0 ids (pre rest : list Update) :
  Forall (not_a_reply T0 ids) pre →
  TelegramNotifier.scan_replies T0 ids (pre ++ rest)
  = TelegramNotifier.scan_replies T0 ids rest.
Proof.
  induction 1 as [|u pre Hu _ IH]; [done|].
  cbn [app TelegramNotifier.scan_replies].
  destruct Hu as [Hu|(m & t & Hm & Ht & HY & HN)].
  - unfold passed_over in Hu. destruct (message u) as [m|]; [|exact IH].
    destruct (Z.ltb_spec (date m) T0) as [Hlt|Hge]; [exact IH|].
    destruct Hu as [Hu|Hu]; [lia|].
    rewrite bool_decide_eq_false_2 by done. exact IH.
  - rewrite Hm. destruct (date m <? T0); [exact IH|].
    destruct (negb (bool_decide (chat_id m ∈ ids))); [exact IH|].
    rewrite Ht. cbv zeta.
    apply String.eqb_neq in HY, HN. by rewrite HY, HN.
Qed.

(** [k] polls in a row that bring nothing but updates on which [confirm]
    does not act: the loop sleeps 10 after each and goes on. *)
Lemma confirm_loop_skips (T0 : Z) (ids : list Z) (k : nat) :
  ∀ (w : world) (rounds : nat),
    is_Some (bot (attr w)) →
    (∀ j, (j < k)%nat → ∀ offset, ∃ us,
       bot_env (out w) (n_bot w + j) (Bot.get_updates offset) = Return us
       ∧ Forall (not_a_reply T0 ids) us) →
    ∃ w' evs,
      TelegramNotifier._confirm_loop (k + rounds) T0 ids w
      = TelegramNotifier._confirm_loop rounds T0 ids w'
      ∧ out w' = out w
      ∧ is_Some (bot (attr w'))
      ∧ n_bot w' = (n_bot w + k)%nat
      ∧ trace w' = trace w ++ evs
      ∧ sleeps evs = replicate k 10
      ∧ length (bot_calls evs) = k.
Proof.
  induction k as [|k IH]; intros w rounds Hb Henv.
  - exists w, []. rewrite app_nil_r, Nat.add_0_r. by split_and!.
  - destruct (Henv O (Nat.lt_0_succ k) (update_offset (attr w)))
      as (us & Hus & Hpass).
    rewrite Nat.add_0_r in Hus.
    destruct (get_new_updates_answered w us Hb Hus)
      as (w1 & Hrun & Ho1 & Hb1 & Hn1 & Ht1).
    cbn [Nat.add]. rewrite (confirm_loop_round _ _ _ _ _ _ Hrun).
    rewrite <- (app_nil_r us), (scan_not_a_reply _ _ _ [] Hpass).
    cbn [TelegramNotifier.scan_replies].
    rewrite bind_run. unfold sleep, emit. cbv beta iota.
    match goal with
    | |- context [TelegramNotifier._confirm_loop (k + rounds) T0 ids ?w2] =>
        destruct (IH w2 rounds) as (w' & evs & Hloop & Ho & Hb' & Hn & Htr & Hs & Hc)
    end.
    + cbn [attr]. by rewrite Hb1.
    + intros j Hj offset. cbn [out n_bot]. rewrite Ho1, Hn1.
      destruct (Henv (S j) ltac:(lia) offset) as (us' & Hus' & Hpass').
      exists us'. split; [|exact Hpass'].
      rewrite <- Hus'. f_equal. lia.
    + exists w', ([EvBot (Bot.get_updates (update_offset (attr w))); EvSleep 10]
                  ++ evs).
      split_and!.
      * exact Hloop.
      * by rewrite Ho.
      * exact Hb'.
      * rewrite Hn. cbn [n_bot]. rewrite Hn1. lia.
      * rewrite Htr. cbn [trace]. rewrite Ht1. by rewrite <- !app_assoc.
      * rewrite sleeps_app, Hs. reflexivity.
      * rewrite bot_calls_app, length_app, Hc. reflexivity.
Qed.

(** [confirm] is the loop, entered once the question is out. *)
Lemma confirm_run_after_send (rounds : nat) (ids : list Z) (question : Message)
    (w w1 : world) :
  initialized (attr w) Telegram = true →
  TelegramNotifier.send_message
    (TelegramMessage ids
       {| text := text question +:+ TelegramNotifier.newline
                    +:+ "Please reply Y/N";
          photo_url_list := photo_url_list question;
          video_url_list := video_url_list question |}) w
  = (Return (), w1) →
  TelegramNotifier.confirm rounds (TelegramMessage ids question) w
  = TelegramNotifier._confirm_loop rounds
      (clock (out w1) (length (trace w1))) ids w1.
Proof.
  intros Hi Hsend. unfold TelegramNotifier.confirm.
  rewrite bind_run. unfold get_attr at 1. cbv beta iota. rewrite Hi.
  unfold assert_. rewrite bind_run. unfold mret at 1, St_ret at 1.
  cbv beta iota zeta.
  rewrite (bind_return _ _ _ _ _ Hsend).
  rewrite bind_run. reflexivity.
Qed.

(** C6: a run of [confirm] on an initialized notifier whose question has
    been sent.  The sending time is read right after the send.  An update
    is not acted upon when it has no message, when its message is dated
    strictly before the sending time, when it comes from a chat that is not
    in the target list, or when its text, stripped and upper-cased, is
    neither [Y] nor [N].  For as long as the servers answer the polls with
    such updates only, [confirm] keeps polling, with a sleep of 10 after
    each poll.  When, after [k] such polls, the next poll brings, behind
    such updates, a reply of a target that is not older than the sending
    time, [confirm] returns at that poll: [true] if the text, stripped and
    upper-cased, is [Y], and [false] if it is [N]. *)
Theorem confirm_reply_rules (w w1 : world) (ids : list Z) (question : Message)
    (k : nat) :
  initialized (attr w) Telegram = true →
  is_Some (bot (attr w)) →
  TelegramNotifier.send_message
    (TelegramMessage ids
       {| text := text question +:+ TelegramNotifier.newline
                    +:+ "Please reply Y/N";
          photo_url_list := photo_url_list question;
          video_url_list := video_url_list question |}) w
  = (Return (), w1) →
  let T0 := clock (out w1) (length (trace w1)) in
  (∀ j, (j < k)%nat → ∀ offset, ∃ us,
     bot_env (out w) (n_bot w1 + j) (Bot.get_updates offset) = Return us
     ∧ Forall (not_a_reply T0 ids) us) →
  (let r := TelegramNotifier.confirm k (TelegramMessage ids question) w in
   r.1 = Return None
   ∧ sleeps (since w1 r.2) = replicate k 10
   ∧ length (bot_calls (since w1 r.2)) = k)
  ∧ (∀ pre u post m t rounds,
       (∀ offset,
          bot_env (out w) (n_bot w1 + k) (Bot.get_updates offset)
          = Return (pre ++ u :: post)) →
       Forall (not_a_reply T0 ids) pre →
       message u = Some m → T0 ≤ date m → chat_id m ∈ ids →
       inbound_text m = Some t →
       let r := TelegramNotifier.confirm (k + S rounds)
                  (TelegramMessage ids question) w in
       (Py.upper (Py.strip t) = "Y" → r.1 = Return (Some true))
       ∧ (Py.upper (Py.strip t) = "N" → r.1 = Return (Some false))
       ∧ (Py.upper (Py.strip t) = "Y" ∨ Py.upper (Py.strip t) = "N" →
          sleeps (since w1 r.2) = replicate k 10
          ∧ length (bot_calls (since w1 r.2)) = S k)).
Proof.
  intros Hi Hb Hsend T0 Henv.
  destruct (quiet_send_message Telegram
              (TelegramMessage ids
                 {| text := text question +:+ TelegramNotifier.newline
                              +:+ "Please reply Y/N";
                    photo_url_list := photo_url_list question;
                    video_url_list := video_url_list question |}) w)
    as (evs0 & _ & _ & Ha1 & Ho1).
  cbn [NotifierBase.send_message] in Ha1, Ho1.
  rewrite Hsend in Ha1, Ho1. cbn [snd] in Ha1, Ho1.
  assert (Hb1 : is_Some (bot (attr w1))) by (by rewrite Ha1).
  rewrite <- Ho1 in Henv.
  split.
  - intros r. subst r. rewrite (confirm_run_after_send _ _ _ _ _ Hi Hsend).
    fold T0.
    destruct (confirm_loop_skips T0 ids k w1 O Hb1 Henv)
      as (w' & evs & Hloop & _ & _ & _ & Htr & Hs & Hc).
    rewrite Nat.add_0_r in Hloop.
    rewrite Hloop. cbn [TelegramNotifier._confirm_loop].
    change ((mret None : M (option bool)) w') with (Return (@None bool), w').
    cbn [fst snd]. rewrite (since_app _ _ _ Htr). by split_and!.
  - intros pre u post m t rounds Hreply Hpre Hm Hge Hin Ht r. subst r.
    rewrite (confirm_run_after_send _ _ _ _ _ Hi Hsend). fold T0.
    destruct (confirm_loop_skips T0 ids k w1 (S rounds) Hb1 Henv)
      as (w' & evs & Hloop & Ho' & Hb' & Hn' & Htr & Hs & Hc).
    rewrite Hloop.
    specialize (Hreply (update_offset (attr w'))).
    rewrite <- Ho1, <- Ho', <- Hn' in Hreply.
    destruct (get_new_updates_answered w' _ Hb' Hreply)
      as (w2 & Hrun & _ & _ & _ & Ht2).
    rewrite (confirm_loop_round _ _ _ _ _ _ Hrun).
    rewrite (scan_not_a_reply _ _ _ _ Hpre).
    cbn [TelegramNotifier.scan_replies]. rewrite Hm.
    destruct (Z.ltb_spec (date m) T0); [lia|].
    rewrite bool_decide_eq_true_2 by done. cbn [negb]. rewrite Ht. cbv zeta.
    assert (Hsince : since w1 w2
                     = evs ++ [EvBot (Bot.get_updates (update_offset (attr w')))]).
    { apply since_app. rewrite Ht2, Htr. by rewrite <- app_assoc. }
    split_and!.
    + intros ->. reflexivity.
    + intros ->. reflexivity.
    + intros [-> | ->]; cbn [String.eqb Ascii.eqb Bool.eqb fst snd];
        rewrite Hsince, sleeps_app, bot_calls_app, length_app, Hs, Hc;
        (split; [by rewrite app_nil_r | cbn; lia]).
Qed.

Lemma confirm_reply_rules_witness :
  let nbsp := String (Ascii.ascii_of_nat 194)
                (String (Ascii.ascii_of_nat 160) EmptyString) in
  let says (id chat date : Z) (t : string) :=
    {| update_id := id;
       message := Some {| date := date; chat_id := chat; inbound_text := Some t |} |} in
  let o := scripted [Return [];
                     Return [says 1 7 0 "y"; says 2 8 5 "y"; says 3 7 6 "maybe"];
                     Return [says 4 7 30 (nbsp +:+ "n "); says 5 7 31 "y"]]
             ok_response in
  let w := ready_world o in
  let r := TelegramNotifier.confirm 3 (TelegramMessage [7] (plain "Exit?")) w in
  initialized (attr w) Telegram = true
  ∧ is_Some (bot (attr w))
  ∧ Py.upper (Py.strip (nbsp +:+ "n ")) = "N"
  ∧ r.1 = Return (Some false)
  ∧ bot_calls (trace r.2)
    = [Bot.send_message 7 ("Exit?" +:+ TelegramNotifier.newline +:+ "Please reply Y/N");
       Bot.get_updates None; Bot.get_updates (Some 4)]
  ∧ sleeps (trace r.2) = [10].
Proof.
  intros nbsp says o w r.
  assert (Hb : is_Some (bot (attr w))) by (by eexists).
  set (w1 := (TelegramNotifier.send_message
                (TelegramMessage [7]
                   {| text := "Exit?" +:+ TelegramNotifier.newline
                                +:+ "Please reply Y/N";
                      photo_url_list := None; video_url_list := None |}) w).2).
  assert (Hsend : TelegramNotifier.send_message
                    (TelegramMessage [7]
                       {| text := text (plain "Exit?") +:+ TelegramNotifier.newline
                                    +:+ "Please reply Y/N";
                          photo_url_list := photo_url_list (plain "Exit?");
                          video_url_list := video_url_list (plain "Exit?") |}) w
                  = (Return (), w1)) by reflexivity.
  assert (Henv : ∀ j, (j < 1)%nat → ∀ offset, ∃ us,
            bot_env (out w) (n_bot w1 + j) (Bot.get_updates offset) = Return us
            ∧ Forall (not_a_reply (clock (out w1) (length (trace w1))) [7]) us).
  { intros j Hj offset. replace j with O by lia.
    exists [says 1 7 0 "y"; says 2 8 5 "y"; says 3 7 6 "maybe"].
    split; [reflexivity|].
    constructor; [|constructor; [|constructor; [|constructor]]].
    - left. unfold passed_over. cbn [message says]. left. reflexivity.
    - left. unfold passed_over. cbn [message says]. right.
      intros Hin. apply list_elem_of_singleton in Hin. done.
    - right. eexists _, "maybe". split_and!; [reflexivity|reflexivity|done|done]. }
  destruct (confirm_reply_rules w w1 [7] (plain "Exit?") 1 eq_refl Hb Hsend Henv)
    as [_ Hreply].
  destruct (Hreply [] (says 4 7 30 (nbsp +:+ "n ")) [says 5 7 31 "y"]
              {| date := 30; chat_id := 7; inbound_text := Some (nbsp +:+ "n ") |}
              (nbsp +:+ "n ") 1%nat)
    as (_ & HN & _).
  - intros offset. reflexivity.
  - constructor.
  - reflexivity.
  - vm_compute. discriminate.
  - apply list_elem_of_here.
  - reflexivity.
  - split_and!; [reflexivity | exact Hb | reflexivity | exact (HN eq_refl)
                | reflexivity | reflexivity].
Defined.

(** ** The Cqhttp adapter *)

Lemma posted_nil (w : world) : posted w [] = w.
Proof.
  destruct w. unfold posted. simpl. rewrite app_nil_r, Nat.add_0_r. reflexivity.
Qed.

Lemma posted_cons (w : world) r reqs :
  posted w (r :: reqs) = posted (posted w [r]) reqs.
Proof.
  unfold posted. simpl. rewrite <- app_assoc. f_equal. lia.
Qed.

Lemma posted_app (w : world) reqs1 reqs2 :
  posted w (reqs1 ++ reqs2) = posted (posted w reqs1) reqs2.
Proof.
  unfold posted. simpl. rewrite fmap_app, app_assoc, length_app. f_equal. lia.
Qed.

Lemma posted_cons_app (w : world) r reqs1 reqs2 :
  posted w (r :: reqs1 ++ reqs2) = posted (posted (posted w [r]) reqs1) reqs2.
Proof. by rewrite (posted_cons w r (reqs1 ++ reqs2)), posted_app. Qed.

Lemma cq_post_accepted (w : world) (url data : string) :
  gateway_accepts (out w) →
  CqhttpNotifier._post url data w = (Return (), posted w [cq_request w url data]).
Proof.
  intros Hok. destruct (Hok (n_http w) (cq_request w url data)) as (resp & Hr & Hs & Hj).
  unfold CqhttpNotifier._post. rewrite bind_run. unfold get_attr. cbv beta iota.
  rewrite bind_run. unfold session_post. fold (cq_request w url data).
  rewrite Hr. cbv beta iota. rewrite Hs.
  change (negb (200 =? 200)) with false. cbv iota.
  rewrite bind_run. unfold lift_result. rewrite Hj. cbv beta iota.
  rewrite bool_decide_eq_true_2 by done.
  change (negb true) with false. cbv iota.
  unfold mret, St_ret, posted. simpl. do 2 f_equal. lia.
Qed.

Lemma cq_for_accepted (w : world) (url : string) (token : string → string)
    (l : list string) :
  gateway_accepts (out w) →
  for_ l (λ x, CqhttpNotifier._post url (token x)) w
  = (Return (), posted w ((λ x, cq_request w url (token x)) <$> l)).
Proof.
  intros Hok. revert w Hok. induction l as [|x l IH]; intros w Hok.
  - simpl. by rewrite posted_nil.
  - cbn [for_]. rewrite bind_run, (cq_post_accepted _ _ _ Hok).
    cbv beta iota. rewrite IH by exact Hok.
    rewrite fmap_cons.
    rewrite (posted_cons w (cq_request w url (token x))
               ((λ x, cq_request w url (token x)) <$> l)).
    reflexivity.
Qed.

(** One target whose gateway accepts every POST: the text with every
    [https://] and [http://] removed, then one image token per photo and
    one video token per video, each around the URL as it stands. *)
Lemma cqhttp_target_posts (w : world) (url : string) (m : Message) :
  initialized (attr w) Cqhttp = true →
  gateway_accepts (out w) →
  CqhttpNotifier.send_message (CqhttpMessage [url] m) w
  = (Return (),
     posted w
       (cq_request w url (_remove_http (text m))
          :: ((λ p, cq_request w url ("[CQ:image,file=" +:+ p +:+ "]"))
                <$> Py.items (photo_url_list m))
          ++ ((λ v, cq_request w url ("[CQ:video,file=" +:+ v +:+ "]"))
                <$> Py.items (video_url_list m)))).
Proof.
  intros Hi Hok.
  unfold CqhttpNotifier.send_message.
  rewrite bind_run. unfold get_attr at 1. cbv beta iota. rewrite Hi.
  unfold assert_. rewrite bind_run. unfold mret at 1, St_ret at 1.
  cbv beta iota. cbn [for_]. rewrite bind_run.
  set (pl := Py.items (photo_url_list m)).
  set (vl := Py.items (video_url_list m)).
  assert (Hbody :
    (CqhttpNotifier._send_text url (text m) ;;
     (if Py.truthy (photo_url_list m)
      then for_ pl (CqhttpNotifier._send_photo url) else mret ()) ;;
     (if Py.truthy (video_url_list m)
      then for_ vl (CqhttpNotifier._send_video url) else mret ())) w
    = (Return (),
       posted w
         (cq_request w url (_remove_http (text m))
            :: ((λ p, cq_request w url ("[CQ:image,file=" +:+ p +:+ "]")) <$> pl)
            ++ ((λ v, cq_request w url ("[CQ:video,file=" +:+ v +:+ "]")) <$> vl)))).
  { rewrite bind_run. unfold CqhttpNotifier._send_text.
    rewrite (cq_post_accepted _ _ _ Hok). cbv beta iota.
    rewrite posted_cons_app.
    set (w1 := posted w [cq_request w url (_remove_http (text m))]).
    assert (Hok1 : gateway_accepts (out w1)) by exact Hok.
    rewrite bind_run.
    assert (Hp : (if Py.truthy (photo_url_list m)
                  then for_ pl (CqhttpNotifier._send_photo url) else mret ()) w1
                 = (Return (),
                    posted w1 ((λ p, cq_request w url
                                        ("[CQ:image,file=" +:+ p +:+ "]")) <$> pl))).
    { destruct (photo_url_list m) as [[|p ps]|] eqn:Hpl; subst pl; simpl Py.truthy;
        cbv iota.
      - simpl. by rewrite posted_nil.
      - apply (cq_for_accepted w1 url (λ p, "[CQ:image,file=" +:+ p +:+ "]")), Hok1.
      - simpl. by rewrite posted_nil. }
    rewrite Hp. cbv beta iota.
    set (w2 := posted w1 _).
    assert (Hok2 : gateway_accepts (out w2)) by exact Hok.
    destruct (video_url_list m) as [[|v vs]|] eqn:Hvl; subst vl; simpl Py.truthy;
      cbv iota.
    - simpl. by rewrite posted_nil.
    - apply (cq_for_accepted w2 url (λ v, "[CQ:video,file=" +:+ v +:+ "]")), Hok2.
    - simpl. by rewrite posted_nil. }
  rewrite (try_return _ _ _ _ _ _ Hbody). reflexivity.
Qed.

(** C7, as stated, fails: for the envelope of the scenario and target [7],
    on a gateway that accepts every POST, the messages posted are not
    [hello] followed by image tokens around [x/1.jpg] and [x/2.jpg]. *)
Lemma cqhttp_photo_urls_not_stripped :
  let w := ready_world (scripted [] ok_response) in
  let r := CqhttpNotifier.send_message (hello_envelope "7") w in
  body <$> posts (since w r.2)
  ≠ [FormMessage "hello"; FormMessage "[CQ:image,file=x/1.jpg]";
     FormMessage "[CQ:image,file=x/2.jpg]"].
Proof. vm_compute. intros H. discriminate H. Qed.

(** C7, amended: for the envelope of the scenario and one target whose
    gateway accepts every POST, [send_message] returns after exactly three
    POSTs to that target, in this order: the message [hello], then the image
    token around [http://x/1.jpg], then the image token around
    [http://x/2.jpg].  The photo URLs are embedded as they stand; only the
    text goes through [_remove_http]. *)
Theorem cqhttp_hello_two_photos (w : world) (target : string) :
  initialized (attr w) Cqhttp = true →
  gateway_accepts (out w) →
  let r := CqhttpNotifier.send_message (hello_envelope target) w in
  r.1 = Return ()
  ∧ since w r.2
    = EvPost <$> [cq_request w target "hello";
                  cq_request w target "[CQ:image,file=http://x/1.jpg]";
                  cq_request w target "[CQ:image,file=http://x/2.jpg]"].
Proof.
  intros Hi Hok r. subst r. unfold hello_envelope.
  rewrite (cqhttp_target_posts w target _ Hi Hok).
  split; [reflexivity|]. apply since_app. reflexivity.
Qed.

Lemma cqhttp_hello_two_photos_witness :
  let w := ready_world (scripted [] ok_response) in
  initialized (attr w) Cqhttp = true
  ∧ gateway_accepts (out w)
  ∧ body <$> posts (since w (CqhttpNotifier.send_message (hello_envelope "7") w).2)
    = [FormMessage "hello"; FormMessage "[CQ:image,file=http://x/1.jpg]";
       FormMessage "[CQ:image,file=http://x/2.jpg]"].
Proof.
  intros w.
  assert (Hok : gateway_accepts (out w)).
  { intros n r. exists ok_response. done. }
  destruct (cqhttp_hello_two_photos w "7" eq_refl Hok) as [_ Hs].
  split_and!; [reflexivity | exact Hok |].
  rewrite Hs. reflexivity.
Defined.

(** ** The worker loop *)

Lemma deliveries_adapter (evs : list event) :
  Forall (λ ev, adapter_event ev = true) evs → deliveries evs = [].
Proof.
  induction 1 as [|ev evs Hev _ IH]; [done|].
  unfold deliveries in *. destruct ev; try done; simpl; exact IH.
Qed.

Lemma no_status_adapter (evs : list event) name b :
  Forall (λ ev, adapter_event ev = true) evs → EvStatus name b ∉ evs.
Proof.
  intros Hall Hin. rewrite Forall_forall in Hall. by apply Hall in Hin.
Qed.

Lemma work_iteration_returns cls message s w1 :
  NotifierBase.send_message cls message (at_delivery s cls message)
  = (Return (), w1) →
  NotifierBase._work_iteration cls message s
  = (Return (),
     {| the_world := appended w1 [EvStatus (notifier_name cls) true];
        message_queue := message_queue s;
        waiters := waiters s;
        notifier_status :=
          <[notifier_name cls := true]>
            (<[notifier_name cls := false]> (notifier_status s)) |}).
Proof.
  intros Hsend. unfold at_delivery, appended in Hsend.
  unfold NotifierBase._work_iteration, try_except, mbind, St_bind,
    StatusTracker.set_notifier_status, lift, emit.
  cbn -[NotifierBase.send_message app insert isinstance].
  rewrite <- !app_assoc. cbn [app]. rewrite Hsend. reflexivity.
Qed.

Lemma work_iteration_raises cls message s e w1 :
  NotifierBase.send_message cls message (at_delivery s cls message)
  = (Raise e, w1) →
  NotifierBase._work_iteration cls message s
  = (Return (),
     {| the_world := appended w1 (fault_report w1 cls e);
        message_queue := message_queue s;
        waiters := waiters s;
        notifier_status := <[notifier_name cls := false]> (notifier_status s) |}).
Proof.
  intros Hsend. unfold at_delivery, appended in Hsend.
  unfold NotifierBase._work_iteration, try_except, mbind, St_bind,
    StatusTracker.set_notifier_status, lift, emit.
  cbn -[NotifierBase.send_message app insert isinstance].
  rewrite <- !app_assoc. cbn [app]. rewrite Hsend.
  cbn -[app insert isinstance]. rewrite isinstance_Exception.
  unfold fault_report, appended, log, get_attr, emit, mbind, St_bind.
  destruct (logger (attr w1) cls) as [name|] eqn:Hl.
  - rewrite bool_decide_eq_true_2 by done.
    cbn -[app insert]. rewrite Hl. cbn -[app insert].
    rewrite <- app_assoc. reflexivity.
  - rewrite bool_decide_eq_false_2 by (by intros [? ?]).
    reflexivity.
Qed.

Lemma base_init_run (cls : notifier) (s : system) :
  ∃ w',
    NotifierBase.init cls s
    = (Return (),
       {| the_world := w'; message_queue := message_queue s;
          waiters := waiters s ++ [cls];
          notifier_status := <[notifier_name cls := true]> (notifier_status s) |})
    ∧ initialized (attr w') cls = true
    ∧ trace w' = trace (the_world s) ++ [EvStatus (notifier_name cls) true].
Proof.
  unfold NotifierBase.init, NotifierBase.create_worker, check_initialized,
    NotifierBase.set_initialized, StatusTracker.set_notifier_status,
    mbind, St_bind, lift, emit, get_attr, set_attrs.
  cbn -[app insert decide]. 
  destruct (decide (cls = cls)) as [_|Hne]; [|done].
  eexists. split; [reflexivity|]. cbn -[app decide].
  by destruct (decide (cls = cls)).
Qed.

Lemma ends_healthy_base (cls : notifier) :
  ends_healthy (notifier_name cls) (NotifierBase.init cls).
Proof.
  intros s _. destruct (base_init_run cls s) as (w' & -> & _).
  simpl. apply lookup_insert_eq.
Qed.

Lemma ends_healthy_bind {A} name (m : Sys A) (f : A → Sys ()) :
  (∀ a, ends_healthy name (f a)) → ends_healthy name (m ≫= f).
Proof.
  intros Hf s. rewrite bind_run.
  destruct (m s) as [[a|e] s1]; [apply Hf | done].
Qed.

Lemma init_ends_healthy (cls : notifier) (token logger_name : string) :
  ends_healthy (notifier_name cls) (init_of cls token logger_name).
Proof.
  destruct cls; simpl;
    unfold TelegramNotifier_init, DiscordNotifier_init, CqhttpNotifier_init;
    repeat first
      [ apply (ends_healthy_base Telegram)
      | apply (ends_healthy_base Discord)
      | apply (ends_healthy_base Cqhttp)
      | apply ends_healthy_bind; intros ].
Qed.

(** One turn of the worker, whatever [send_message] does: the turn
    returns, the queue and the waiting workers are untouched, and the trace
    grows by the write of [False], the delivery mark, adapter events, and
    either the write of [True] or the report of the fault. *)
Lemma work_iteration_effect cls message s :
  ∃ s' evs,
    NotifierBase._work_iteration cls message s = (Return (), s')
    ∧ message_queue s' = message_queue s
    ∧ waiters s' = waiters s
    ∧ trace (the_world s') = trace (the_world s) ++ evs
    ∧ deliveries evs = [(cls, message)].
Proof.
  destruct (quiet_send_message cls message (at_delivery s cls message))
    as (evs & Htr & Hall & _ & _).
  destruct (NotifierBase.send_message cls message (at_delivery s cls message))
    as [[[]|e] w1] eqn:Hsend; simpl in Htr.
  - rewrite (work_iteration_returns _ _ _ _ Hsend).
    eexists _, ([EvStatus (notifier_name cls) false; EvDeliver cls message]
                ++ evs ++ [EvStatus (notifier_name cls) true]).
    split; [reflexivity|]. simpl. rewrite Htr. simpl.
    split_and!; try done.
    + by rewrite <- !app_assoc.
    + unfold deliveries. simpl. fold (deliveries (evs ++ [EvStatus (notifier_name cls) true])).
      by rewrite deliveries_app, (deliveries_adapter _ Hall).
  - rewrite (work_iteration_raises _ _ _ _ _ Hsend).
    eexists _, ([EvStatus (notifier_name cls) false; EvDeliver cls message]
                ++ evs ++ fault_report w1 cls e).
    split; [reflexivity|]. simpl. rewrite Htr. simpl.
    split_and!; try done.
    + by rewrite <- !app_assoc.
    + unfold deliveries. simpl. fold (deliveries (evs ++ fault_report w1 cls e)).
      rewrite deliveries_app, (deliveries_adapter _ Hall).
      unfold fault_report. by destruct (logger (attr w1) cls).
Qed.

Lemma dispatch_step (s : system) cls ws message q :
  waiters s = cls :: ws → message_queue s = message :: q →
  ∃ s' evs,
    NotifierBase.dispatch s = Some s'
    ∧ message_queue s' = q
    ∧ waiters s' = ws ++ [cls]
    ∧ trace (the_world s') = trace (the_world s) ++ evs
    ∧ deliveries evs = [(cls, message)].
Proof.
  intros Hw Hq. unfold NotifierBase.dispatch. rewrite Hw, Hq.
  match goal with
  | |- context [NotifierBase._work_iteration cls message ?s1] =>
      destruct (work_iteration_effect cls message s1)
        as (s' & evs & -> & Hq' & Hw' & Htr & Hd)
  end.
  simpl in *. eexists _, evs. split; [reflexivity|]. simpl.
  by rewrite Hq', Hw', Htr.
Qed.

(** With at least one worker waiting, as many steps as there are queued
    envelopes empty the queue: each envelope is handed, in queue order, to
    one call of [send_message], and no worker is lost on the way. *)
Lemma run_workers_drains (q : list envelope) :
  ∀ s : system,
    message_queue s = q → waiters s ≠ [] →
    let s' := NotifierBase.run_workers (length q) s in
    message_queue s' = []
    ∧ waiters s' ≡ₚ waiters s
    ∧ ∃ evs, trace (the_world s') = trace (the_world s) ++ evs
             ∧ (deliveries evs).*2 = q.
Proof.
  induction q as [|message q IH]; intros s Hq Hw s'.
  - subst s'. simpl. split_and!; [done..|]. exists []. by rewrite app_nil_r.
  - destruct (waiters s) as [|cls ws] eqn:Hws; [done|].
    destruct (dispatch_step s cls ws message q Hws Hq)
      as (s1 & evs & Hd & Hq1 & Hw1 & Htr1 & Hdel1).
    subst s'. cbn [length NotifierBase.run_workers]. rewrite Hd.
    destruct (IH s1 Hq1) as (Hq' & Hw' & evs' & Htr' & Hdel').
    { rewrite Hw1. by destruct ws. }
    split_and!; [exact Hq'| |].
    + rewrite Hw', Hw1. by rewrite Permutation_app_comm.
    + exists (evs ++ evs'). rewrite Htr', Htr1, app_assoc.
      split; [done|]. by rewrite deliveries_app, fmap_app, Hdel1, Hdel'.
Qed.

(** A process with a single notifier: its worker receives every queued
    envelope, one after the other, in queue order. *)
Lemma single_worker_in_order (cls : notifier) (q : list envelope) :
  ∀ s : system,
    message_queue s = q → waiters s = [cls] →
    let s' := NotifierBase.run_workers (length q) s in
    waiters s' = [cls]
    ∧ ∃ evs, trace (the_world s') = trace (the_world s) ++ evs
             ∧ deliveries evs = (λ message, (cls, message)) <$> q.
Proof.
  induction q as [|message q IH]; intros s Hq Hw s'.
  - subst s'. simpl. split; [done|]. exists []. by rewrite app_nil_r.
  - destruct (dispatch_step s cls [] message q Hw Hq)
      as (s1 & evs & Hd & Hq1 & Hw1 & Htr1 & Hdel1).
    subst s'. cbn [length NotifierBase.run_workers]. rewrite Hd.
    destruct (IH s1 Hq1 Hw1) as (Hw' & evs' & Htr' & Hdel').
    split; [exact Hw'|].
    exists (evs ++ evs'). rewrite Htr', Htr1, app_assoc.
    split; [done|]. by rewrite deliveries_app, Hdel1, Hdel', fmap_cons.
Qed.

(** ** The claims on the worker *)

(** C3, as stated, fails: a Telegram worker dequeues an envelope whose
    delivery meets five timeouts in a row; [send_message] raises, and the
    registry entry, [True] after [init], is left at [False], not reset to
    [True]. *)
Lemma status_stays_false_after_fault :
  let s := telegram_started
             (scripted (Return [] :: replicate 5 timed_out) ok_response) in
  let message := TelegramMessage [42] (plain "news") in
  notifier_status s !! "Telegram" = Some true
  ∧ (NotifierBase.send_message Telegram message
       (at_delivery s Telegram message)).1
    = Raise (mk_exn RuntimeError ["Max retries exceeded."])
  ∧ notifier_status (NotifierBase._work_iteration Telegram message s).2
      !! "Telegram" ≠ Some true.
Proof. split_and!; [by vm_compute..|]. vm_compute. discriminate. Qed.

(** C3, amended: the registry entry of a notifier is [True] right after
    its [init]; for every envelope that its worker dequeues, the worker
    writes [False], then calls [send_message], during which the entry is not
    written; when [send_message] returns normally the worker writes [True];
    when [send_message] raises, the worker reports the fault and the entry
    stays [False]. *)
Theorem status_around_delivery (cls : notifier) (message : envelope)
    (s : system) :
  let name := notifier_name cls in
  let called := at_delivery s cls message in
  let r := NotifierBase.send_message cls message called in
  let s' := (NotifierBase._work_iteration cls message s).2 in
  (∀ token logger_name s0,
     (init_of cls token logger_name s0).1 = Return () →
     notifier_status (init_of cls token logger_name s0).2 !! name = Some true)
  ∧ since (the_world s) called = [EvStatus name false; EvDeliver cls message]
  ∧ (∃ evs, trace r.2 = trace called ++ evs
            ∧ ∀ name' b, EvStatus name' b ∉ evs)
  ∧ (r.1 = Return () →
     since r.2 (the_world s') = [EvStatus name true]
     ∧ notifier_status s' !! name = Some true)
  ∧ (∀ e, r.1 = Raise e →
     since r.2 (the_world s') = fault_report r.2 cls e
     ∧ (∀ name' b, EvStatus name' b ∉ since r.2 (the_world s'))
     ∧ notifier_status s' !! name = Some false).
Proof.
  intros name called r s'. split_and!.
  - intros token logger_name. apply init_ends_healthy.
  - by apply since_app.
  - destruct (quiet_send_message cls message called) as (evs & Htr & Hall & _).
    exists evs. split; [exact Htr|].
    intros name' b. by apply no_status_adapter.
  - intros Hr. subst r s'.
    destruct (NotifierBase.send_message cls message called) as [[[]|e] w1] eqn:Hs;
      [|done].
    rewrite (work_iteration_returns _ _ _ _ Hs). simpl.
    split; [by apply since_app|]. apply lookup_insert_eq.
  - intros e Hr. subst r s'.
    destruct (NotifierBase.send_message cls message called) as [[[]|e'] w1] eqn:Hs;
      [done|].
    simpl in Hr. injection Hr as ->.
    rewrite (work_iteration_raises _ _ _ _ _ Hs). simpl.
    assert (Hsince : since w1 (appended w1 (fault_report w1 cls e))
                     = fault_report w1 cls e) by (by apply since_app).
    rewrite Hsince. split_and!; [done| |apply lookup_insert_eq].
    intros name' b. unfold fault_report.
    destruct (logger (attr w1) cls); intros Hin;
      repeat (apply elem_of_cons in Hin as [Hin|Hin]; [done|]);
      by apply elem_of_nil in Hin.
Qed.

Lemma status_around_delivery_witness :
  let s := telegram_started (scripted [] ok_response) in
  let message := TelegramMessage [42] (plain "news") in
  (NotifierBase.send_message Telegram message
     (at_delivery s Telegram message)).1 = Return ()
  ∧ notifier_status (NotifierBase._work_iteration Telegram message s).2
      !! "Telegram" = Some true.
Proof.
  intros s message.
  destruct (status_around_delivery Telegram message s) as (_ & _ & _ & Hok & _).
  assert (Hr : (NotifierBase.send_message Telegram message
                  (at_delivery s Telegram message)).1 = Return ())
    by (by vm_compute).
  split; [exact Hr|]. by apply Hok.
Defined.

(** C8: whatever [send_message] raises is caught inside the turn of the
    loop: the turn returns, the fault is printed and, when the class has a
    logger, logged, and the queue and the workers are as they were.  So a
    process with a worker waiting empties its queue whatever faults the
    deliveries meet: every queued envelope is handed to [send_message], in
    queue order, and every worker is still there at the end. *)
Theorem worker_survives_faults (s : system) :
  waiters s ≠ [] →
  let s' := NotifierBase.run_workers (length (message_queue s)) s in
  (∀ cls message s0, (NotifierBase._work_iteration cls message s0).1 = Return ())
  ∧ (∀ cls message s0 e w1,
       NotifierBase.send_message cls message (at_delivery s0 cls message)
       = (Raise e, w1) →
       let s1 := (NotifierBase._work_iteration cls message s0).2 in
       since w1 (the_world s1) = fault_report w1 cls e
       ∧ EvPrint e ∈ since w1 (the_world s1)
       ∧ (∀ name, logger (attr w1) cls = Some name →
                  EvLog name ERROR (MsgExn e) ∈ since w1 (the_world s1))
       ∧ message_queue s1 = message_queue s0
       ∧ waiters s1 = waiters s0)
  ∧ message_queue s' = []
  ∧ waiters s' ≡ₚ waiters s
  ∧ (deliveries (since (the_world s) (the_world s'))).*2 = message_queue s.
Proof.
  intros Hw s'. split_and!.
  - intros cls message s0.
    by destruct (work_iteration_effect cls message s0) as (s1 & evs & -> & _).
  - intros cls message s0 e w1 Hsend s1. subst s1.
    rewrite (work_iteration_raises _ _ _ _ _ Hsend). simpl.
    assert (Hsince : since w1 (appended w1 (fault_report w1 cls e))
                     = fault_report w1 cls e) by (by apply since_app).
    rewrite Hsince. unfold fault_report. split_and!; try done.
    + apply list_elem_of_here.
    + intros name ->. apply list_elem_of_further, list_elem_of_here.
  - by destruct (run_workers_drains (message_queue s) s eq_refl Hw) as (? & _).
  - by destruct (run_workers_drains (message_queue s) s eq_refl Hw) as (_ & ? & _).
  - destruct (run_workers_drains (message_queue s) s eq_refl Hw)
      as (_ & _ & evs & Htr & Hdel).
    subst s'. by rewrite (since_app _ _ _ Htr).
Qed.

Lemma worker_survives_faults_witness :
  let s0 := telegram_started
              (scripted (Return [] :: replicate 5 timed_out) ok_response) in
  let first := TelegramMessage [42] (plain "lost") in
  let second := TelegramMessage [42] (plain "kept") in
  let s := (for_ [first; second]
              (NotifierBase.put_message_into_queue Telegram) s0).2 in
  let s' := NotifierBase.run_workers 2 s in
  waiters s ≠ []
  ∧ message_queue s = [first; second]
  ∧ (deliveries (since (the_world s) (the_world s'))).*2 = [first; second]
  ∧ bot_calls (since (the_world s) (the_world s'))
    = replicate 5 (Bot.send_message 42 "lost") ++ [Bot.send_message 42 "kept"].
Proof.
  intros s0 first second s s'.
  assert (Hw : waiters s ≠ []) by (by vm_compute).
  destruct (worker_survives_faults s Hw) as (_ & _ & _ & _ & Hdel).
  split_and!; [exact Hw | by vm_compute | exact Hdel | by vm_compute].
Defined.

(** C1: a failing run.  [TelegramNotifier] and [DiscordNotifier] are both
    initialized, in this order, and one envelope is enqueued through
    [DiscordNotifier.put_message_into_queue].  The queue is the one of
    [NotifierBase], so the worker of [TelegramNotifier], which waits first,
    receives the envelope: [TelegramNotifier.send_message] is called with a
    [DiscordMessage] and fails its [isinstance] assertion, nothing is posted
    to the webhook, and the worker of [DiscordNotifier] calls
    [send_message] zero times. *)
Theorem shared_queue_misroutes :
  let s0 := two_notifiers (scripted [] no_content) in
  let message := DiscordMessage ["https://discord.example/hook"] (plain "hi") in
  let s1 := (NotifierBase.put_message_into_queue Discord message s0).2 in
  let s2 := NotifierBase.run_workers 3 s1 in
  waiters s0 = [Telegram; Discord]
  ∧ message_queue s1 = [message]
  ∧ message_queue s2 = []
  ∧ deliveries (since (the_world s1) (the_world s2)) = [(Telegram, message)]
  ∧ posts (since (the_world s1) (the_world s2)) = []
  ∧ EvPrint (mk_exn AssertionError []) ∈ since (the_world s1) (the_world s2)
  ∧ NotifierBase.dispatch s2 = None.
Proof.
  split_and!; try (by vm_compute).
  vm_compute. apply list_elem_of_further, list_elem_of_further, list_elem_of_here.
Qed.

(** ** Fan-out to several targets *)

(** A [try ... except Exception] whose handler only logs, on a class that
    has a logger, always returns. *)
Lemma guarded_returns (cls : notifier) (body : M ()) (msg : exn → log_msg)
    (w : world) :
  quiet body → is_Some (logger (attr w) cls) →
  ∃ w' evs,
    try_except body [Exception] (λ e, log cls ERROR (msg e)) w = (Return (), w')
    ∧ trace w' = trace (body w).2 ++ evs
    ∧ attr w' = attr w.
Proof.
  intros Hq [name Hl]. destruct (Hq w) as (evs & Htr & _ & Ha & _).
  unfold try_except. destruct (body w) as [[[]|e] w1]; cbn [fst snd] in *.
  - exists w1, []. by rewrite app_nil_r.
  - rewrite isinstance_Exception. unfold log, get_attr, mbind, St_bind.
    rewrite Ha, Hl. eexists _, [_]. split; [reflexivity|]. simpl. done.
Qed.

(** A loop over the targets whose every turn, on class attributes that
    satisfy [P], returns, keeps the class attributes and starts with the
    event [first target]: the loop returns and the first event of every
    target is in the trace. *)
Lemma every_target_attempted (P : attrs → Prop) (turn : string → M ())
    (first : string → event) (targets : list string) :
  (∀ target w, P (attr w) →
     ∃ w' evs, turn target w = (Return (), w')
               ∧ trace w' = trace w ++ first target :: evs
               ∧ attr w' = attr w) →
  ∀ w, P (attr w) →
    ∃ w' evs, for_ targets turn w = (Return (), w')
              ∧ trace w' = trace w ++ evs
              ∧ attr w' = attr w
              ∧ ∀ target, target ∈ targets → first target ∈ evs.
Proof.
  intros Hturn. induction targets as [|t ts IH]; intros w Hl.
  - exists w, []. simpl. rewrite app_nil_r. split_and!; try done.
    intros target Hin. by apply elem_of_nil in Hin.
  - destruct (Hturn t w Hl) as (w1 & evs1 & Hrun & Htr1 & Ha1).
    destruct (IH w1) as (w2 & evs2 & Hrun2 & Htr2 & Ha2 & Hall).
    { by rewrite Ha1. }
    exists w2, ((first t :: evs1) ++ evs2).
    cbn [for_]. rewrite (bind_return _ _ _ _ _ Hrun), Hrun2.
    split_and!; [done | by rewrite Htr2, Htr1, <- app_assoc | congruence |].
    intros target [->|Hin]%elem_of_cons.
    + apply elem_of_app. left. apply list_elem_of_here.
    + apply elem_of_app. right. by apply Hall.
Qed.

Lemma discord_post_trace (w : world) (url content : string) :
  trace (DiscordNotifier._post url content w).2
  = trace w ++ [EvPost {| url := url; headers := None;
                          body := JsonContent content |}].
Proof.
  unfold DiscordNotifier._post, session_post. rewrite bind_run.
  destruct (http_env (out w) (n_http w) _) as [resp|e]; [|done].
  cbv beta iota. by destruct (negb (status resp =? 204)).
Qed.

Lemma cqhttp_post_trace (w : world) (url data : string) :
  trace (CqhttpNotifier._post url data w).2
  = trace w ++ [EvPost (cq_request w url data)].
Proof.
  unfold CqhttpNotifier._post, session_post, get_attr. rewrite !bind_run.
  fold (cq_request w url data).
  destruct (http_env (out w) (n_http w) _) as [resp|e]; [|done].
  cbv beta iota. destruct (negb (status resp =? 200)); [done|].
  rewrite bind_run. unfold lift_result.
  destruct (resp_json resp) as [j|e]; [|done].
  cbv beta iota. by destruct (negb (bool_decide (j = Some "ok"))).
Qed.

(** A body that starts with a computation [head] whose trace is known. *)
Lemma trace_of_bind (head : M ()) (rest : M ()) (w : world) (ev : event) :
  trace (head w).2 = trace w ++ [ev] → quiet rest →
  ∃ evs, trace ((head ;; rest) w).2 = trace w ++ ev :: evs.
Proof.
  intros Hh Hq. rewrite bind_run.
  destruct (head w) as [[[]|e] w1]; simpl in *.
  - destruct (Hq w1) as (evs & Htr & _). exists evs.
    by rewrite Htr, Hh, <- app_assoc.
  - exists []. exact Hh.
Qed.

(** The Discord adapter isolates its targets: on an initialized class,
    whatever the webhooks answer, [send_message] returns and the text has
    been posted to every webhook of the envelope. *)
Lemma discord_every_target_attempted (w : world) (urls : list string)
    (m : Message) :
  initialized (attr w) Discord = true →
  is_Some (logger (attr w) Discord) →
  let r := DiscordNotifier.send_message (DiscordMessage urls m) w in
  r.1 = Return ()
  ∧ ∀ url, url ∈ urls →
      {| url := url; headers := None; body := JsonContent (text m) |}
      ∈ posts (since w r.2).
Proof.
  intros Hi Hl r.
  assert (Hrun : ∃ w' evs,
            DiscordNotifier.send_message (DiscordMessage urls m) w = (Return (), w')
            ∧ trace w' = trace w ++ evs
            ∧ ∀ url, url ∈ urls →
                EvPost {| url := url; headers := None;
                          body := JsonContent (text m) |} ∈ evs).
  { unfold DiscordNotifier.send_message.
    rewrite bind_run. unfold get_attr at 1. cbv beta iota. rewrite Hi.
    unfold assert_. rewrite bind_run. unfold mret at 1, St_ret at 1.
    cbv beta iota.
    match goal with
    | |- context [for_ urls ?turn w] =>
        destruct (every_target_attempted
                    (λ a, is_Some (logger a Discord)) turn
                    (λ url, EvPost {| url := url; headers := None;
                                      body := JsonContent (text m) |}) urls)
          with (w := w) as (w' & evs & -> & Htr & _ & Hall); [|exact Hl|]
    end.
    - intros target w0 Hl0.
      match goal with
      | |- context [try_except ?body _ _ w0] =>
          destruct (guarded_returns Discord body
                      (MsgFailedToSend target) w0)
            as (w1 & evs1 & Hrun & Htr1 & Ha1);
            [unfold DiscordNotifier._post; quiet_steps | exact Hl0 |];
          destruct (trace_of_bind (DiscordNotifier._post target (text m))
                      ((if Py.truthy (photo_url_list m)
                        then for_ (Py.items (photo_url_list m))
                               (DiscordNotifier._post target)
                        else mret ()) ;;
                       (if Py.truthy (video_url_list m)
                        then for_ (Py.items (video_url_list m))
                               (DiscordNotifier._post target)
                        else mret ())) w0 _
                      (discord_post_trace w0 target (text m)))
            as (evs0 & Htr0);
            [unfold DiscordNotifier._post; quiet_steps|]
      end.
      exists w1, (evs0 ++ evs1). split; [exact Hrun|].
      split; [|exact Ha1]. rewrite Htr1, Htr0. by rewrite <- app_assoc.
    - by exists w', evs. }
  destruct Hrun as (w' & evs & Hrun & Htr & Hall).
  subst r. rewrite Hrun. cbn [fst snd]. split; [done|].
  intros url Hin. rewrite (since_app _ _ _ Htr).
  apply Hall in Hin. unfold posts. apply list_elem_of_omap.
  eexists. split; [exact Hin|done].
Qed.

(** So does the Cqhttp adapter. *)
Lemma cqhttp_every_target_attempted (w : world) (urls : list string)
    (m : Message) :
  initialized (attr w) Cqhttp = true →
  is_Some (logger (attr w) Cqhttp) →
  let r := CqhttpNotifier.send_message (CqhttpMessage urls m) w in
  r.1 = Return ()
  ∧ ∀ url, url ∈ urls →
      cq_request w url (_remove_http (text m)) ∈ posts (since w r.2).
Proof.
  intros Hi Hl r.
  assert (Hrun : ∃ w' evs,
            CqhttpNotifier.send_message (CqhttpMessage urls m) w = (Return (), w')
            ∧ trace w' = trace w ++ evs
            ∧ ∀ url, url ∈ urls →
                EvPost (cq_request w url (_remove_http (text m))) ∈ evs).
  { unfold CqhttpNotifier.send_message.
    rewrite bind_run. unfold get_attr at 1. cbv beta iota. rewrite Hi.
    unfold assert_. rewrite bind_run. unfold mret at 1, St_ret at 1.
    cbv beta iota.
    match goal with
    | |- context [for_ urls ?turn w] =>
        destruct (every_target_attempted
                    (λ a, is_Some (logger a Cqhttp)
                          ∧ cq_headers a = cq_headers (attr w)) turn
                    (λ url, EvPost (cq_request w url (_remove_http (text m))))
                    urls)
          with (w := w) as (w' & evs & -> & Htr & _ & Hall); [|done|]
    end.
    - intros target w0 [Hl0 Hh0].
      match goal with
      | |- context [try_except ?body _ _ w0] =>
          destruct (guarded_returns Cqhttp body
                      (MsgFailedToSend target) w0)
            as (w1 & evs1 & Hrun & Htr1 & Ha1);
            [unfold CqhttpNotifier._send_text, CqhttpNotifier._send_photo,
               CqhttpNotifier._send_video, CqhttpNotifier._post; quiet_steps
            | exact Hl0 |];
          destruct (trace_of_bind (CqhttpNotifier._send_text target (text m))
                      ((if Py.truthy (photo_url_list m)
                        then for_ (Py.items (photo_url_list m))
                               (CqhttpNotifier._send_photo target)
                        else mret ()) ;;
                       (if Py.truthy (video_url_list m)
                        then for_ (Py.items (video_url_list m))
                               (CqhttpNotifier._send_video target)
                        else mret ())) w0 _
                      (cqhttp_post_trace w0 target (_remove_http (text m))))
            as (evs0 & Htr0);
            [unfold CqhttpNotifier._send_photo, CqhttpNotifier._send_video,
               CqhttpNotifier._post; quiet_steps|]
      end.
      exists w1, (evs0 ++ evs1). split; [exact Hrun|].
      split; [|exact Ha1]. rewrite Htr1, Htr0.
      unfold cq_request. rewrite Hh0. by rewrite <- app_assoc.
    - by exists w', evs. }
  destruct Hrun as (w' & evs & Hrun & Htr & Hall).
  subst r. rewrite Hrun. cbn [fst snd]. split; [done|].
  intros url Hin. rewrite (since_app _ _ _ Htr).
  apply Hall in Hin. unfold posts. apply list_elem_of_omap.
  eexists. split; [exact Hin|done].
Qed.

(** *** The Telegram adapter *)

Lemma retry_call_never_BadRequest (c : Bot.call) (w : world) (e : exn) :
  ((TelegramNotifier._retry_call c ≫= λ _, mret ()) w).1 = Raise e →
  isinstance e [BadRequest] = false.
Proof.
  unfold TelegramNotifier._retry_call, TelegramNotifier._retry.
  change (Z.to_nat 5) with 5%nat.
  destruct (retry_from_calls c 5 5 5 0 w) as (k & evs & _ & _ & _ & _ & Hraise).
  rewrite bind_run.
  destruct (TelegramNotifier._retry_from (call_bot c) 5 5 0 5 w) as [[x|e'] w1];
    cbn [fst snd] in *; [done|].
  intros [= <-]. by apply Hraise.
Qed.

Lemma retry_call_timeout_never_BadRequest (c : Bot.call) (w : world) (e : exn) :
  ((TelegramNotifier._retry_call_timeout c ≫= λ _, mret ()) w).1 = Raise e →
  isinstance e [BadRequest] = false.
Proof.
  destruct c.
  5: exact (retry_call_never_BadRequest (Bot.get_updates offset) w e).
  all: rewrite retry_call_timeout_rejected by done; by intros [= <-].
Qed.

(** What the per-target send raises is never a [BadRequest]: a
    [BadRequest] of the bot is caught, as a [NetworkError], by [_retry],
    and the [TypeError] of a media send is not one. *)
Lemma single_chat_never_raises_BadRequest chat text pl vl (w : world) (e : exn) :
  (TelegramNotifier._send_message_to_single_chat chat text pl vl w).1 = Raise e →
  isinstance e [BadRequest] = false.
Proof.
  unfold TelegramNotifier._send_message_to_single_chat.
  rewrite bind_run. unfold get_attr. cbv beta iota.
  destruct (bot (attr w)) as [b|].
  - rewrite bool_decide_eq_true_2 by done.
    unfold assert_. rewrite bind_run. unfold mret at 1, St_ret at 1.
    cbv beta iota.
    destruct vl as [[|v vs]|]; [|apply retry_call_timeout_never_BadRequest|];
      (destruct pl as [[|p [|q ps]]|];
       first [ apply retry_call_never_BadRequest
             | apply retry_call_timeout_never_BadRequest ]).
  - rewrite bool_decide_eq_false_2 by (by intros [? ?]).
    unfold assert_. rewrite bind_run. intros [= <-]. reflexivity.
Qed.

Lemma for_try_dead {A} (l : list A) (b : A → M ()) cs (h : A → exn → M ()) :
  (∀ x w e, (b x w).1 = Raise e → isinstance e cs = false) →
  ∀ w, for_ l (λ x, try_except (b x) cs (h x)) w = for_ l b w.
Proof.
  intros Hdead. induction l as [|x l IH]; intros w; [done|].
  cbn [for_]. rewrite !bind_run.
  assert (Hx : try_except (b x) cs (h x) w = b x w).
  { unfold try_except. specialize (Hdead x w).
    destruct (b x w) as [[[]|e] w1]; [done|].
    by rewrite (Hdead e eq_refl). }
  rewrite Hx. destruct (b x w) as [[[]|e] w1]; [apply IH|done].
Qed.

(** The [except BadRequest] clause of [TelegramNotifier.send_message] is
    never entered: [send_message] is the plain loop over the chats. *)
Lemma telegram_fallback_is_dead (chat_id_list : list Z) (m : Message) (w : world) :
  TelegramNotifier.send_message (TelegramMessage chat_id_list m) w
  = (i ← get_attr (λ a, initialized a Telegram);
     assert_ i ;;
     for_ chat_id_list (λ chat_id,
       TelegramNotifier._send_message_to_single_chat chat_id (text m)
         (photo_url_list m) (video_url_list m))) w.
Proof.
  unfold TelegramNotifier.send_message. rewrite !bind_run.
  unfold get_attr. cbv beta iota.
  destruct (initialized (attr w) Telegram); [|done].
  unfold assert_. rewrite !bind_run.
  change ((mret () : M ()) w) with (Return (), w). cbv beta iota.
  apply (for_try_dead chat_id_list
           (λ chat_id, TelegramNotifier._send_message_to_single_chat chat_id
                         (text m) (photo_url_list m) (video_url_list m))
           [BadRequest]).
  intros chat w0 e. apply single_chat_never_raises_BadRequest.
Qed.

(** C2: a failing run.  A Telegram envelope for the chats 1 and 2, on an
    outside where every call for chat 1 faults and every call for chat 2
    would succeed.  With a timeout as the fault, [send_message] makes its
    five attempts for chat 1 and raises; with a [Forbidden], it makes one
    attempt and raises.  In both runs no call is made for chat 2. *)
Theorem telegram_fault_skips_remaining_targets :
  let message := TelegramMessage [1; 2] (plain "news") in
  let blocked := mk_exn Forbidden ["bot was blocked by the user"] in
  let r1 := TelegramNotifier.send_message message
              (ready_world (chat_faults 1 (mk_exn TimedOut ["Timed out"]))) in
  let r2 := TelegramNotifier.send_message message
              (ready_world (chat_faults 1 blocked)) in
  r1.1 = Raise (mk_exn RuntimeError ["Max retries exceeded."])
  ∧ bot_calls (trace r1.2) = replicate 5 (Bot.send_message 1 "news")
  ∧ r2.1 = Raise blocked
  ∧ bot_calls (trace r2.2) = [Bot.send_message 1 "news"]
  ∧ (Bot.send_message 2 "news" ∉ bot_calls (trace r1.2))
  ∧ (Bot.send_message 2 "news" ∉ bot_calls (trace r2.2))
  ∧ (TelegramNotifier.send_message (TelegramMessage [2] (plain "news"))
       (ready_world (chat_faults 1 blocked))).1 = Return ().
Proof.
  split_and!; try (by vm_compute);
    vm_compute; intros Hin;
    repeat (apply elem_of_cons in Hin as [Hin|Hin]; [discriminate Hin|]);
    by apply elem_of_nil in Hin.
Qed.

(** C5: failing runs.  First, a Telegram envelope with one photo for the
    chats 1 and 2, on any outside.  The photo send is made with a keyword
    that [send_photo] does not have and raises a [TypeError], the only fault
    that a media send of this notifier ever meets.  The [except BadRequest]
    clause does not catch it: [send_message] ends with it and has done
    nothing at all, so that no text-only message is sent to chat 1, though
    that send would return, and chat 2 is not attempted.  Second, a fault
    of the malformed-request class that the servers do answer: a text
    envelope for the chats 1 and 2 where every send to chat 1 is answered
    with a [BadRequest].  [_retry] takes it for a transient fault: the same
    message is sent to chat 1 five times, with a sleep after each rejection,
    and the [RuntimeError] of [_retry] ends [send_message]; the fallback is
    not logged and chat 2 is not attempted. *)
Theorem permanent_fault_is_not_resent :
  let photo_news :=
    TelegramMessage [1; 2]
      {| text := "news"; photo_url_list := Some ["p.jpg"];
         video_url_list := None |} in
  let not_found := mk_exn BadRequest ["Chat not found"] in
  (∀ o : outside,
     let r := TelegramNotifier.send_message photo_news (ready_world o) in
     r = (Raise (unexpected_keyword "timeout"), ready_world o)
     ∧ trace r.2 = []
     ∧ (∀ x, bot_env o 0%nat (Bot.send_message 1 "news") = Return x →
          (TelegramNotifier._send_message_to_single_chat 1 "news" None None
             (ready_world o)).1 = Return ()))
  ∧ (let r := TelegramNotifier.send_message
                (TelegramMessage [1; 2] (plain "news"))
                (ready_world (chat_faults 1 not_found)) in
     r.1 = Raise (mk_exn RuntimeError ["Max retries exceeded."])
     ∧ bot_calls (trace r.2) = replicate 5 (Bot.send_message 1 "news")
     ∧ sleeps (trace r.2) = replicate 5 5
     ∧ (∀ name e, EvLog name ERROR (MsgWithoutMedia e) ∉ trace r.2)
     ∧ (TelegramNotifier._send_message_to_single_chat 2 "news" None None
          (ready_world (chat_faults 1 not_found))).1 = Return ()).
Proof.
  intros photo_news not_found. split.
  - intros o r.
    assert (Hr : r = (Raise (unexpected_keyword "timeout"), ready_world o)).
    { apply media_envelope_rejected; [done|by eexists|done]. }
    split; [exact Hr|]. split; [by rewrite Hr|].
    intros x Hx. rewrite single_chat_text; [|by eexists|done|done].
    destruct (retry_call_sent_as (ready_world o) (Bot.send_message 1 "news"))
      as (k & _ & _ & Hanswered).
    by destruct (Hanswered x Hx).
  - split_and!; try (by vm_compute).
    intros name e. vm_compute. intros Hin.
    repeat (apply elem_of_cons in Hin as [Hin|Hin]; [discriminate Hin|]).
    by apply elem_of_nil in Hin.
Qed.

(** * Further properties of the adapters *)

(** ** [_retry] with any bound *)

Lemma retry_from_settled (c : Bot.call) (tries d : Z) (name : string) (k : nat) :
  ∀ (n : nat) (i : Z) (w : world) (a : Bot.answer),
    logger (attr w) Telegram = Some name →
    (k < n)%nat →
    (∀ j, (j < k)%nat →
          ∃ e, bot_env (out w) (n_bot w + j) c = Raise e
               ∧ isinstance e TelegramNotifier.transient = true) →
    bot_env (out w) (n_bot w + k) c = a → settled a →
    let r := TelegramNotifier._retry_from (call_bot c) tries d i n w in
    r.1 = a
    ∧ ∃ evs, trace r.2 = trace w ++ evs
             ∧ bot_calls evs = replicate (S k) c
             ∧ sleeps evs = replicate k d.
Proof.
  induction k as [|k IH]; intros n i w a Hl Hn Hfail Ha Hset r.
  - destruct n as [|n]; [lia|]. rewrite Nat.add_0_r in Ha. subst r.
    destruct a as [x|e]; simpl in Hset.
    + rewrite (retry_from_success _ _ _ _ _ _ _ Ha). split; [done|].
      by exists [EvBot c].
    + rewrite (retry_from_uncaught _ _ _ _ _ _ _ Ha Hset). split; [done|].
      by exists [EvBot c].
  - destruct n as [|n]; [lia|].
    destruct (Hfail 0%nat ltac:(lia)) as (e & Hc & Ht).
    rewrite Nat.add_0_r in Hc. subst r.
    rewrite (retry_from_transient _ _ _ _ _ _ _ _ Hc Ht Hl).
    destruct (IH n (i + 1) (after_failed_attempt w c name e (i + 1) tries d) a)
      as (Hres & evs & Htr & Hcalls & Hsl); [exact Hl | lia | | | exact Hset |].
    + intros j Hj. destruct (Hfail (S j) ltac:(lia)) as (e' & Hc' & Ht').
      exists e'. split; [|done]. simpl. rewrite <- Hc'. f_equal. lia.
    + simpl. rewrite <- Ha. f_equal. lia.
    + split; [exact Hres|].
      exists ([EvBot c; EvLog name WARNING (MsgRetrying e (i + 1) tries);
               EvSleep d] ++ evs).
      rewrite Htr. simpl. rewrite <- app_assoc. simpl.
      split_and!; [done| |].
      * unfold bot_calls in *. simpl. by rewrite Hcalls.
      * unfold sleeps in *. simpl. by rewrite Hsl.
Qed.

(** X1: the first attempt that is answered with a value, or with an
    exception that is not a transient fault, decides a call through
    [_retry]: after [k] transient faults, [k] below the bound, the answer of
    attempt [k + 1] is the result, be it a value or an exception, and the
    call has made [k + 1] attempts and slept [k] times. *)
Theorem retry_decided_by_first_settled_attempt (w : world) (c : Bot.call)
    (tries d : Z) (k : nat) (a : Bot.answer) (name : string) :
  logger (attr w) Telegram = Some name →
  (k < Z.to_nat tries)%nat →
  (∀ j, (j < k)%nat →
        ∃ e, bot_env (out w) (n_bot w + j) c = Raise e
             ∧ isinstance e TelegramNotifier.transient = true) →
  bot_env (out w) (n_bot w + k) c = a →
  settled a →
  let r := TelegramNotifier._retry (call_bot c) tries d w in
  r.1 = a
  ∧ bot_calls (since w r.2) = replicate (S k) c
  ∧ sleeps (since w r.2) = replicate k d.
Proof.
  intros Hl Hk Hfail Ha Hset r. subst r. unfold TelegramNotifier._retry.
  destruct (retry_from_settled c tries d name k (Z.to_nat tries) 0 w a
              Hl Hk Hfail Ha Hset) as (Hres & evs & Htr & Hcalls & Hsl).
  by rewrite (since_app _ _ _ Htr).
Qed.

Lemma retry_decided_by_first_settled_attempt_witness :
  let blocked := mk_exn Forbidden ["bot was blocked by the user"] in
  let w := ready_world (scripted [timed_out; Raise blocked] ok_response) in
  let c := Bot.send_message 42 "hi" in
  let r := TelegramNotifier._retry (call_bot c) 5 3 w in
  logger (attr w) Telegram = Some "Telegram"
  ∧ (1 < Z.to_nat 5)%nat
  ∧ bot_env (out w) (n_bot w + 1) c = Raise blocked
  ∧ settled (Raise blocked)
  ∧ r.1 = Raise blocked
  ∧ bot_calls (since w r.2) = [c; c]
  ∧ sleeps (since w r.2) = [3].
Proof.
  intros blocked w c r.
  assert (Hk : (1 < Z.to_nat 5)%nat) by (simpl; lia).
  destruct (retry_decided_by_first_settled_attempt w c 5 3 1 (Raise blocked)
              "Telegram" eq_refl Hk) as (Hres & Hcalls & Hsl).
  - intros j Hj. assert (j = 0%nat) as -> by lia.
    by exists (mk_exn TimedOut ["Timed out"]).
  - reflexivity.
  - reflexivity.
  - split_and!; [reflexivity | exact Hk | reflexivity | reflexivity
                | exact Hres | exact Hcalls | exact Hsl].
Defined.

(** X2: when every attempt that the bound allows meets a transient fault,
    a call through [_retry] makes exactly [tries] attempts, sleeps after
    each of them, the last one included, and raises the [RuntimeError] of
    its last line; with a bound of zero or less it raises at once, without
    a call. *)
Theorem retry_exhausted_sleeps_after_every_attempt (w : world) (c : Bot.call)
    (tries d : Z) (name : string) :
  logger (attr w) Telegram = Some name →
  (∀ j, (j < Z.to_nat tries)%nat →
        ∃ e, bot_env (out w) (n_bot w + j) c = Raise e
             ∧ isinstance e TelegramNotifier.transient = true) →
  let r := TelegramNotifier._retry (call_bot c) tries d w in
  r.1 = Raise (mk_exn RuntimeError ["Max retries exceeded."])
  ∧ bot_calls (since w r.2) = replicate (Z.to_nat tries) c
  ∧ sleeps (since w r.2) = replicate (Z.to_nat tries) d
  ∧ (tries ≤ 0 → r.2 = w).
Proof.
  intros Hl Hall r. subst r. unfold TelegramNotifier._retry.
  destruct (retry_from_exhausted c tries d name (Z.to_nat tries) 0 w Hl Hall)
    as (Hres & evs & Htr & Hcalls & Hsl).
  rewrite (since_app _ _ _ Htr). split_and!; try done.
  intros Hle. by replace (Z.to_nat tries) with 0%nat by lia.
Qed.

Lemma retry_exhausted_sleeps_after_every_attempt_witness :
  let w := ready_world (scripted [timed_out; bad_request] ok_response) in
  let c := Bot.send_photo 42 "p.jpg" "hi" in
  let r := TelegramNotifier._retry (call_bot c) 2 7 w in
  logger (attr w) Telegram = Some "Telegram"
  ∧ r.1 = Raise (mk_exn RuntimeError ["Max retries exceeded."])
  ∧ bot_calls (since w r.2) = [c; c]
  ∧ sleeps (since w r.2) = [7; 7].
Proof.
  intros w c r.
  destruct (retry_exhausted_sleeps_after_every_attempt w c 2 7 "Telegram" eq_refl)
    as (Hres & Hcalls & Hsl & _).
  - intros j Hj. change (Z.to_nat 2) with 2%nat in Hj.
    destruct j as [|[|j]]; [| |lia].
    + by exists (mk_exn TimedOut ["Timed out"]).
    + by exists (mk_exn BadRequest ["Wrong file identifier/HTTP URL specified"]).
  - split_and!; [reflexivity | exact Hres | exact Hcalls | exact Hsl].
Defined.

(** ** [TelegramNotifier.send_message] over several chats *)

Lemma bot_calls_of_calls {A} (f : A → Bot.call) (l : list A) :
  bot_calls (EvBot ∘ f <$> l) = f <$> l.
Proof.
  induction l as [|a l IH]; [done|]. rewrite !fmap_cons.
  change (bot_calls ((EvBot ∘ f) a :: (EvBot ∘ f <$> l)))
    with (f a :: bot_calls (EvBot ∘ f <$> l)).
  by rewrite IH.
Qed.

Lemma retry_call_answered (w : world) (c : Bot.call) (x : list Update) :
  bot_env (out w) (n_bot w) c = Return x →
  (TelegramNotifier._retry_call c ≫= λ _, mret ()) w
  = (Return (), (call_bot c w).2).
Proof.
  intros Hx. rewrite bind_run.
  unfold TelegramNotifier._retry_call, TelegramNotifier._retry.
  change (Z.to_nat 5) with 5%nat.
  by rewrite (retry_from_success _ _ _ _ _ _ _ Hx).
Qed.

Lemma for_chats_answered (f : Z → M ()) (call_for : Z → Bot.call)
    (ids : list Z) :
  (∀ chat w, is_Some (bot (attr w)) →
     f chat w = (TelegramNotifier._retry_call (call_for chat) ≫= λ _, mret ()) w) →
  ∀ w, is_Some (bot (attr w)) → bot_answers (out w) →
    ∃ w', for_ ids f w = (Return (), w')
          ∧ trace w' = trace w ++ (EvBot ∘ call_for <$> ids).
Proof.
  intros Hf. induction ids as [|chat ids IH]; intros w Hb Hans.
  - exists w. simpl. by rewrite app_nil_r.
  - destruct (Hans (n_bot w) (call_for chat)) as [x Hx].
    cbn [for_]. rewrite bind_run, (Hf chat w Hb), (retry_call_answered _ _ _ Hx).
    cbv beta iota.
    destruct (IH (call_bot (call_for chat) w).2) as (w' & Hrun & Htr);
      [exact Hb | exact Hans |].
    exists w'. split; [exact Hrun|].
    rewrite Htr. simpl. by rewrite <- app_assoc.
Qed.

(** X3: on an initialized Telegram notifier whose servers answer every
    call, [send_message] of an envelope without media makes exactly one
    call per chat of the envelope, the [send_message] of its text, in the
    order of [chat_id_list], and nothing else (no sleep, no log record),
    then returns.  An envelope with media is not delivered at all:
    [send_message] ends at its first chat with the [TypeError] of the media
    send, in the world in which it started. *)
Theorem telegram_one_call_per_chat (w : world) (chat_id_list : list Z)
    (m : Message) :
  initialized (attr w) Telegram = true →
  is_Some (bot (attr w)) →
  bot_answers (out w) →
  let r := TelegramNotifier.send_message (TelegramMessage chat_id_list m) w in
  let call_for := λ chat, Bot.send_message chat (text m) in
  (Py.truthy (photo_url_list m) || Py.truthy (video_url_list m) = false →
     r.1 = Return ()
     ∧ since w r.2 = (EvBot ∘ call_for <$> chat_id_list)
     ∧ bot_calls (since w r.2) = call_for <$> chat_id_list)
  ∧ (Py.truthy (photo_url_list m) || Py.truthy (video_url_list m) = true →
     chat_id_list ≠ [] →
     r = (Raise (unexpected_keyword "timeout"), w)).
Proof.
  intros Hi Hb Hans r call_for. split.
  - intros Htext. apply orb_false_iff in Htext as [Hp Hv].
    assert (Hsel : ∀ chat w', is_Some (bot (attr w')) →
              TelegramNotifier._send_message_to_single_chat chat (text m)
                (photo_url_list m) (video_url_list m) w'
              = (TelegramNotifier._retry_call (call_for chat) ≫= λ _, mret ()) w').
    { intros chat w' Hb'. by apply single_chat_text. }
    destruct (for_chats_answered
                (λ chat_id, TelegramNotifier._send_message_to_single_chat chat_id
                              (text m) (photo_url_list m) (video_url_list m))
                call_for chat_id_list Hsel w Hb Hans)
      as (w' & Hrun & Htr).
    assert (Hr : r = (Return (), w')).
    { subst r. rewrite telegram_fallback_is_dead.
      rewrite bind_run. unfold get_attr at 1. cbv beta iota. rewrite Hi.
      unfold assert_. rewrite bind_run.
      change ((mret () : M ()) w) with (Return (), w). cbv beta iota.
      exact Hrun. }
    rewrite Hr. cbn [fst snd]. split; [done|].
    rewrite (since_app _ _ _ Htr). split; [done|].
    apply bot_calls_of_calls.
  - intros Hmedia Hne. destruct chat_id_list as [|chat chats]; [done|].
    by apply media_envelope_rejected.
Qed.

Lemma telegram_one_call_per_chat_witness :
  let w := ready_world (scripted [] ok_response) in
  let r := TelegramNotifier.send_message (TelegramMessage [7; 9; 7] (plain "news")) w in
  initialized (attr w) Telegram = true
  ∧ is_Some (bot (attr w))
  ∧ bot_answers (out w)
  ∧ r.1 = Return ()
  ∧ since w r.2 = [EvBot (Bot.send_message 7 "news");
                   EvBot (Bot.send_message 9 "news");
                   EvBot (Bot.send_message 7 "news")].
Proof.
  intros w r.
  assert (Hb : is_Some (bot (attr w))) by (by eexists).
  assert (Ha : bot_answers (out w)) by (intros n c; by exists []).
  destruct (telegram_one_call_per_chat w [7; 9; 7] (plain "news") eq_refl Hb Ha)
    as [Htext _].
  destruct (Htext eq_refl) as (Hres & Hs & _).
  split_and!; [reflexivity | exact Hb | exact Ha | exact Hres | exact Hs].
Defined.

Lemma for_app {Σ A} (l1 l2 : list A) (f : A → St Σ ()) (σ : Σ) :
  for_ (l1 ++ l2) f σ = (for_ l1 f ;; for_ l2 f) σ.
Proof.
  revert σ. induction l1 as [|x l1 IH]; intros σ.
  - rewrite bind_run. reflexivity.
  - cbn [app for_]. rewrite !bind_run.
    destruct (f x σ) as [[[]|e] σ1]; [|done].
    rewrite IH, bind_run. reflexivity.
Qed.

(** X4: what the per-target send of the Telegram adapter raises is never a
    [BadRequest]: a [BadRequest] of the bot is caught by [_retry], as the
    [NetworkError] that it is.  So the [except BadRequest] clause of
    [send_message] is never entered, and [send_message] runs exactly as the
    loop over the chats without that clause. *)
Theorem except_BadRequest_is_never_entered :
  (∀ chat text pl vl (w : world) (e : exn),
     (TelegramNotifier._send_message_to_single_chat chat text pl vl w).1 = Raise e →
     isinstance e [BadRequest] = false)
  ∧ (∀ chat_id_list (m : Message) (w : world),
       TelegramNotifier.send_message (TelegramMessage chat_id_list m) w
       = (i ← get_attr (λ a, initialized a Telegram);
          assert_ i ;;
          for_ chat_id_list (λ chat_id,
            TelegramNotifier._send_message_to_single_chat chat_id (text m)
              (photo_url_list m) (video_url_list m))) w).
Proof.
  split.
  - intros chat text pl vl w e. apply single_chat_never_raises_BadRequest.
  - intros ids m w. apply telegram_fallback_is_dead.
Qed.

(** X5: [TelegramNotifier.send_message] stops at the first chat whose send
    raises: when the chats [before] have been served and the send to [chat]
    raises [e], the envelope for [before ++ chat :: after] ends there, with
    [e] and in the same world, and nothing is done for the chats [after]. *)
Theorem telegram_stops_at_first_failing_chat (w w1 w2 : world) (m : Message)
    (before after : list Z) (chat : Z) (e : exn) :
  TelegramNotifier.send_message (TelegramMessage before m) w = (Return (), w1) →
  TelegramNotifier._send_message_to_single_chat chat (text m)
    (photo_url_list m) (video_url_list m) w1 = (Raise e, w2) →
  TelegramNotifier.send_message (TelegramMessage (before ++ chat :: after) m) w
  = (Raise e, w2).
Proof.
  rewrite !telegram_fallback_is_dead, !bind_run.
  unfold get_attr. cbv beta iota.
  destruct (initialized (attr w) Telegram); [|done].
  unfold assert_. rewrite !bind_run.
  change ((mret () : M ()) w) with (Return (), w). cbv beta iota.
  intros Hbefore Hchat.
  rewrite for_app, (bind_return _ _ _ _ _ Hbefore).
  cbn [for_]. by rewrite (bind_raise _ _ _ _ _ Hchat).
Qed.

Lemma telegram_stops_at_first_failing_chat_witness :
  let blocked := mk_exn Forbidden ["bot was blocked by the user"] in
  let w := ready_world (chat_faults 2 blocked) in
  let m := plain "news" in
  let w1 := (TelegramNotifier.send_message (TelegramMessage [1] m) w).2 in
  let w2 := (TelegramNotifier._send_message_to_single_chat 2 "news" None None w1).2 in
  TelegramNotifier.send_message (TelegramMessage [1] m) w = (Return (), w1)
  ∧ TelegramNotifier.send_message (TelegramMessage [1; 2; 3] m) w = (Raise blocked, w2)
  ∧ bot_calls (trace w2) = [Bot.send_message 1 "news"; Bot.send_message 2 "news"].
Proof.
  intros blocked w m w1 w2.
  assert (H1 : TelegramNotifier.send_message (TelegramMessage [1] m) w
               = (Return (), w1)) by reflexivity.
  assert (H2 : TelegramNotifier._send_message_to_single_chat 2 (text m)
                 (photo_url_list m) (video_url_list m) w1 = (Raise blocked, w2))
    by reflexivity.
  split_and!; [exact H1 | | by vm_compute].
  exact (telegram_stops_at_first_failing_chat w w1 w2 m [1] [3] 2 blocked H1 H2).
Defined.

(** ** The webhook adapters over several targets *)

Lemma posted_preserves (w : world) (reqs : list http_request) :
  out (posted w reqs) = out w ∧ attr (posted w reqs) = attr w.
Proof. done. Qed.

(** A loop of posts that are all accepted. *)
Lemma for_posts_accepted (P : world → Prop) (post : string → M ())
    (req : string → http_request) (l : list string) :
  (∀ w x, P w → post x w = (Return (), posted w [req x])) →
  (∀ w reqs, P w → P (posted w reqs)) →
  ∀ w, P w → for_ l post w = (Return (), posted w (req <$> l)).
Proof.
  intros Hpost HP. induction l as [|x l IH]; intros w Hw.
  - simpl. by rewrite posted_nil.
  - cbn [for_]. rewrite bind_run, (Hpost w x Hw). cbv beta iota.
    rewrite IH by (by apply HP).
    rewrite fmap_cons, (posted_cons w (req x) (req <$> l)). reflexivity.
Qed.

(** One target of a webhook adapter, all of whose posts are accepted: the
    [try] block runs to its end. *)
Lemma target_accepted (P : world → Prop)
    (send_text send_photo send_video : string → M ())
    (rt rp rv : string → http_request)
    (text : string) (pl vl : option (list string)) (h : exn → M ()) :
  (∀ w x, P w → send_text x w = (Return (), posted w [rt x])) →
  (∀ w x, P w → send_photo x w = (Return (), posted w [rp x])) →
  (∀ w x, P w → send_video x w = (Return (), posted w [rv x])) →
  (∀ w reqs, P w → P (posted w reqs)) →
  ∀ w, P w →
    try_except
      (send_text text ;;
       (if Py.truthy pl then for_ (Py.items pl) send_photo else mret ()) ;;
       (if Py.truthy vl then for_ (Py.items vl) send_video else mret ()))
      [Exception] h w
    = (Return (),
       posted w (rt text :: (rp <$> Py.items pl) ++ (rv <$> Py.items vl))).
Proof.
  intros Ht Hp Hv HP w Hw. apply try_return.
  rewrite bind_run, (Ht w text Hw). cbv beta iota.
  rewrite posted_cons_app.
  set (w1 := posted w [rt text]).
  assert (Hw1 : P w1) by (by apply HP).
  rewrite bind_run.
  assert (Hphotos : (if Py.truthy pl then for_ (Py.items pl) send_photo
                     else mret ()) w1
                    = (Return (), posted w1 (rp <$> Py.items pl))).
  { destruct pl as [[|p ps]|]; simpl Py.truthy; cbv iota.
    - simpl. by rewrite posted_nil.
    - by apply (for_posts_accepted P).
    - simpl. by rewrite posted_nil. }
  rewrite Hphotos. cbv beta iota.
  set (w2 := posted w1 _).
  assert (Hw2 : P w2) by (by apply HP).
  destruct vl as [[|v vs]|]; simpl Py.truthy; cbv iota.
  - simpl. by rewrite posted_nil.
  - by apply (for_posts_accepted P).
  - simpl. by rewrite posted_nil.
Qed.

(** The loop over the targets, every turn of which posts [per_target]. *)
Lemma for_targets_posted (P : world → Prop) (turn : string → M ())
    (per_target : string → list http_request) (urls : list string) :
  (∀ w u, P w → turn u w = (Return (), posted w (per_target u))) →
  (∀ w reqs, P w → P (posted w reqs)) →
  ∀ w, P w → for_ urls turn w = (Return (), posted w (urls ≫= per_target)).
Proof.
  intros Hturn HP. induction urls as [|u urls IH]; intros w Hw.
  - simpl. by rewrite posted_nil.
  - cbn [for_]. rewrite bind_run, (Hturn w u Hw). cbv beta iota.
    rewrite IH by (by apply HP).
    by rewrite bind_cons, posted_app.
Qed.

Lemma discord_post_accepted (w : world) (url content : string) :
  webhook_accepts (out w) →
  DiscordNotifier._post url content w
  = (Return (), posted w [discord_request url content]).
Proof.
  intros Hok.
  destruct (Hok (n_http w) (discord_request url content)) as (resp & Hr & Hs).
  unfold DiscordNotifier._post. rewrite bind_run. unfold session_post.
  fold (discord_request url content). rewrite Hr. cbv beta iota. rewrite Hs.
  change (negb (204 =? 204)) with false. cbv iota.
  unfold mret, St_ret, posted. simpl. do 2 f_equal. lia.
Qed.

Lemma since_posted (w : world) (reqs : list http_request) :
  since w (posted w reqs) = EvPost <$> reqs.
Proof. by apply since_app. Qed.

(** X6: on an initialized Discord notifier whose webhooks accept every
    POST, [send_message] returns after posting, for each webhook in list
    order, the text, then every photo URL, then every video URL, each as a
    [content] of its own, and it leaves no other event. *)
Theorem discord_posts_when_accepted (w : world) (urls : list string)
    (m : Message) :
  initialized (attr w) Discord = true →
  webhook_accepts (out w) →
  let r := DiscordNotifier.send_message (DiscordMessage urls m) w in
  r.1 = Return ()
  ∧ since w r.2
    = EvPost <$> (urls ≫= λ url,
        discord_request url (text m)
          :: (discord_request url <$> Py.items (photo_url_list m))
          ++ (discord_request url <$> Py.items (video_url_list m))).
Proof.
  intros Hi Hok r.
  assert (Hr : r = (Return (),
                    posted w (urls ≫= λ url,
                      discord_request url (text m)
                        :: (discord_request url <$> Py.items (photo_url_list m))
                        ++ (discord_request url <$> Py.items (video_url_list m))))).
  { subst r. unfold DiscordNotifier.send_message.
    rewrite bind_run. unfold get_attr at 1. cbv beta iota. rewrite Hi.
    unfold assert_. rewrite bind_run.
    change ((mret () : M ()) w) with (Return (), w). cbv beta iota.
    apply (for_targets_posted (λ w, webhook_accepts (out w))); [|done|exact Hok].
    intros w0 u Hw0.
    apply (target_accepted (λ w, webhook_accepts (out w))
             (DiscordNotifier._post u) (DiscordNotifier._post u)
             (DiscordNotifier._post u)
             (discord_request u) (discord_request u) (discord_request u));
      try done; intros w1 x Hw1; by apply discord_post_accepted. }
  rewrite Hr. split; [done|]. apply since_posted.
Qed.

Lemma discord_posts_when_accepted_witness :
  let w := ready_world (scripted [] no_content) in
  let m := {| text := "hi"; photo_url_list := Some ["a.jpg"];
              video_url_list := Some ["v.mp4"] |} in
  let r := DiscordNotifier.send_message (DiscordMessage ["h1"; "h2"] m) w in
  initialized (attr w) Discord = true
  ∧ webhook_accepts (out w)
  ∧ r.1 = Return ()
  ∧ posts (since w r.2)
    = [discord_request "h1" "hi"; discord_request "h1" "a.jpg";
       discord_request "h1" "v.mp4"; discord_request "h2" "hi";
       discord_request "h2" "a.jpg"; discord_request "h2" "v.mp4"].
Proof.
  intros w m r.
  assert (Hok : webhook_accepts (out w)) by (intros n q; by exists no_content).
  destruct (discord_posts_when_accepted w ["h1"; "h2"] m eq_refl Hok) as [Hres Hs].
  split_and!; [reflexivity | exact Hok | exact Hres |].
  subst r. rewrite Hs. reflexivity.
Defined.

(** X7: on an initialized Cqhttp notifier whose gateways accept every POST,
    [send_message] returns after posting, for each gateway URL in list
    order, the text with every [https://] and [http://] removed, then one
    image token per photo and one video token per video, each around the
    URL as it stands, and it leaves no other event. *)
Theorem cqhttp_posts_when_accepted (w : world) (urls : list string)
    (m : Message) :
  initialized (attr w) Cqhttp = true →
  gateway_accepts (out w) →
  let r := CqhttpNotifier.send_message (CqhttpMessage urls m) w in
  r.1 = Return ()
  ∧ since w r.2
    = EvPost <$> (urls ≫= λ url,
        cq_request w url (_remove_http (text m))
          :: ((λ p, cq_request w url ("[CQ:image,file=" +:+ p +:+ "]"))
                <$> Py.items (photo_url_list m))
          ++ ((λ v, cq_request w url ("[CQ:video,file=" +:+ v +:+ "]"))
                <$> Py.items (video_url_list m))).
Proof.
  intros Hi Hok r.
  set (P := λ w0 : world, gateway_accepts (out w0)
                          ∧ cq_headers (attr w0) = cq_headers (attr w)).
  assert (Hpost : ∀ w0 u data, P w0 →
            CqhttpNotifier._post u data w0
            = (Return (), posted w0 [cq_request w u data])).
  { intros w0 u data [Hok0 Hh0]. rewrite (cq_post_accepted _ _ _ Hok0).
    unfold cq_request. by rewrite Hh0. }
  assert (Hr : r = (Return (),
                    posted w (urls ≫= λ url,
                      cq_request w url (_remove_http (text m))
                        :: ((λ p, cq_request w url ("[CQ:image,file=" +:+ p +:+ "]"))
                              <$> Py.items (photo_url_list m))
                        ++ ((λ v, cq_request w url ("[CQ:video,file=" +:+ v +:+ "]"))
                              <$> Py.items (video_url_list m))))).
  { subst r. unfold CqhttpNotifier.send_message.
    rewrite bind_run. unfold get_attr at 1. cbv beta iota. rewrite Hi.
    unfold assert_. rewrite bind_run.
    change ((mret () : M ()) w) with (Return (), w). cbv beta iota.
    apply (for_targets_posted P); [|done|done].
    intros w0 u Hw0.
    apply (target_accepted P
             (CqhttpNotifier._send_text u) (CqhttpNotifier._send_photo u)
             (CqhttpNotifier._send_video u)
             (λ t, cq_request w u (_remove_http t))
             (λ p, cq_request w u ("[CQ:image,file=" +:+ p +:+ "]"))
             (λ v, cq_request w u ("[CQ:video,file=" +:+ v +:+ "]")));
      try done; intros w1 x Hw1; by apply Hpost. }
  rewrite Hr. split; [done|]. apply since_posted.
Qed.

Lemma cqhttp_posts_when_accepted_witness :
  let w := ready_world (scripted [] ok_response) in
  let m := {| text := "see https://t.co/a"; photo_url_list := None;
              video_url_list := Some ["https://v/1.mp4"] |} in
  let r := CqhttpNotifier.send_message (CqhttpMessage ["g1"; "g2"] m) w in
  initialized (attr w) Cqhttp = true
  ∧ gateway_accepts (out w)
  ∧ r.1 = Return ()
  ∧ body <$> posts (since w r.2)
    = [FormMessage "see t.co/a"; FormMessage "[CQ:video,file=https://v/1.mp4]";
       FormMessage "see t.co/a"; FormMessage "[CQ:video,file=https://v/1.mp4]"].
Proof.
  intros w m r.
  assert (Hok : gateway_accepts (out w)) by (intros n q; by exists ok_response).
  destruct (cqhttp_posts_when_accepted w ["g1"; "g2"] m eq_refl Hok) as [Hres Hs].
  split_and!; [reflexivity | exact Hok | exact Hres |].
  subst r. rewrite Hs. reflexivity.
Defined.

Lemma discord_post_rejected (w : world) (url content : string) :
  webhook_rejects (out w) →
  ∃ e, DiscordNotifier._post url content w
       = (Raise e, posted w [discord_request url content]).
Proof.
  intros Hrej. specialize (Hrej (n_http w) (discord_request url content)).
  unfold DiscordNotifier._post. rewrite bind_run. unfold session_post.
  fold (discord_request url content).
  assert (Hw : {| out := out w; attr := attr w;
                  trace := trace w ++ [EvPost (discord_request url content)];
                  n_bot := n_bot w; n_http := S (n_http w) |}
               = posted w [discord_request url content]).
  { unfold posted. simpl. f_equal. lia. }
  rewrite Hw.
  destruct (http_env (out w) (n_http w) (discord_request url content))
    as [resp|e]; cbv beta iota.
  - destruct (Z.eqb_spec (status resp) 204) as [Heq|Hne]; [done|].
    change (negb false) with true. cbv iota. by eexists.
  - by eexists.
Qed.

Lemma cqhttp_post_rejected (w : world) (url data : string) :
  gateway_rejects (out w) →
  ∃ e, CqhttpNotifier._post url data w
       = (Raise e, posted w [cq_request w url data]).
Proof.
  intros Hrej. specialize (Hrej (n_http w) (cq_request w url data)).
  unfold CqhttpNotifier._post. rewrite bind_run. unfold get_attr.
  cbv beta iota. rewrite bind_run. unfold session_post.
  fold (cq_request w url data).
  assert (Hw : {| out := out w; attr := attr w;
                  trace := trace w ++ [EvPost (cq_request w url data)];
                  n_bot := n_bot w; n_http := S (n_http w) |}
               = posted w [cq_request w url data]).
  { unfold posted. simpl. f_equal. lia. }
  rewrite Hw.
  destruct (http_env (out w) (n_http w) (cq_request w url data))
    as [resp|e]; cbv beta iota; [|by eexists].
  destruct (Z.eqb_spec (status resp) 200) as [Heq|Hne];
    [change (negb true) with false | change (negb false) with true];
    cbv iota; [|by eexists].
  rewrite bind_run. unfold lift_result.
  destruct Hrej as [Hs|Hj]; [done|].
  destruct (resp_json resp) as [j|e]; cbv beta iota; [|by eexists].
  rewrite bool_decide_eq_false_2 by congruence.
  change (negb false) with true. cbv iota. by eexists.
Qed.

(** One target whose first post fails: the [except] clause logs the fault
    and the turn returns; nothing else is posted to the target. *)
Lemma target_rejected (cls : notifier) (name url : string) (req : http_request)
    (send_text rest : M ()) (w : world) (e : exn) :
  logger (attr w) cls = Some name →
  send_text w = (Raise e, posted w [req]) →
  ∃ w',
    try_except (send_text ;; rest) [Exception]
      (λ e, log cls ERROR (MsgFailedToSend url e)) w
    = (Return (), w')
    ∧ trace w' = trace w ++ failed_target name url req e
    ∧ out w' = out w ∧ attr w' = attr w.
Proof.
  intros Hl Hsend. unfold try_except.
  rewrite (bind_raise _ _ _ _ _ Hsend), isinstance_Exception.
  unfold log, get_attr, mbind, St_bind. cbn [attr posted]. rewrite Hl.
  eexists. split; [reflexivity|]. simpl. by rewrite <- app_assoc.
Qed.

Lemma for_targets_rejected (P : world → Prop) (turn : string → M ())
    (trace_of : string → exn → list event) (urls : list string) :
  (∀ w u, P w → ∃ e w', turn u w = (Return (), w')
                        ∧ trace w' = trace w ++ trace_of u e ∧ P w') →
  ∀ w, P w →
    ∃ faults w', for_ urls turn w = (Return (), w')
                 ∧ length faults = length urls
                 ∧ trace w' = trace w ++ concat (zip_with trace_of urls faults).
Proof.
  intros Hturn. induction urls as [|u urls IH]; intros w Hw.
  - exists [], w. simpl. by rewrite app_nil_r.
  - destruct (Hturn w u Hw) as (e & w1 & Hrun & Htr & Hw1).
    destruct (IH w1 Hw1) as (faults & w' & Hrun' & Hlen & Htr').
    exists (e :: faults), w'. cbn [for_].
    rewrite (bind_return _ _ _ _ _ Hrun), Hrun'.
    split_and!; [done | simpl; by rewrite Hlen |].
    rewrite Htr', Htr. simpl. by rewrite <- app_assoc.
Qed.

Lemma posts_failed_targets (name : string) (req : string → http_request)
    (urls : list string) (faults : list exn) :
  length faults = length urls →
  posts (concat (zip_with (λ u e, failed_target name u (req u) e) urls faults))
  = req <$> urls.
Proof.
  revert faults. induction urls as [|u urls IH]; intros [|e faults] Hlen;
    try done.
  cbn [zip_with concat]. rewrite posts_app, fmap_cons.
  rewrite IH by (simpl in Hlen; lia). reflexivity.
Qed.

(** X8: on an initialized Discord notifier whose webhooks answer no POST
    with HTTP 204, [send_message] still returns: for each webhook, in list
    order, it posts the text, logs the fault as an error and moves on; no
    photo and no video is posted. *)
Theorem discord_rejected_targets (w : world) (urls : list string)
    (m : Message) (name : string) :
  initialized (attr w) Discord = true →
  logger (attr w) Discord = Some name →
  webhook_rejects (out w) →
  let r := DiscordNotifier.send_message (DiscordMessage urls m) w in
  r.1 = Return ()
  ∧ posts (since w r.2) = (λ url, discord_request url (text m)) <$> urls
  ∧ ∃ faults,
      length faults = length urls
      ∧ since w r.2
        = concat (zip_with
                    (λ url e, failed_target name url
                                (discord_request url (text m)) e)
                    urls faults).
Proof.
  intros Hi Hl Hrej r.
  set (P := λ w0 : world, webhook_rejects (out w0)
                          ∧ logger (attr w0) Discord = Some name).
  assert (Hrun : ∃ faults w',
            r = (Return (), w') ∧ length faults = length urls
            ∧ trace w' = trace w
                ++ concat (zip_with
                             (λ url e, failed_target name url
                                         (discord_request url (text m)) e)
                             urls faults)).
  { subst r. unfold DiscordNotifier.send_message.
    rewrite bind_run. unfold get_attr at 1. cbv beta iota. rewrite Hi.
    unfold assert_. rewrite bind_run.
    change ((mret () : M ()) w) with (Return (), w). cbv beta iota.
    apply (for_targets_rejected P); [|done].
    intros w0 u [Hrej0 Hl0].
    destruct (discord_post_rejected w0 u (text m) Hrej0) as [e He].
    destruct (target_rejected Discord name u _ _
                ((if Py.truthy (photo_url_list m)
                  then for_ (Py.items (photo_url_list m)) (DiscordNotifier._post u)
                  else mret ()) ;;
                 (if Py.truthy (video_url_list m)
                  then for_ (Py.items (video_url_list m)) (DiscordNotifier._post u)
                  else mret ())) w0 e Hl0 He)
      as (w' & Hrun & Htr & Ho & Ha).
    exists e, w'. split; [exact Hrun|]. split; [exact Htr|].
    unfold P. by rewrite Ho, Ha. }
  destruct Hrun as (faults & w' & -> & Hlen & Htr).
  cbn [fst snd]. rewrite (since_app _ _ _ Htr).
  split; [done|]. split; [by apply posts_failed_targets|].
  by exists faults.
Qed.

Lemma discord_rejected_targets_witness :
  let w := ready_world (scripted [] ok_response) in
  let m := {| text := "hi"; photo_url_list := Some ["a.jpg"];
              video_url_list := None |} in
  let r := DiscordNotifier.send_message (DiscordMessage ["h1"; "h2"] m) w in
  initialized (attr w) Discord = true
  ∧ logger (attr w) Discord = Some "Discord"
  ∧ webhook_rejects (out w)
  ∧ r.1 = Return ()
  ∧ posts (since w r.2) = [discord_request "h1" "hi"; discord_request "h2" "hi"].
Proof.
  intros w m r.
  assert (Hrej : webhook_rejects (out w)) by (intros n q; done).
  destruct (discord_rejected_targets w ["h1"; "h2"] m "Discord" eq_refl eq_refl Hrej)
    as (Hres & Hposts & _).
  split_and!; [reflexivity | reflexivity | exact Hrej | exact Hres | exact Hposts].
Defined.

(** X9: on an initialized Cqhttp notifier whose gateways answer no POST
    with HTTP 200 and a JSON status [ok], [send_message] still returns: for
    each gateway URL, in list order, it posts the text, logs the fault as an
    error and moves on; no image and no video token is posted. *)
Theorem cqhttp_rejected_targets (w : world) (urls : list string)
    (m : Message) (name : string) :
  initialized (attr w) Cqhttp = true →
  logger (attr w) Cqhttp = Some name →
  gateway_rejects (out w) →
  let r := CqhttpNotifier.send_message (CqhttpMessage urls m) w in
  r.1 = Return ()
  ∧ posts (since w r.2)
    = (λ url, cq_request w url (_remove_http (text m))) <$> urls
  ∧ ∃ faults,
      length faults = length urls
      ∧ since w r.2
        = concat (zip_with
                    (λ url e, failed_target name url
                                (cq_request w url (_remove_http (text m))) e)
                    urls faults).
Proof.
  intros Hi Hl Hrej r.
  set (P := λ w0 : world, gateway_rejects (out w0)
                          ∧ logger (attr w0) Cqhttp = Some name
                          ∧ cq_headers (attr w0) = cq_headers (attr w)).
  assert (Hrun : ∃ faults w',
            r = (Return (), w') ∧ length faults = length urls
            ∧ trace w' = trace w
                ++ concat (zip_with
                             (λ url e, failed_target name url
                                         (cq_request w url (_remove_http (text m))) e)
                             urls faults)).
  { subst r. unfold CqhttpNotifier.send_message.
    rewrite bind_run. unfold get_attr at 1. cbv beta iota. rewrite Hi.
    unfold assert_. rewrite bind_run.
    change ((mret () : M ()) w) with (Return (), w). cbv beta iota.
    apply (for_targets_rejected P); [|done].
    intros w0 u (Hrej0 & Hl0 & Hh0).
    destruct (cqhttp_post_rejected w0 u (_remove_http (text m)) Hrej0) as [e He].
    assert (Hreq : cq_request w0 u (_remove_http (text m))
                   = cq_request w u (_remove_http (text m)))
      by (unfold cq_request; by rewrite Hh0).
    rewrite Hreq in He.
    destruct (target_rejected Cqhttp name u _
                (CqhttpNotifier._send_text u (text m))
                ((if Py.truthy (photo_url_list m)
                  then for_ (Py.items (photo_url_list m))
                         (CqhttpNotifier._send_photo u)
                  else mret ()) ;;
                 (if Py.truthy (video_url_list m)
                  then for_ (Py.items (video_url_list m))
                         (CqhttpNotifier._send_video u)
                  else mret ())) w0 e Hl0 He)
      as (w' & Hrun & Htr & Ho & Ha).
    exists e, w'. split; [exact Hrun|]. split; [exact Htr|].
    unfold P. by rewrite Ho, Ha. }
  destruct Hrun as (faults & w' & -> & Hlen & Htr).
  cbn [fst snd]. rewrite (since_app _ _ _ Htr).
  split; [done|].
  split; [by apply (posts_failed_targets name
                      (λ url, cq_request w url (_remove_http (text m))))|].
  by exists faults.
Qed.

Lemma cqhttp_rejected_targets_witness :
  let w := ready_world (scripted [] no_content) in
  let m := {| text := "hi http://x"; photo_url_list := Some ["a.jpg"];
              video_url_list := None |} in
  let r := CqhttpNotifier.send_message (CqhttpMessage ["g1"; "g2"] m) w in
  initialized (attr w) Cqhttp = true
  ∧ logger (attr w) Cqhttp = Some "Cqhttp"
  ∧ gateway_rejects (out w)
  ∧ r.1 = Return ()
  ∧ body <$> posts (since w r.2) = [FormMessage "hi x"; FormMessage "hi x"].
Proof.
  intros w m r.
  assert (Hrej : gateway_rejects (out w)) by (intros n q; by left).
  destruct (cqhttp_rejected_targets w ["g1"; "g2"] m "Cqhttp" eq_refl eq_refl Hrej)
    as (Hres & Hposts & _).
  split_and!; [reflexivity | reflexivity | exact Hrej | exact Hres |].
  subst r. rewrite Hposts. reflexivity.
Defined.

(** ** [_remove_http] *)

Lemma replace_from_length (old : string) (s : string) :
  ∀ skip, (String.length (Py.replace_from old EmptyString skip s)
           ≤ String.length s)%nat.
Proof.
  induction s as [|c s IH]; intros skip; [done|].
  cbn [Py.replace_from].
  destruct skip as [|k].
  - destruct (String.prefix old (String c s)).
    + change (EmptyString +:+ ?x) with x.
      specialize (IH (Nat.pred (String.length old))). simpl. lia.
    + specialize (IH 0%nat). simpl. lia.
  - specialize (IH k). simpl. lia.
Qed.

Lemma prefix_true_app (old s : string) :
  String.prefix old s = true → ∃ post, s = old +:+ post.
Proof.
  revert s. induction old as [|a old IH]; intros s H.
  - by exists s.
  - destruct s as [|b s]; [done|]. simpl in H.
    destruct (ascii_dec a b) as [->|]; [|done].
    destruct (IH s H) as [post ->]. by exists post.
Qed.

Lemma replace_absent (old new s : string) :
  (∀ pre post, s ≠ pre +:+ old +:+ post) → Py.replace old new s = s.
Proof.
  unfold Py.replace. induction s as [|c s IH]; intros Habs; [done|].
  cbn [Py.replace_from].
  destruct (String.prefix old (String c s)) eqn:Hp.
  - apply prefix_true_app in Hp as [post Hp].
    by destruct (Habs EmptyString post).
  - f_equal. apply IH. intros pre post ->.
    by destruct (Habs (String c pre) post).
Qed.

(** X10: [_remove_http] drops a leading [http://] or [https://]; its
    result is never longer than its argument; and a text in which [http]
    does not occur is returned as it is. *)
Theorem remove_http_strips_scheme (text : string) :
  _remove_http ("http://" +:+ text) = _remove_http text
  ∧ _remove_http ("https://" +:+ text) = _remove_http text
  ∧ (String.length (_remove_http text) ≤ String.length text)%nat
  ∧ (¬ occurs_in "http" text → _remove_http text = text).
Proof.
  split_and!.
  - unfold _remove_http, Py.replace.
    assert (H : Py.replace_from "https://" EmptyString 0 ("http://" +:+ text)
                = "http://" +:+ Py.replace_from "https://" EmptyString 0 text)
      by reflexivity.
    rewrite H. generalize (Py.replace_from "https://" EmptyString 0 text).
    intros rest. destruct rest; reflexivity.
  - unfold _remove_http, Py.replace.
    assert (H : Py.replace_from "https://" EmptyString 0 ("https://" +:+ text)
                = Py.replace_from "https://" EmptyString 0 text)
      by (destruct text; reflexivity).
    by rewrite H.
  - unfold _remove_http, Py.replace.
    etrans; [apply replace_from_length|apply replace_from_length].
  - intros Habs. unfold _remove_http.
    rewrite (replace_absent "https://" EmptyString text).
    + apply replace_absent. intros pre post ->. apply Habs.
      exists pre, ("://" +:+ post). reflexivity.
    + intros pre post ->. apply Habs.
      exists pre, ("s://" +:+ post). reflexivity.
Qed.

Lemma remove_http_strips_scheme_witness :
  ¬ occurs_in "http" "plain text"
  ∧ _remove_http "plain text" = "plain text".
Proof.
  assert (Habs : ¬ occurs_in "http" "plain text").
  { intros (pre & post & H).
    repeat (destruct pre as [|? pre]; [discriminate H|];
            injection H as _ H).
    destruct pre; discriminate H. }
  split; [exact Habs|].
  by destruct (remove_http_strips_scheme "plain text") as (_ & _ & _ & Hid);
    apply Hid.
Defined.

(** X11: the Discord and the Cqhttp adapter isolate their targets whatever
    the endpoints answer: on an initialized class with a logger,
    [send_message] returns normally and the text has been posted to every
    target of the envelope. *)
Theorem webhook_adapters_never_raise (w : world) (urls : list string)
    (m : Message) :
  (initialized (attr w) Discord = true → is_Some (logger (attr w) Discord) →
   let r := DiscordNotifier.send_message (DiscordMessage urls m) w in
   r.1 = Return ()
   ∧ ∀ url, url ∈ urls → discord_request url (text m) ∈ posts (since w r.2))
  ∧ (initialized (attr w) Cqhttp = true → is_Some (logger (attr w) Cqhttp) →
     let r := CqhttpNotifier.send_message (CqhttpMessage urls m) w in
     r.1 = Return ()
     ∧ ∀ url, url ∈ urls →
         cq_request w url (_remove_http (text m)) ∈ posts (since w r.2)).
Proof.
  split.
  - intros Hi Hl. by apply discord_every_target_attempted.
  - intros Hi Hl. by apply cqhttp_every_target_attempted.
Qed.

Lemma webhook_adapters_never_raise_witness :
  let failing :=
    {| bot_env := λ _ _, Return [];
       http_env := λ n _, if Nat.even n
                          then Raise (mk_exn ClientError ["connection reset"])
                          else Return ok_response;
       clock := λ n, Z.of_nat n |} in
  let w := ready_world failing in
  let r := DiscordNotifier.send_message
             (DiscordMessage ["h1"; "h2"] (plain "hi")) w in
  initialized (attr w) Discord = true
  ∧ is_Some (logger (attr w) Discord)
  ∧ r.1 = Return ()
  ∧ discord_request "h2" "hi" ∈ posts (since w r.2).
Proof.
  intros failing w r.
  assert (Hl : is_Some (logger (attr w) Discord)) by (by eexists).
  destruct (webhook_adapters_never_raise w ["h1"; "h2"] (plain "hi")) as [Hd _].
  destruct (Hd eq_refl Hl) as [Hres Hall].
  split_and!; [reflexivity | exact Hl | exact Hres |].
  apply Hall. apply list_elem_of_further, list_elem_of_here.
Defined.

(** ** More on [confirm] *)

(** X12: within one poll [confirm] reads the updates in order and the
    first reply it acts upon decides.  When the servers answer a poll with
    updates on which [confirm] does not act, then a reply [Y] or [N] of a
    target that is not older than the sending time, then anything at all,
    [confirm] returns at that poll with the answer of that reply: what
    comes after it in the poll is not read, so a [Y] followed by an [N]
    resolves to [true].  A message without text (a photo, a sticker) sent
    by a target after the sending time does not count as another text: it
    makes [confirm] fail at that poll with an [AttributeError]. *)
Theorem confirm_first_reply_decides (T0 : Z) (ids : list Z)
    (pre post : list Update) (u : Update) (m : inbound) (w : world) (k : nat) :
  Forall (not_a_reply T0 ids) pre →
  message u = Some m → T0 ≤ date m → chat_id m ∈ ids →
  is_Some (bot (attr w)) →
  bot_env (out w) (n_bot w) (Bot.get_updates (update_offset (attr w)))
  = Return (pre ++ u :: post) →
  let r := TelegramNotifier._confirm_loop (S k) T0 ids w in
  (∀ t, inbound_text m = Some t →
     (Py.upper (Py.strip t) = "Y" → r.1 = Return (Some true))
     ∧ (Py.upper (Py.strip t) = "N" → r.1 = Return (Some false))
     ∧ (Py.upper (Py.strip t) = "Y" ∨ Py.upper (Py.strip t) = "N" →
        since w r.2 = [EvBot (Bot.get_updates (update_offset (attr w)))]))
  ∧ (inbound_text m = None →
     r.1 = Raise (mk_exn AttributeError ["NoneType"; "strip"])
     ∧ since w r.2 = [EvBot (Bot.get_updates (update_offset (attr w)))]).
Proof.
  intros Hpre Hm Hge Hin Hb Hpoll r. subst r.
  destruct (get_new_updates_answered w _ Hb Hpoll)
    as (w1 & Hrun & _ & _ & _ & Ht1).
  rewrite (confirm_loop_round _ _ _ _ _ _ Hrun).
  rewrite (scan_not_a_reply _ _ _ _ Hpre).
  cbn [TelegramNotifier.scan_replies]. rewrite Hm.
  destruct (Z.ltb_spec (date m) T0); [lia|].
  rewrite bool_decide_eq_true_2 by done. cbn [negb].
  pose proof (since_app _ _ _ Ht1) as Hsince.
  split.
  - intros t Ht. rewrite Ht. cbv zeta. split_and!.
    + intros ->. reflexivity.
    + intros ->. reflexivity.
    + by intros [-> | ->].
  - intros Hnone. by rewrite Hnone.
Qed.

Lemma confirm_first_reply_decides_witness :
  let wide := String (Ascii.ascii_of_nat 227)
                (String (Ascii.ascii_of_nat 128)
                   (String (Ascii.ascii_of_nat 128) EmptyString)) in
  let says (id : Z) (t : option string) :=
    {| update_id := id;
       message := Some {| date := 50; chat_id := 7; inbound_text := t |} |} in
  let poll := [says 1 (Some "hello")] ++ says 2 (Some (wide +:+ "y"))
                :: [says 3 (Some "N")] in
  let w := ready_world (scripted [Return poll] ok_response) in
  Forall (not_a_reply 10 [7]) [says 1 (Some "hello")]
  ∧ is_Some (bot (attr w))
  ∧ Py.upper (Py.strip (wide +:+ "y")) = "Y"
  ∧ (TelegramNotifier._confirm_loop 2 10 [7] w).1 = Return (Some true).
Proof.
  intros wide says poll w.
  assert (Hpre : Forall (not_a_reply 10 [7]) [says 1 (Some "hello")]).
  { constructor; [|constructor]. right.
    eexists _, "hello". split_and!; [reflexivity | reflexivity | done | done]. }
  assert (Hin : 7 ∈ [7]) by apply list_elem_of_here.
  assert (Hb : is_Some (bot (attr w))) by (by eexists).
  assert (Hge : 10 ≤ 50) by (vm_compute; discriminate).
  destruct (confirm_first_reply_decides 10 [7] [says 1 (Some "hello")]
              [says 3 (Some "N")] (says 2 (Some (wide +:+ "y")))
              {| date := 50; chat_id := 7; inbound_text := Some (wide +:+ "y") |}
              w 1 Hpre eq_refl Hge Hin Hb eq_refl) as [Hreply _].
  destruct (Hreply (wide +:+ "y") eq_refl) as (HY & _).
  split_and!; [exact Hpre | exact Hb | reflexivity | exact (HY eq_refl)].
Defined.

(** ** The update cursor *)

Lemma get_new_updates_cursor (w : world) (us : list Update) :
  is_Some (bot (attr w)) →
  bot_env (out w) (n_bot w) (Bot.get_updates (update_offset (attr w))) = Return us →
  ∃ w1,
    TelegramNotifier._get_new_updates w = (Return us, w1)
    ∧ out w1 = out w
    ∧ bot (attr w1) = bot (attr w)
    ∧ update_offset (attr w1) = cursor_after (update_offset (attr w)) us
    ∧ n_bot w1 = S (n_bot w)
    ∧ trace w1 = trace w ++ [EvBot (Bot.get_updates (update_offset (attr w)))].
Proof.
  intros Hb Hus.
  unfold TelegramNotifier._get_new_updates, TelegramNotifier._get_updates.
  rewrite bind_run. unfold get_attr at 1. cbv beta iota.
  rewrite bind_run.
  assert (Hg : (get_attr bot ≫= λ b, assert_ (bool_decide (is_Some b)) ;;
                  TelegramNotifier._retry_call
                    (Bot.get_updates (update_offset (attr w)))) w
               = (Return us,
                  (call_bot (Bot.get_updates (update_offset (attr w))) w).2)).
  { rewrite bind_run. unfold get_attr. cbv beta iota.
    rewrite bool_decide_eq_true_2 by done.
    unfold assert_. rewrite bind_run. cbv beta iota.
    unfold TelegramNotifier._retry_call, TelegramNotifier._retry.
    change (Z.to_nat 5) with 5%nat.
    by apply retry_from_success. }
  rewrite Hg. cbv beta iota. rewrite bind_run. unfold cursor_after.
  destruct (last us) as [u|]; eexists; (split; [reflexivity|done]).
Qed.

(** X13: two polls in a row.  The second [get_updates] asks for the
    updates from one past the last update of the first poll on, or from the
    same offset again when the first poll brought nothing; after it the
    cursor has moved in the same way. *)
Theorem cursor_moves_past_last_update (w : world) (us1 us2 : list Update) :
  is_Some (bot (attr w)) →
  let first := update_offset (attr w) in
  let second := cursor_after first us1 in
  bot_env (out w) (n_bot w) (Bot.get_updates first) = Return us1 →
  bot_env (out w) (S (n_bot w)) (Bot.get_updates second) = Return us2 →
  let r := (TelegramNotifier._get_new_updates ;;
            TelegramNotifier._get_new_updates) w in
  r.1 = Return us2
  ∧ bot_calls (since w r.2) = [Bot.get_updates first; Bot.get_updates second]
  ∧ update_offset (attr r.2) = cursor_after second us2.
Proof.
  intros Hb first second H1 H2 r.
  destruct (get_new_updates_cursor w us1 Hb H1)
    as (w1 & Hrun1 & Ho1 & Hb1 & Hc1 & Hn1 & Ht1).
  destruct (get_new_updates_cursor w1 us2) as (w2 & Hrun2 & _ & _ & Hc2 & _ & Ht2).
  { by rewrite Hb1. }
  { by rewrite Ho1, Hn1, Hc1. }
  assert (Hr : r = (Return us2, w2)).
  { subst r. by rewrite (bind_return _ _ _ _ _ Hrun1). }
  rewrite Hr. cbn [fst snd]. split; [done|].
  rewrite Hc1 in Ht2, Hc2.
  assert (Htr : trace w2 = trace w ++ [EvBot (Bot.get_updates first);
                                      EvBot (Bot.get_updates second)]).
  { rewrite Ht2, Ht1. by rewrite <- app_assoc. }
  by rewrite (since_app _ _ _ Htr).
Qed.

Lemma cursor_moves_past_last_update_witness :
  let u (id : Z) := {| update_id := id; message := None |} in
  let w := ready_world (scripted [Return [u 4; u 9]; Return []] ok_response) in
  let r := (TelegramNotifier._get_new_updates ;;
            TelegramNotifier._get_new_updates) w in
  is_Some (bot (attr w))
  ∧ bot_calls (since w r.2) = [Bot.get_updates None; Bot.get_updates (Some 10)]
  ∧ update_offset (attr r.2) = Some 10.
Proof.
  intros u w r.
  assert (Hb : is_Some (bot (attr w))) by (by eexists).
  destruct (cursor_moves_past_last_update w [u 4; u 9] [] Hb eq_refl eq_refl)
    as (_ & Hcalls & Hcur).
  split_and!; [exact Hb | exact Hcalls | exact Hcur].
Defined.

(** ** [init] *)

Lemma quiet_get_updates offset : quiet (TelegramNotifier._get_updates offset).
Proof. unfold TelegramNotifier._get_updates. quiet_steps. Qed.

Lemma lift_return {A} (m : M A) (s : system) (a : A) (w' : world) :
  m (the_world s) = (Return a, w') → lift m s = (Return a, with_world s w').
Proof. intros H. unfold lift. by rewrite H. Qed.

Lemma lift_raise {A} (m : M A) (s : system) (e : exn) (w' : world) :
  m (the_world s) = (Raise e, w') → lift m s = (Raise e, with_world s w').
Proof. intros H. unfold lift. by rewrite H. Qed.

Lemma base_init_explicit (cls : notifier) (s : system) :
  NotifierBase.init cls s
  = (Return (),
     {| the_world :=
          {| out := out (the_world s);
             attr := {| initialized := λ c, if decide (c = cls) then true
                                            else initialized (attr (the_world s)) c;
                        logger := logger (attr (the_world s));
                        bot := bot (attr (the_world s));
                        cq_headers := cq_headers (attr (the_world s));
                        update_offset := update_offset (attr (the_world s)) |};
             trace := trace (the_world s) ++ [EvStatus (notifier_name cls) true];
             n_bot := n_bot (the_world s); n_http := n_http (the_world s) |};
        message_queue := message_queue s;
        waiters := waiters s ++ [cls];
        notifier_status := <[notifier_name cls := true]> (notifier_status s) |}).
Proof.
  unfold NotifierBase.init, NotifierBase.create_worker, check_initialized,
    NotifierBase.set_initialized, StatusTracker.set_notifier_status,
    mbind, St_bind, lift, emit, get_attr, set_attrs.
  cbn -[app insert decide].
  by destruct (decide (cls = cls)).
Qed.

Lemma telegram_init_run (token logger_name : string) (s : system) :
  token ≠ EmptyString →
  let r := TelegramNotifier._get_updates None
             (telegram_configured (the_world s) token logger_name) in
  match r.1 with
  | Raise e =>
      TelegramNotifier_init token logger_name s = (Raise e, with_world s r.2)
  | Return us =>
      ∃ s', TelegramNotifier_init token logger_name s = (Return (), s')
            ∧ message_queue s' = message_queue s
            ∧ waiters s' = waiters s ++ [Telegram]
            ∧ notifier_status s' = <["Telegram" := true]> (notifier_status s)
            ∧ initialized (attr (the_world s')) Telegram = true
            ∧ (∀ c, c ≠ Telegram →
                 initialized (attr (the_world s')) c
                 = initialized (attr (the_world s)) c)
            ∧ logger (attr (the_world s')) Telegram = Some logger_name
            ∧ bot (attr (the_world s')) = Some token
            ∧ update_offset (attr (the_world s'))
              = (λ u, update_id u + 1) <$> last us
            ∧ trace (the_world s')
              = trace r.2 ++ [EvLog logger_name INFO
                                (MsgText "Init telegram notifier succeed.");
                              EvStatus "Telegram" true]
  end.
Proof.
  intros Hne r.
  destruct (quiet_get_updates None
              (telegram_configured (the_world s) token logger_name))
    as (evs & _ & _ & Ha & _).
  fold r in Ha.
  unfold TelegramNotifier_init.
  apply String.eqb_neq in Hne. rewrite Hne.
  change (negb false) with true. unfold assert_ at 1 2.
  set (w1 := {| out := out (the_world s);
                attr := {| initialized := initialized (attr (the_world s));
                           logger := logger (attr (the_world s));
                           bot := Some token;
                           cq_headers := cq_headers (attr (the_world s));
                           update_offset := update_offset (attr (the_world s)) |};
                trace := trace (the_world s); n_bot := n_bot (the_world s);
                n_http := n_http (the_world s) |}).
  assert (H1 : (a ← get_attr id;
                set_attrs {| initialized := initialized a; logger := logger a;
                             bot := Some token; cq_headers := cq_headers a;
                             update_offset := update_offset a |}) (the_world s)
               = (Return (), w1)) by reflexivity.
  assert (H2 : set_logger Telegram logger_name (the_world (with_world s w1))
               = (Return (), telegram_configured (the_world s) token logger_name))
    by reflexivity.
  assert (Hpre : ∀ (k : list Update → Sys ()),
            (assert_ true ;;
             lift (a ← get_attr id;
                   set_attrs {| initialized := initialized a; logger := logger a;
                                bot := Some token; cq_headers := cq_headers a;
                                update_offset := update_offset a |}) ;;
             lift (set_logger Telegram logger_name) ;;
             updates ← lift (TelegramNotifier._get_updates None); k updates) s
            = match r.1 with
              | Return us =>
                  k us (with_world s r.2)
              | Raise e => (Raise e, with_world s r.2)
              end).
  { intros k. rewrite bind_run. change (assert_ true s) with (Return (), s).
    cbv beta iota.
    rewrite (bind_return _ _ _ _ _ (lift_return _ _ _ _ H1)).
    rewrite (bind_return _ _ _ _ _ (lift_return _ _ _ _ H2)).
    rewrite bind_run. unfold lift at 1.
    change (the_world (with_world (with_world s w1)
                         (telegram_configured (the_world s) token logger_name)))
      with (telegram_configured (the_world s) token logger_name).
    fold r. reflexivity. }
  unfold assert_ in Hpre. rewrite Hpre. clear Hpre. clearbody r.
  destruct r as [[us|e] w3]; cbn [fst snd] in *; [|done].
  set (w4 := {| out := out w3;
                attr := {| initialized := initialized (attr w3);
                           logger := logger (attr w3); bot := bot (attr w3);
                           cq_headers := cq_headers (attr w3);
                           update_offset := (λ u, update_id u + 1) <$> last us |};
                trace := trace w3; n_bot := n_bot w3; n_http := n_http w3 |}).
  assert (H4 : TelegramNotifier.set_update_offset
                 ((λ u, update_id u + 1) <$> last us)
                 (the_world (with_world s w3))
               = (Return (), w4)) by reflexivity.
  rewrite (bind_return _ _ _ _ _ (lift_return _ _ _ _ H4)).
  assert (Hlog : logger (attr w4) Telegram = Some logger_name).
  { cbn [w4 attr logger]. rewrite Ha. cbn [telegram_configured attr logger].
    by destruct (decide (Telegram = Telegram)). }
  assert (H5 : log Telegram INFO (MsgText "Init telegram notifier succeed.")
                 (the_world (with_world (with_world s w3) w4))
               = (Return (),
                  appended w4 [EvLog logger_name INFO
                                 (MsgText "Init telegram notifier succeed.")])).
  { unfold log. rewrite bind_run. unfold get_attr. cbv beta iota.
    change (the_world (with_world (with_world s w3) w4)) with w4.
    by rewrite Hlog. }
  rewrite (bind_return _ _ _ _ _ (lift_return _ _ _ _ H5)).
  rewrite bind_run.
  rewrite (lift_return (NotifierBase.set_initialized Telegram) _ ()
             (NotifierBase.set_initialized Telegram
                (appended w4 [EvLog logger_name INFO
                                (MsgText "Init telegram notifier succeed.")])).2)
    by reflexivity.
  cbv beta iota. rewrite base_init_explicit.
  eexists. split; [reflexivity|].
  cbn [the_world message_queue waiters notifier_status with_world notifier_name].
  split_and!; try done.
  - intros c Hc. cbn. destruct (decide (c = Telegram)) as [|Hn]; [done|].
    cbv [NotifierBase.set_initialized get_attr set_attrs mbind St_bind id].
    cbn. destruct (decide (c = Telegram)); [done|].
    by rewrite Ha.
  - cbv [NotifierBase.set_initialized get_attr set_attrs mbind St_bind id].
    cbn. by rewrite Ha.
  - cbv [NotifierBase.set_initialized get_attr set_attrs mbind St_bind id].
    cbn. by rewrite <- app_assoc.
Qed.

(** X14: a failed [TelegramNotifier.init] leaves the notifier
    uninitialized: the registry, the workers, the queue and the
    [initialized] flags are as before.  With an empty token, its first
    assertion fails and nothing at all has changed. *)
Theorem telegram_init_failure_changes_nothing (token logger_name : string)
    (s : system) (e : exn) :
  (TelegramNotifier_init token logger_name s).1 = Raise e →
  let s' := (TelegramNotifier_init token logger_name s).2 in
  notifier_status s' = notifier_status s
  ∧ waiters s' = waiters s
  ∧ message_queue s' = message_queue s
  ∧ initialized (attr (the_world s')) = initialized (attr (the_world s))
  ∧ (token = EmptyString → s' = s ∧ e = mk_exn AssertionError []).
Proof.
  intros Hraise s'. subst s'.
  destruct (decide (token = EmptyString)) as [->|Hne].
  - assert (Hrun : TelegramNotifier_init EmptyString logger_name s
                   = (Raise (mk_exn AssertionError []), s)) by reflexivity.
    rewrite Hrun in Hraise |- *. cbn [fst snd] in *.
    split_and!; try done. intros _. split; [done|]. congruence.
  - pose proof (telegram_init_run token logger_name s Hne) as Hrun.
    cbv zeta in Hrun.
    destruct (quiet_get_updates None
                (telegram_configured (the_world s) token logger_name))
      as (evs & _ & _ & Ha & _).
    destruct (TelegramNotifier._get_updates None
                (telegram_configured (the_world s) token logger_name))
      as [[us|e'] w3]; cbn [fst snd] in *.
    + destruct Hrun as (s1 & Hrun & _). by rewrite Hrun in Hraise.
    + rewrite Hrun. cbn [fst snd with_world the_world message_queue waiters
                         notifier_status].
      split_and!; try done. by rewrite Ha.
Qed.

Lemma telegram_init_failure_changes_nothing_witness :
  let s := boot (scripted (replicate 5 timed_out) ok_response) in
  let r := TelegramNotifier_init "token" "Telegram" s in
  r.1 = Raise (mk_exn RuntimeError ["Max retries exceeded."])
  ∧ notifier_status r.2 = ∅
  ∧ waiters r.2 = []
  ∧ initialized (attr (the_world r.2)) = initialized (attr (the_world s)).
Proof.
  intros s r.
  assert (Hr : r.1 = Raise (mk_exn RuntimeError ["Max retries exceeded."]))
    by (by vm_compute).
  destruct (telegram_init_failure_changes_nothing "token" "Telegram" s _ Hr)
    as (Hst & Hw & _ & Hi & _).
  split_and!; [exact Hr | exact Hst | exact Hw | exact Hi].
Defined.

(** X15: [TelegramNotifier.init] with a non-empty token whose handshake is
    answered at once with the backlog [us]: the notifier is initialized,
    one worker more waits on the queue, its registry entry is [True], the
    queue and the other notifiers are untouched, and the cursor stands one
    past the last update of the backlog (at [None] without backlog), so
    that the backlog is not read again. *)
Theorem telegram_init_skips_backlog (token logger_name : string) (s : system)
    (us : list Update) :
  token ≠ EmptyString →
  bot_env (out (the_world s)) (n_bot (the_world s)) (Bot.get_updates None)
  = Return us →
  let r := TelegramNotifier_init token logger_name s in
  r.1 = Return ()
  ∧ initialized (attr (the_world r.2)) Telegram = true
  ∧ (∀ c, c ≠ Telegram →
       initialized (attr (the_world r.2)) c = initialized (attr (the_world s)) c)
  ∧ waiters r.2 = waiters s ++ [Telegram]
  ∧ notifier_status r.2 = <["Telegram" := true]> (notifier_status s)
  ∧ message_queue r.2 = message_queue s
  ∧ update_offset (attr (the_world r.2)) = cursor_after None us
  ∧ since (the_world s) (the_world r.2)
    = [EvBot (Bot.get_updates None);
       EvLog logger_name INFO (MsgText "Init telegram notifier succeed.");
       EvStatus "Telegram" true].
Proof.
  intros Hne Hus r. subst r.
  pose proof (telegram_init_run token logger_name s Hne) as Hrun.
  cbv zeta in Hrun.
  assert (Hg : TelegramNotifier._get_updates None
                 (telegram_configured (the_world s) token logger_name)
               = (Return us,
                  (call_bot (Bot.get_updates None)
                     (telegram_configured (the_world s) token logger_name)).2)).
  { unfold TelegramNotifier._get_updates.
    rewrite bind_run. unfold get_attr. cbv beta iota.
    cbn [telegram_configured attr bot].
    rewrite bool_decide_eq_true_2 by done.
    unfold assert_. rewrite bind_run. cbv beta iota.
    unfold TelegramNotifier._retry_call, TelegramNotifier._retry.
    change (Z.to_nat 5) with 5%nat.
    by apply retry_from_success. }
  rewrite Hg in Hrun. cbn [fst snd] in Hrun.
  destruct Hrun as (s' & -> & Hq & Hw & Hst & Hi & Hother & _ & _ & Hoff & Htr).
  cbn [fst snd]. split_and!; try done.
  apply since_app. rewrite Htr. simpl. by rewrite <- app_assoc.
Qed.

Lemma telegram_init_skips_backlog_witness :
  let u (id : Z) := {| update_id := id; message := None |} in
  let s := boot (scripted [Return [u 4; u 9]] ok_response) in
  let r := TelegramNotifier_init "token" "Telegram" s in
  "token" ≠ EmptyString
  ∧ r.1 = Return ()
  ∧ waiters r.2 = [Telegram]
  ∧ update_offset (attr (the_world r.2)) = Some 10.
Proof.
  intros u s r.
  assert (Hne : "token" ≠ EmptyString) by done.
  destruct (telegram_init_skips_backlog "token" "Telegram" s [u 4; u 9] Hne eq_refl)
    as (Hres & _ & _ & Hw & _ & _ & Hoff & _).
  split_and!; [exact Hne | exact Hres | exact Hw | exact Hoff].
Defined.

(** ** The queue and the registry *)

Lemma put_message_run (cls : notifier) (message : envelope) (s : system) :
  initialized (attr (the_world s)) cls = true →
  NotifierBase.put_message_into_queue cls message s
  = (Return (),
     {| the_world := the_world s;
        message_queue := message_queue s ++ [message];
        waiters := waiters s; notifier_status := notifier_status s |}).
Proof.
  intros Hi. unfold NotifierBase.put_message_into_queue, check_initialized.
  rewrite bind_run. unfold lift, get_attr. cbn [fst snd]. rewrite Hi.
  by destruct s.
Qed.

Lemma put_messages_run (cls : notifier) (messages : list envelope) :
  ∀ s : system,
    initialized (attr (the_world s)) cls = true →
    for_ messages (NotifierBase.put_message_into_queue cls) s
    = (Return (),
       {| the_world := the_world s;
          message_queue := message_queue s ++ messages;
          waiters := waiters s; notifier_status := notifier_status s |}).
Proof.
  induction messages as [|message messages IH]; intros s Hi.
  - simpl. rewrite app_nil_r. by destruct s.
  - cbn [for_]. rewrite bind_run, (put_message_run _ _ _ Hi). cbv beta iota.
    rewrite IH by exact Hi. cbn [the_world message_queue waiters notifier_status].
    by rewrite <- app_assoc.
Qed.

(** X16: the queue is first in, first out.  In a process whose only worker
    is the one of an initialized notifier, envelopes handed to
    [put_message_into_queue] are appended behind those already queued
    without touching anything else, and the worker then hands all of them to
    [send_message] one by one in that order, leaving the queue empty. *)
Theorem queue_is_first_in_first_out (cls : notifier) (s : system)
    (messages : list envelope) :
  initialized (attr (the_world s)) cls = true →
  waiters s = [cls] →
  let put := for_ messages (NotifierBase.put_message_into_queue cls) s in
  let s' := NotifierBase.run_workers (length (message_queue put.2)) put.2 in
  put.1 = Return ()
  ∧ message_queue put.2 = message_queue s ++ messages
  ∧ the_world put.2 = the_world s
  ∧ notifier_status put.2 = notifier_status s
  ∧ message_queue s' = []
  ∧ waiters s' = [cls]
  ∧ deliveries (since (the_world s) (the_world s'))
    = (λ message, (cls, message)) <$> (message_queue s ++ messages).
Proof.
  intros Hi Hw put s'. subst s' put.
  rewrite (put_messages_run cls messages s Hi). cbn [fst snd message_queue].
  set (s1 := {| the_world := the_world s;
                message_queue := message_queue s ++ messages;
                waiters := waiters s; notifier_status := notifier_status s |}).
  destruct (single_worker_in_order cls (message_queue s ++ messages) s1 eq_refl Hw)
    as (Hw' & evs & Htr & Hdel).
  destruct (run_workers_drains (message_queue s ++ messages) s1 eq_refl)
    as (Hq' & _); [cbn [s1 waiters]; by rewrite Hw|].
  split_and!; try done.
  change (the_world s) with (the_world s1).
  by rewrite (since_app _ _ _ Htr).
Qed.

Lemma queue_is_first_in_first_out_witness :
  let s := telegram_started (scripted [] ok_response) in
  let a := TelegramMessage [1] (plain "a") in
  let b := TelegramMessage [2] (plain "b") in
  let put := for_ [a; b] (NotifierBase.put_message_into_queue Telegram) s in
  let s' := NotifierBase.run_workers (length (message_queue put.2)) put.2 in
  initialized (attr (the_world s)) Telegram = true
  ∧ waiters s = [Telegram]
  ∧ deliveries (since (the_world s) (the_world s')) = [(Telegram, a); (Telegram, b)]
  ∧ message_queue s' = [].
Proof.
  intros s a b put s'.
  destruct (queue_is_first_in_first_out Telegram s [a; b] eq_refl eq_refl)
    as (_ & _ & _ & _ & Hq & _ & Hdel).
  split_and!; [reflexivity | reflexivity | exact Hdel | exact Hq].
Defined.

Lemma notifier_name_inj (c1 c2 : notifier) :
  notifier_name c1 = notifier_name c2 → c1 = c2.
Proof. by destruct c1, c2. Qed.

(** X17: a turn of a worker writes no registry entry but its own, and it
    leaves the class attributes, the queue and the list of waiting workers
    as they are; so does a whole run of the workers for the entries of the
    notifiers that have no worker. *)
Theorem worker_keeps_to_its_own_entry (cls : notifier) (message : envelope)
    (s : system) :
  let s' := (NotifierBase._work_iteration cls message s).2 in
  (∀ name, name ≠ notifier_name cls →
     notifier_status s' !! name = notifier_status s !! name)
  ∧ attr (the_world s') = attr (the_world s)
  ∧ message_queue s' = message_queue s
  ∧ waiters s' = waiters s
  ∧ (∀ other steps s0, other ∉ waiters s0 →
       notifier_status (NotifierBase.run_workers steps s0) !! notifier_name other
       = notifier_status s0 !! notifier_name other).
Proof.
  intros s'.
  assert (Hturn : ∀ cls message s,
            (∀ name, name ≠ notifier_name cls →
               notifier_status (NotifierBase._work_iteration cls message s).2 !! name
               = notifier_status s !! name)
            ∧ attr (the_world (NotifierBase._work_iteration cls message s).2)
              = attr (the_world s)
            ∧ message_queue (NotifierBase._work_iteration cls message s).2
              = message_queue s
            ∧ waiters (NotifierBase._work_iteration cls message s).2 = waiters s).
  { clear. intros cls message s.
    destruct (quiet_send_message cls message (at_delivery s cls message))
      as (evs & _ & _ & Ha & _).
    destruct (NotifierBase.send_message cls message (at_delivery s cls message))
      as [[[]|e] w1] eqn:Hsend; cbn [fst snd] in Ha.
    - rewrite (work_iteration_returns _ _ _ _ Hsend). cbn.
      split_and!; try done.
      intros name Hne. by rewrite !lookup_insert_ne.
    - rewrite (work_iteration_raises _ _ _ _ _ Hsend). cbn.
      split_and!; try done.
      intros name Hne. by rewrite lookup_insert_ne. }
  destruct (Hturn cls message s) as (H1 & H2 & H3 & H4).
  split_and!; try done.
  intros other steps. induction steps as [|k IH]; intros s0 Hnot; [done|].
  cbn [NotifierBase.run_workers].
  unfold NotifierBase.dispatch.
  destruct (waiters s0) as [|c ws] eqn:Hws; [done|].
  destruct (message_queue s0) as [|m q] eqn:Hq; [done|].
  match goal with
  | |- context [NotifierBase._work_iteration c m ?s1] =>
      destruct (Hturn c m s1) as (Hst & _ & _ & Hw1);
      destruct (work_iteration_effect c m s1) as (s2 & evs & Hrun & _)
  end.
  rewrite Hrun in Hst, Hw1 |- *. cbn [fst snd] in *.
  rewrite IH.
  - cbn [notifier_status]. rewrite Hst; [done|].
    intros Heq. apply notifier_name_inj in Heq as ->.
    apply Hnot. apply list_elem_of_here.
  - cbn [waiters]. rewrite Hw1. cbn [waiters].
    intros [Hin|Hin]%elem_of_app.
    + apply Hnot. by apply list_elem_of_further.
    + apply list_elem_of_singleton in Hin as ->. apply Hnot, list_elem_of_here.
Qed.

(** ** What a delivery may do *)

Lemma emits_ret (P : attrs → event → Prop) {A} (a : A) : emits_at P (mret a).
Proof. intros w. exists []. simpl. rewrite app_nil_r. done. Qed.

Lemma emits_throw (P : attrs → event → Prop) {A} (e : exn) :
  emits_at P (mthrow e : M A).
Proof. intros w. exists []. simpl. rewrite app_nil_r. done. Qed.

Lemma emits_bind (P : attrs → event → Prop) {A B} (m : M A) (f : A → M B) :
  emits_at P m → (∀ a, emits_at P (f a)) → emits_at P (m ≫= f).
Proof.
  intros Hm Hf w. rewrite bind_run.
  destruct (Hm w) as (evs & Ht & Hev & Ha).
  destruct (m w) as [[a|e] w1]; cbn [fst snd] in *.
  - destruct (Hf a w1) as (evs' & Ht' & Hev' & Ha').
    exists (evs ++ evs'). rewrite Ht', Ht, Ha', app_assoc.
    split_and!; try done. apply Forall_app. split; [done|]. by rewrite <- Ha.
  - by exists evs.
Qed.

Lemma emits_try (P : attrs → event → Prop) {A} (body : M A) cs (h : exn → M A) :
  emits_at P body → (∀ e, emits_at P (h e)) → emits_at P (try_except body cs h).
Proof.
  intros Hm Hf w. unfold try_except.
  destruct (Hm w) as (evs & Ht & Hev & Ha).
  destruct (body w) as [[a|e] w1]; cbn [fst snd] in *.
  - by exists evs.
  - destruct (isinstance e cs); [|by exists evs].
    destruct (Hf e w1) as (evs' & Ht' & Hev' & Ha').
    exists (evs ++ evs'). rewrite Ht', Ht, Ha', app_assoc.
    split_and!; try done. apply Forall_app. split; [done|]. by rewrite <- Ha.
Qed.

Lemma emits_for (P : attrs → event → Prop) {A} (l : list A) (f : A → M ()) :
  (∀ x, x ∈ l → emits_at P (f x)) → emits_at P (for_ l f).
Proof.
  induction l as [|x l IH]; intros Hf; simpl.
  - apply emits_ret.
  - apply emits_bind.
    + apply Hf, list_elem_of_here.
    + intros _. apply IH. intros y Hy. by apply Hf, list_elem_of_further.
Qed.

Lemma emits_event (P : attrs → event → Prop) (ev : event) :
  (∀ a, P a ev) → emits_at P (emit ev).
Proof. intros H w. exists [ev]. simpl. split_and!; try done. by constructor. Qed.

Lemma emits_get_attr (P : attrs → event → Prop) {A} (f : attrs → A) :
  emits_at P (get_attr f).
Proof. intros w. exists []. simpl. rewrite app_nil_r. done. Qed.

Lemma emits_lift_result (P : attrs → event → Prop) {A} (r : result A) :
  emits_at P (lift_result r).
Proof. intros w. exists []. simpl. rewrite app_nil_r. done. Qed.

Lemma emits_assert (P : attrs → event → Prop) (b : bool) : emits_at P (assert_ b).
Proof. destruct b; [apply emits_ret | apply emits_throw]. Qed.

Lemma emits_call_bot (P : attrs → event → Prop) (c : Bot.call) :
  (∀ a, P a (EvBot c)) → emits_at P (call_bot c).
Proof. intros H w. exists [EvBot c]. simpl. split_and!; try done. by constructor. Qed.

Lemma emits_log (P : attrs → event → Prop) cls lvl msg :
  (∀ a name, P a (EvLog name lvl msg)) → emits_at P (log cls lvl msg).
Proof.
  intros H. apply emits_bind; [apply emits_get_attr|].
  intros [name|]; [by apply emits_event | apply emits_throw].
Qed.

Lemma emits_retry_from (P : attrs → event → Prop) {A} (func : M A)
    tries delay i n :
  emits_at P func →
  (∀ a name lvl msg, P a (EvLog name lvl msg)) →
  (∀ a d, P a (EvSleep d)) →
  emits_at P (TelegramNotifier._retry_from func tries delay i n).
Proof.
  intros Hf Hlog Hsleep. revert i. induction n as [|n IH]; intros i; simpl.
  - apply emits_throw.
  - apply emits_try; [done|]. intros e.
    apply emits_bind; [by apply emits_log|]. intros _.
    apply emits_bind; [by apply emits_event|]. intros _. apply IH.
Qed.

Lemma emits_single_chat (message : envelope) ids m chat pl vl :
  message = TelegramMessage ids m → chat ∈ ids →
  emits_at (delivers message)
    (TelegramNotifier._send_message_to_single_chat chat (text m) pl vl).
Proof.
  intros -> Hin. unfold TelegramNotifier._send_message_to_single_chat.
  apply emits_bind; [apply emits_get_attr|]. intros b.
  apply emits_bind; [apply emits_assert|]. intros _.
  assert (Hcall : ∀ c, chat_of c = Some chat → text_of c = Some (text m) →
            emits_at (delivers (TelegramMessage ids m))
              (TelegramNotifier._retry_call c ;; mret ())).
  { intros c Hc Ht. apply emits_bind; [|intros; apply emits_ret].
    apply emits_retry_from; try done.
    apply emits_call_bot. intros a. simpl. split; [|done]. by exists chat. }
  assert (Hkw : ∀ c, chat_of c = Some chat → text_of c = Some (text m) →
            emits_at (delivers (TelegramMessage ids m))
              (TelegramNotifier._retry_call_timeout c ;; mret ())).
  { intros c Hc Ht. apply emits_bind; [|intros; apply emits_ret].
    apply emits_retry_from; try done.
    destruct c; first [apply emits_throw | done]. }
  destruct vl as [[|v vs]|]; [|by apply Hkw|];
    (destruct pl as [[|p [|q ps]]|]; first [by apply Hcall | by apply Hkw]).
Qed.

Lemma emits_discord_post (message : envelope) urls m url content :
  message = DiscordMessage urls m → url ∈ urls →
  emits_at (delivers message) (DiscordNotifier._post url content).
Proof.
  intros -> Hin w. unfold DiscordNotifier._post. rewrite bind_run.
  unfold session_post.
  exists [EvPost {| url := url; headers := None; body := JsonContent content |}].
  destruct (http_env (out w) (n_http w) _) as [resp|e]; cbv beta iota.
  - destruct (negb (status resp =? 204)); cbn; split_and!; try done;
      by constructor.
  - cbn. split_and!; try done. by constructor.
Qed.

Lemma emits_cqhttp_post (message : envelope) urls m url data :
  message = CqhttpMessage urls m → url ∈ urls →
  emits_at (delivers message) (CqhttpNotifier._post url data).
Proof.
  intros -> Hin w. unfold CqhttpNotifier._post. rewrite bind_run.
  unfold get_attr. cbv beta iota. rewrite bind_run. unfold session_post.
  exists [EvPost (cq_request w url data)]. fold (cq_request w url data).
  assert (Hev : Forall (delivers (CqhttpMessage urls m) (attr w))
                  [EvPost (cq_request w url data)]) by (by constructor).
  destruct (http_env (out w) (n_http w) _) as [resp|e]; cbv beta iota; [|done].
  destruct (negb (status resp =? 200)); [done|].
  rewrite bind_run. unfold lift_result.
  destruct (resp_json resp) as [j|e]; cbv beta iota; [|done].
  by destruct (negb (bool_decide (j = Some "ok"))).
Qed.

Lemma send_message_emits (cls : notifier) (message : envelope) :
  emits_at (delivers message) (NotifierBase.send_message cls message).
Proof.
  destruct cls; simpl.
  - unfold TelegramNotifier.send_message.
    apply emits_bind; [apply emits_get_attr|]. intros i.
    apply emits_bind; [apply emits_assert|]. intros _.
    destruct message as [ids m| |]; try apply emits_throw.
    apply emits_for. intros chat Hin.
    apply emits_try; [by apply (emits_single_chat _ ids m)|].
    intros e. apply emits_bind; [by apply emits_log|]. intros _.
    by apply (emits_single_chat _ ids m).
  - unfold DiscordNotifier.send_message.
    apply emits_bind; [apply emits_get_attr|]. intros i.
    apply emits_bind; [apply emits_assert|]. intros _.
    destruct message as [|urls m|]; try apply emits_throw.
    apply emits_for. intros url Hin.
    apply emits_try; [|intros e; by apply emits_log].
    apply emits_bind; [by apply (emits_discord_post _ urls m)|]. intros _.
    apply emits_bind; [|intros _];
      (case_match; [|apply emits_ret]; apply emits_for; intros x _;
       by apply (emits_discord_post _ urls m)).
  - unfold CqhttpNotifier.send_message, CqhttpNotifier._send_text,
      CqhttpNotifier._send_photo, CqhttpNotifier._send_video.
    apply emits_bind; [apply emits_get_attr|]. intros i.
    apply emits_bind; [apply emits_assert|]. intros _.
    destruct message as [| |urls m]; try apply emits_throw.
    apply emits_for. intros url Hin.
    apply emits_try; [|intros e; by apply emits_log].
    apply emits_bind; [by apply (emits_cqhttp_post _ urls m)|]. intros _.
    apply emits_bind; [|intros _];
      (case_match; [|apply emits_ret]; apply emits_for; intros x _;
       by apply (emits_cqhttp_post _ urls m)).
Qed.

(** X18: whatever the outside answers, a delivery only does what its
    envelope says.  Every bot call of the Telegram adapter is addressed to a
    chat of the envelope and carries its text; every POST of the Discord or
    Cqhttp adapter goes to a URL of the envelope, without headers for
    Discord and with the configured headers for Cqhttp; apart from these
    there are only log records and, for Telegram, sleeps.  The class
    attributes are not changed. *)
Theorem delivery_keeps_to_its_envelope (cls : notifier) (message : envelope)
    (w : world) :
  let r := NotifierBase.send_message cls message w in
  Forall (delivers message (attr w)) (since w r.2)
  ∧ attr r.2 = attr w.
Proof.
  intros r.
  destruct (send_message_emits cls message w) as (evs & Htr & Hall & Ha).
  fold r in Htr, Ha. by rewrite (since_app _ _ _ Htr).
Qed.

(** ** The [init] of the webhook notifiers *)

Lemma webhook_init_tail (cls : notifier) (logger_name : string) (text : string)
    (s : system) :
  (lift (set_logger cls logger_name) ;;
   lift (log cls INFO (MsgText text)) ;;
   NotifierBase.init cls) s
  = (Return (),
     {| the_world :=
          {| out := out (the_world s);
             attr := {| initialized := λ c, if decide (c = cls) then true
                                            else initialized (attr (the_world s)) c;
                        logger := λ c, if decide (c = cls) then Some logger_name
                                       else logger (attr (the_world s)) c;
                        bot := bot (attr (the_world s));
                        cq_headers := cq_headers (attr (the_world s));
                        update_offset := update_offset (attr (the_world s)) |};
             trace := trace (the_world s)
                      ++ [EvLog logger_name INFO (MsgText text);
                          EvStatus (notifier_name cls) true];
             n_bot := n_bot (the_world s); n_http := n_http (the_world s) |};
        message_queue := message_queue s;
        waiters := waiters s ++ [cls];
        notifier_status := <[notifier_name cls := true]> (notifier_status s) |}).
Proof.
  set (w1 := (set_logger cls logger_name (the_world s)).2).
  assert (H1 : set_logger cls logger_name (the_world s) = (Return (), w1))
    by reflexivity.
  rewrite (bind_return _ _ _ _ _ (lift_return _ _ _ _ H1)).
  assert (Hlog : logger (attr w1) cls = Some logger_name).
  { subst w1. cbv [set_logger get_attr set_attrs mbind St_bind id].
    cbn -[decide]. by rewrite decide_True. }
  assert (H2 : log cls INFO (MsgText text) (the_world (with_world s w1))
               = (Return (), appended w1 [EvLog logger_name INFO (MsgText text)])).
  { unfold log. rewrite bind_run. unfold get_attr. cbv beta iota.
    change (the_world (with_world s w1)) with w1.
    by rewrite Hlog. }
  rewrite (bind_return _ _ _ _ _ (lift_return _ _ _ _ H2)).
  rewrite base_init_explicit. subst w1.
  cbv [set_logger get_attr set_attrs mbind St_bind id].
  cbn -[decide insert app]. by rewrite <- app_assoc.
Qed.

(** X19: [DiscordNotifier.init] and [CqhttpNotifier.init] cannot fail, in
    whatever state they are called and whatever the token is: they return
    normally, the notifier is initialized with its logger set, one worker
    more waits on the queue, its registry entry is [True], and the only
    events are the INFO record and the registry write; the queue, the
    bot and the [initialized] flags of the other notifiers are untouched.
    [CqhttpNotifier.init] sets the headers to the bearer token, and to
    [None] for an empty token; [DiscordNotifier.init] leaves them. *)
Theorem webhook_init_always_succeeds (cls : notifier) (token logger_name : string)
    (s : system) :
  cls ≠ Telegram →
  let r := init_of cls token logger_name s in
  r.1 = Return ()
  ∧ initialized (attr (the_world r.2)) cls = true
  ∧ (∀ c, c ≠ cls →
       initialized (attr (the_world r.2)) c = initialized (attr (the_world s)) c)
  ∧ logger (attr (the_world r.2)) cls = Some logger_name
  ∧ bot (attr (the_world r.2)) = bot (attr (the_world s))
  ∧ cq_headers (attr (the_world r.2))
    = match cls with
      | Cqhttp => if String.eqb token EmptyString then None else Some token
      | _ => cq_headers (attr (the_world s))
      end
  ∧ waiters r.2 = waiters s ++ [cls]
  ∧ notifier_status r.2 = <[notifier_name cls := true]> (notifier_status s)
  ∧ message_queue r.2 = message_queue s
  ∧ since (the_world s) (the_world r.2)
    = [EvLog logger_name INFO
         (MsgText match cls with
                  | Cqhttp => "Init cqhttp notifier succeed."
                  | _ => "Init discord notifier succeed."
                  end);
       EvStatus (notifier_name cls) true].
Proof.
  intros Hcls r. subst r.
  destruct cls; [done| |].
  - unfold init_of, DiscordNotifier_init.
    rewrite webhook_init_tail. cbn [fst snd the_world attr initialized logger
      bot cq_headers waiters notifier_status message_queue trace].
    split_and!; try done.
    + intros c Hc. by destruct (decide (c = Discord)).
    + by apply since_app.
  - unfold init_of, CqhttpNotifier_init.
    set (w0 := {| out := out (the_world s);
                  attr := {| initialized := initialized (attr (the_world s));
                             logger := logger (attr (the_world s));
                             bot := bot (attr (the_world s));
                             cq_headers := if String.eqb token EmptyString
                                           then None else Some token;
                             update_offset := update_offset (attr (the_world s)) |};
                  trace := trace (the_world s);
                  n_bot := n_bot (the_world s);
                  n_http := n_http (the_world s) |}).
    assert (H0 : (a ← get_attr id;
                  set_attrs {| initialized := initialized a; logger := logger a;
                               bot := bot a;
                               cq_headers := if String.eqb token EmptyString
                                             then None else Some token;
                               update_offset := update_offset a |}) (the_world s)
                 = (Return (), w0)) by reflexivity.
    rewrite (bind_return _ _ _ _ _ (lift_return _ _ _ _ H0)).
    rewrite webhook_init_tail. cbn [fst snd the_world attr initialized logger
      bot cq_headers waiters notifier_status message_queue trace w0 with_world].
    split_and!; try done.
    + intros c Hc. by destruct (decide (c = Cqhttp)).
    + by apply since_app.
Qed.

Lemma webhook_init_always_succeeds_witness :
  let s := boot (scripted [] ok_response) in
  let r := init_of Cqhttp "secret" "cq" s in
  Cqhttp ≠ Telegram
  ∧ r.1 = Return ()
  ∧ cq_headers (attr (the_world r.2)) = Some "secret"
  ∧ waiters r.2 = [Cqhttp].
Proof.
  intros s r.
  assert (Hne : Cqhttp ≠ Telegram) by discriminate.
  destruct (webhook_init_always_succeeds Cqhttp "secret" "cq" s Hne)
    as (Hr & _ & _ & _ & _ & Hh & Hw & _).
  split_and!; [exact Hne | exact Hr | exact Hh | exact Hw].
Defined.

Lemma cqhttp_posts_of_delivers urls m (a : attrs) (evs : list event) :
  Forall (delivers (CqhttpMessage urls m) a) evs →
  Forall (λ r, url r ∈ urls ∧ headers r = cq_headers a) (posts evs).
Proof.
  induction 1 as [|ev evs Hev _ IH]; [constructor|].
  destruct ev; try exact IH; try done.
  unfold posts. cbn [omap list_omap]. by constructor.
Qed.

(** X20: the token given to [CqhttpNotifier.init] is the one that every
    later POST of the Cqhttp notifier carries.  In any world whose class
    attributes are those left by [init], a delivery sends its POSTs to URLs
    of the envelope, each with the bearer token of [init] as its headers,
    and each without headers when [init] was given the empty token. *)
Theorem cqhttp_posts_carry_the_token (token logger_name : string) (s : system)
    (urls : list string) (m : Message) (w : world) :
  attr w = attr (the_world (CqhttpNotifier_init token logger_name s).2) →
  Forall (λ r, url r ∈ urls
               ∧ headers r = if String.eqb token EmptyString then None
                             else Some token)
    (posts (since w (NotifierBase.send_message Cqhttp (CqhttpMessage urls m) w).2)).
Proof.
  intros Ha.
  assert (Hh : cq_headers (attr w)
               = if String.eqb token EmptyString then None else Some token).
  { rewrite Ha. unfold CqhttpNotifier_init.
    set (w0 := {| out := out (the_world s);
                  attr := {| initialized := initialized (attr (the_world s));
                             logger := logger (attr (the_world s));
                             bot := bot (attr (the_world s));
                             cq_headers := if String.eqb token EmptyString
                                           then None else Some token;
                             update_offset := update_offset (attr (the_world s)) |};
                  trace := trace (the_world s);
                  n_bot := n_bot (the_world s);
                  n_http := n_http (the_world s) |}).
    assert (H0 : (a ← get_attr id;
                  set_attrs {| initialized := initialized a; logger := logger a;
                               bot := bot a;
                               cq_headers := if String.eqb token EmptyString
                                             then None else Some token;
                               update_offset := update_offset a |}) (the_world s)
                 = (Return (), w0)) by reflexivity.
    rewrite (bind_return _ _ _ _ _ (lift_return _ _ _ _ H0)).
    by rewrite webhook_init_tail. }
  destruct (send_message_emits Cqhttp (CqhttpMessage urls m) w)
    as (evs & Htr & Hall & _).
  rewrite (since_app _ _ _ Htr), <- Hh.
  by apply (cqhttp_posts_of_delivers urls m).
Qed.

Lemma cqhttp_posts_carry_the_token_witness :
  let s := (CqhttpNotifier_init "secret" "cq" (boot (scripted [] ok_response))).2 in
  let message := {| text := "hi"; photo_url_list := Some ["p"];
                    video_url_list := None |} in
  let r := NotifierBase.send_message Cqhttp (CqhttpMessage ["u"] message)
             (the_world s) in
  posts (since (the_world s) r.2)
  = [ {| url := "u"; headers := Some "secret"; body := FormMessage "hi" |};
      {| url := "u"; headers := Some "secret";
         body := FormMessage "[CQ:image,file=p]" |} ]
  ∧ Forall (λ r, url r ∈ ["u"] ∧ headers r = Some "secret")
      (posts (since (the_world s) r.2)).
Proof.
  intros s message r. split; [reflexivity|].
  exact (cqhttp_posts_carry_the_token "secret" "cq"
           (boot (scripted [] ok_response)) ["u"] message (the_world s) eq_refl).
Defined.

(** ** [listen_exit_command] *)

Lemma exit_scan_not_a_command (rounds : nat) (T0 chat : Z)
    (pre rest : list Update) :
  Forall (not_a_command T0 chat) pre →
  exit_scan rounds T0 chat (pre ++ rest) = exit_scan rounds T0 chat rest.
Proof.
  induction 1 as [|u pre Hu _ IH]; [done|].
  cbn [app exit_scan]. unfold not_a_command in Hu.
  destruct (message u) as [m|]; [|exact IH].
  destruct (Z.ltb_spec (date m) T0) as [Hlt|Hge]; [exact IH|].
  destruct (Z.eqb_spec (chat_id m) chat) as [Heq|Hne]; [|exact IH].
  cbn [negb].
  destruct Hu as [Hu|[Hu|(t & Ht & Hcmd)]]; [lia|done|].
  rewrite Ht. apply String.eqb_neq in Hcmd. by rewrite Hcmd.
Qed.

Lemma listen_loop_round (polls rounds : nat) (T0 chat : Z) (w w1 : world)
    (us : list Update) :
  TelegramNotifier._get_new_updates w = (Return us, w1) →
  _listen_loop (S polls) rounds T0 chat w
  = (r ← exit_scan rounds T0 chat us;
     match r with
     | Some l => mret l
     | None => sleep 20 ;; _listen_loop polls rounds T0 chat
     end) w1.
Proof.
  intros Hrun. cbn [_listen_loop]. by rewrite (bind_return _ _ _ _ _ Hrun).
Qed.

Lemma listen_loop_chatter (rounds : nat) (T0 chat : Z) (o : outside) :
  only_chatter o T0 chat →
  ∀ (polls : nat) (w : world),
    out w = o → is_Some (bot (attr w)) →
    let r := _listen_loop polls rounds T0 chat w in
    r.1 = Return Listening
    ∧ ∃ offsets,
        length offsets = polls
        ∧ trace r.2
          = trace w ++ (offsets ≫= λ o, [EvBot (Bot.get_updates o); EvSleep 20]).
Proof.
  intros Henv. induction polls as [|k IH]; intros w Ho Hb r.
  - subst r. simpl. split; [done|]. exists []. by rewrite app_nil_r.
  - destruct (Henv (n_bot w) (update_offset (attr w))) as (us & Hus & Hchat).
    rewrite <- Ho in Hus.
    destruct (get_new_updates_answered w us Hb Hus)
      as (w1 & Hrun & Ho1 & Hb1 & Hn1 & Ht1).
    subst r. rewrite (listen_loop_round _ _ _ _ _ _ _ Hrun).
    rewrite bind_run.
    rewrite <- (app_nil_r us), (exit_scan_not_a_command _ _ _ _ [] Hchat).
    cbn [exit_scan]. change ((mret None : M (option listener)) w1)
      with (Return (None : option listener), w1).
    cbv beta iota. rewrite bind_run. unfold sleep, emit. cbv beta iota.
    match goal with
    | |- context [_listen_loop k rounds T0 chat ?w2] =>
        destruct (IH w2) as (Hres & offsets & Hlen & Htr)
    end.
    + cbn [out]. by rewrite Ho1.
    + cbn [attr]. by rewrite Hb1.
    + split; [exact Hres|].
      exists (update_offset (attr w) :: offsets). split; [by rewrite <- Hlen|].
      rewrite Htr. cbn [trace]. rewrite Ht1.
      cbn [mbind list_bind]. by rewrite <- !app_assoc.
Qed.

(** X21: [listen_exit_command] acts on nothing but the command.  As long
    as the polls bring only updates without a message, messages dated before
    the listener started, messages of other chats, and texts other than
    [EXIT], the listener stays in its loop and does nothing but poll and
    sleep 20 seconds: it sends nothing, it does not ask for confirmation, it
    does not exit. *)
Theorem listener_ignores_chatter (polls rounds : nat) (chat : Z) (w : world) :
  is_Some (bot (attr w)) →
  only_chatter (out w) (clock (out w) (length (trace w))) chat →
  let r := listen_exit_command polls rounds chat w in
  r.1 = Return Listening
  ∧ ∃ offsets,
      length offsets = polls
      ∧ since w r.2 = offsets ≫= λ o, [EvBot (Bot.get_updates o); EvSleep 20].
Proof.
  intros Hb Henv r. subst r. unfold listen_exit_command.
  rewrite bind_run. unfold now. cbv beta iota.
  destruct (listen_loop_chatter rounds _ chat (out w) Henv polls w eq_refl Hb)
    as (Hres & offsets & Hlen & Htr).
  split; [exact Hres|]. exists offsets. split; [exact Hlen|].
  by apply since_app.
Qed.

Lemma listener_ignores_chatter_witness :
  let says (id : Z) (sender : Z) (t : string) :=
    {| update_id := id;
       message := Some {| date := 50; chat_id := sender; inbound_text := Some t |} |} in
  let o := {| bot_env := λ _ _, Return [says 1 7 "hello"; says 2 8 "exit"];
              http_env := λ _ _, Return ok_response;
              clock := λ _, 10 |} in
  let r := listen_exit_command 2 3 7 (ready_world o) in
  r.1 = Return Listening
  ∧ since (ready_world o) r.2
    = [EvBot (Bot.get_updates None); EvSleep 20;
       EvBot (Bot.get_updates (Some 3)); EvSleep 20].
Proof.
  intros says o r.
  assert (Hb : is_Some (bot (attr (ready_world o)))) by (by eexists).
  assert (Henv : only_chatter (out (ready_world o))
                   (clock (out (ready_world o))
                      (length (trace (ready_world o)))) 7).
  { intros n offset. eexists. split; [reflexivity|].
    constructor; [|constructor; [|constructor]].
    - right. right. exists "hello". split; [reflexivity|done].
    - right. left. done. }
  destruct (listener_ignores_chatter 2 3 7 (ready_world o) Hb Henv)
    as (Hres & _).
  split; [exact Hres | reflexivity].
Defined.

Lemma bind_returns {A B} (m : M A) (f : A → M B) (w w' : world) (b : B) :
  (m ≫= f) w = (Return b, w') →
  ∃ a w1, m w = (Return a, w1) ∧ f a w1 = (Return b, w').
Proof.
  rewrite bind_run. destruct (m w) as [[a|e] w1]; cbv beta iota; [|done].
  intros H. by exists a, w1.
Qed.

Lemma grows_quiet {A} (m : M A) : quiet m → grows m.
Proof. intros H w. destruct (H w) as (evs & Htr & _). by exists evs. Qed.

Lemma grows_ret {A} (a : A) : grows (mret a).
Proof. apply grows_quiet, quiet_ret. Qed.

Lemma grows_bind {A B} (m : M A) (f : A → M B) :
  grows m → (∀ a, grows (f a)) → grows (m ≫= f).
Proof.
  intros Hm Hf w. rewrite bind_run. destruct (Hm w) as (evs & Ht).
  destruct (m w) as [[a|e] w1]; cbn [fst snd] in *.
  - destruct (Hf a w1) as (evs' & Ht').
    exists (evs ++ evs'). by rewrite Ht', Ht, app_assoc.
  - by exists evs.
Qed.

Lemma grows_get_new_updates : grows TelegramNotifier._get_new_updates.
Proof.
  unfold TelegramNotifier._get_new_updates.
  apply grows_bind; [apply grows_quiet, quiet_get_attr|]. intros o.
  apply grows_bind; [apply grows_quiet, quiet_get_updates|]. intros us.
  apply grows_bind; [|intros; apply grows_ret].
  destruct (last us); [|apply grows_ret].
  intros w. exists []. simpl. by rewrite app_nil_r.
Qed.

Lemma grows_confirm_loop (rounds : nat) (T0 : Z) (ids : list Z) :
  grows (TelegramNotifier._confirm_loop rounds T0 ids).
Proof.
  induction rounds as [|k IH]; cbn [TelegramNotifier._confirm_loop].
  - apply grows_ret.
  - apply grows_bind; [apply grows_get_new_updates|]. intros us.
    apply grows_bind; [apply grows_quiet, quiet_lift_result|].
    intros [b|]; [apply grows_ret|].
    apply grows_bind; [apply grows_quiet, quiet_sleep|]. intros _. exact IH.
Qed.

Lemma grows_confirm (rounds : nat) (message : envelope) :
  grows (TelegramNotifier.confirm rounds message).
Proof.
  unfold TelegramNotifier.confirm.
  apply grows_bind; [apply grows_quiet, quiet_get_attr|]. intros i.
  apply grows_bind; [apply grows_quiet, quiet_assert|]. intros _.
  destruct message as [ids m| |]; try apply grows_quiet, quiet_throw.
  apply grows_bind; [apply grows_quiet, (quiet_send_message Telegram)|].
  intros _. apply grows_bind; [|intros; apply grows_confirm_loop].
  intros w. exists []. simpl. by rewrite app_nil_r.
Qed.

Lemma grows_exit_scan (rounds : nat) (T0 chat : Z) (us : list Update) :
  grows (exit_scan rounds T0 chat us).
Proof.
  induction us as [|u us IH]; cbn [exit_scan]; [apply grows_ret|].
  destruct (message u) as [m|]; [|exact IH].
  destruct (date m <? T0); [exact IH|].
  destruct (negb (chat_id m =? chat)); [exact IH|].
  destruct (inbound_text m) as [t|]; [|apply grows_quiet, quiet_throw].
  destruct (String.eqb (Py.upper (Py.strip t)) "EXIT"); [|exact IH].
  apply grows_bind; [apply grows_confirm|].
  intros [[|]|]; [|exact IH|apply grows_ret].
  apply grows_bind; [apply grows_quiet, (quiet_send_message Telegram)|].
  intros _. apply grows_bind; [apply grows_quiet, quiet_log|].
  intros _. apply grows_bind; [apply grows_quiet, quiet_sleep|].
  intros _. apply grows_ret.
Qed.

Lemma retry_returns_after_call (c : Bot.call) (tries delay : Z) (n : nat) :
  ∀ (i : Z) (w w' : world) (x : list Update),
    TelegramNotifier._retry_from (call_bot c) tries delay i n w = (Return x, w') →
    ∃ evs, trace w' = trace w ++ evs ++ [EvBot c].
Proof.
  induction n as [|n IH]; intros i w w' x; [done|].
  cbn [TelegramNotifier._retry_from]. unfold try_except.
  destruct (call_bot c w) as [[r|e] w1] eqn:Hcall.
  - intros [= _ <-]. exists [].
    unfold call_bot in Hcall.
    destruct (bot_env (out w) (n_bot w) c); by inversion Hcall.
  - assert (Ht1 : trace w1 = trace w ++ [EvBot c]).
    { unfold call_bot in Hcall.
      destruct (bot_env (out w) (n_bot w) c); by inversion Hcall. }
    destruct (isinstance e TelegramNotifier.transient); [|done].
    intros H.
    apply bind_returns in H as ([] & w2 & Hlog & H).
    apply bind_returns in H as ([] & w3 & Hsleep & H).
    apply IH in H as (evs & Htr).
    destruct (quiet_log Telegram WARNING (MsgRetrying e (i + 1) tries) w1)
      as (ev2 & Ht2 & _).
    rewrite Hlog in Ht2. cbn [snd] in Ht2.
    assert (Ht3 : trace w3 = trace w2 ++ [EvSleep delay]) by (by inversion Hsleep).
    exists ([EvBot c] ++ ev2 ++ [EvSleep delay] ++ evs).
    rewrite Htr, Ht3, Ht2, Ht1. by rewrite <- !app_assoc.
Qed.

Lemma single_chat_text_returns (chat : Z) (text : string) (w w' : world) :
  TelegramNotifier._send_message_to_single_chat chat text None None w
  = (Return (), w') →
  ∃ evs, trace w' = trace w ++ evs ++ [EvBot (Bot.send_message chat text)].
Proof.
  unfold TelegramNotifier._send_message_to_single_chat. intros H.
  apply bind_returns in H as (b & w1 & Hb & H). inversion Hb; subst w1.
  apply bind_returns in H as ([] & w2 & Ha & H).
  assert (w2 = w) as ->.
  { unfold assert_ in Ha. destruct (bool_decide (is_Some b)); by inversion Ha. }
  apply bind_returns in H as (x & w3 & Hr & H).
  inversion H; subst w3.
  by apply retry_returns_after_call in Hr.
Qed.

Lemma send_text_returns (chat : Z) (m : Message) (w w' : world) :
  photo_url_list m = None → video_url_list m = None →
  TelegramNotifier.send_message (TelegramMessage [chat] m) w = (Return (), w') →
  ∃ evs, trace w' = trace w ++ evs ++ [EvBot (Bot.send_message chat (text m))].
Proof.
  intros Hp Hv. unfold TelegramNotifier.send_message. rewrite Hp, Hv. intros H.
  apply bind_returns in H as (i & w1 & Hi & H). inversion Hi; subst w1.
  apply bind_returns in H as ([] & w2 & Ha & H).
  assert (w2 = w) as ->.
  { unfold assert_ in Ha. destruct i; by inversion Ha. }
  cbn [for_] in H.
  apply bind_returns in H as ([] & w3 & Hsend & H). inversion H; subst w3.
  unfold try_except in Hsend.
  destruct (TelegramNotifier._send_message_to_single_chat chat (text m) None None w)
    as [[[]|e] w1] eqn:Hfirst.
  - inversion Hsend; subst w1. by apply single_chat_text_returns in Hfirst.
  - destruct (isinstance e [BadRequest]); [|done].
    apply bind_returns in Hsend as ([] & w2 & Hlog & Hsecond).
    apply single_chat_text_returns in Hsecond as (evs & Htr).
    destruct (quiet_single_chat chat (text m) None None w) as (ev1 & Ht1 & _).
    rewrite Hfirst in Ht1. cbn [snd] in Ht1.
    destruct (quiet_log Telegram ERROR (MsgWithoutMedia e) w1) as (ev2 & Ht2 & _).
    rewrite Hlog in Ht2. cbn [snd] in Ht2.
    exists (ev1 ++ ev2 ++ evs). rewrite Htr, Ht2, Ht1. by rewrite <- !app_assoc.
Qed.

Lemma get_new_updates_returns (w w' : world) (us : list Update) :
  TelegramNotifier._get_new_updates w = (Return us, w') →
  ∃ evs o, trace w' = trace w ++ evs ++ [EvBot (Bot.get_updates o)].
Proof.
  unfold TelegramNotifier._get_new_updates, TelegramNotifier._get_updates.
  intros H.
  apply bind_returns in H as (o & w1 & Ho & H). inversion Ho; subst w1.
  apply bind_returns in H as (us' & w2 & Hg & H).
  apply bind_returns in Hg as (b & w3 & Hb & Hg). inversion Hb; subst w3.
  apply bind_returns in Hg as ([] & w4 & Ha & Hg).
  assert (w4 = w) as ->.
  { unfold assert_ in Ha. destruct (bool_decide (is_Some b)); by inversion Ha. }
  apply retry_returns_after_call in Hg as (evs & Htr).
  apply bind_returns in H as ([] & w5 & Hset & H). inversion H; subst w5.
  destruct (last us'); inversion Hset; subst; cbn [trace]; by eexists _, _.
Qed.

Lemma confirm_loop_returns (T0 : Z) (ids : list Z) (rounds : nat) :
  ∀ (w w' : world) (b : bool),
    TelegramNotifier._confirm_loop rounds T0 ids w = (Return (Some b), w') →
    ∃ evs o, trace w' = trace w ++ evs ++ [EvBot (Bot.get_updates o)].
Proof.
  induction rounds as [|k IH]; intros w w' b; [done|].
  cbn [TelegramNotifier._confirm_loop]. intros H.
  apply bind_returns in H as (us & w1 & Hpoll & H).
  apply bind_returns in H as (r & w2 & Hscan & H).
  assert (w2 = w1) as ->.
  { unfold lift_result in Hscan. by inversion Hscan. }
  destruct r as [b'|].
  - inversion H; subst w'. by apply get_new_updates_returns in Hpoll.
  - apply bind_returns in H as ([] & w3 & Hsleep & H).
    apply IH in H as (evs & o & Htr).
    destruct (grows_get_new_updates w) as (ev1 & Ht1).
    rewrite Hpoll in Ht1. cbn [snd] in Ht1.
    assert (Ht3 : trace w3 = trace w1 ++ [EvSleep 10]) by (by inversion Hsleep).
    exists (ev1 ++ [EvSleep 10] ++ evs), o.
    rewrite Htr, Ht3, Ht1. by rewrite <- !app_assoc.
Qed.

Lemma confirm_question_returns (rounds : nat) (chat : Z) (q : string)
    (w w' : world) (b : bool) :
  TelegramNotifier.confirm rounds (TelegramMessage [chat] (plain q)) w
  = (Return (Some b), w') →
  ∃ evs1 evs2 o,
    trace w'
    = trace w ++ evs1
      ++ [EvBot (Bot.send_message chat
                   (q +:+ TelegramNotifier.newline +:+ "Please reply Y/N"))]
      ++ evs2 ++ [EvBot (Bot.get_updates o)].
Proof.
  unfold TelegramNotifier.confirm. intros H.
  apply bind_returns in H as (i & w1 & Hi & H). inversion Hi; subst w1.
  apply bind_returns in H as ([] & w2 & Ha & H).
  assert (w2 = w) as ->.
  { unfold assert_ in Ha. destruct i; by inversion Ha. }
  apply bind_returns in H as ([] & w3 & Hsend & H).
  apply send_text_returns in Hsend as (evs1 & Ht1); [|done..].
  apply bind_returns in H as (T0 & w4 & Hnow & H).
  assert (w4 = w3) as -> by (by inversion Hnow).
  apply confirm_loop_returns in H as (evs2 & o & Ht2).
  exists evs1, evs2, o. rewrite Ht2, Ht1. cbn [text plain].
  by rewrite <- !app_assoc.
Qed.

(** What [listen_exit_command] leaves in the trace on its way out: the
    farewell, the error record and the sleep of five seconds. *)
Lemma exit_scan_exited (rounds : nat) (T0 chat : Z) (us : list Update) :
  ∀ w w' : world,
    exit_scan rounds T0 chat us w = (Return (Some Exited), w') →
    ∃ evs1 evs2 evs3 o name,
      trace w'
      = trace w ++ evs1
        ++ [EvBot (Bot.send_message chat
                     (exit_question +:+ TelegramNotifier.newline
                      +:+ "Please reply Y/N"))]
        ++ evs2 ++ [EvBot (Bot.get_updates o)]
        ++ evs3
        ++ [EvBot (Bot.send_message chat exit_farewell);
            EvLog name ERROR
              (MsgText "The program exits by the telegram command.");
            EvSleep 5].
Proof.
  induction us as [|u us IH]; intros w w'; cbn [exit_scan]; [done|].
  destruct (message u) as [m|]; [|apply IH].
  destruct (date m <? T0); [apply IH|].
  destruct (negb (chat_id m =? chat)); [apply IH|].
  destruct (inbound_text m) as [t|]; [|done].
  destruct (String.eqb (Py.upper (Py.strip t)) "EXIT"); [|apply IH].
  intros H. apply bind_returns in H as (confirmed & w1 & Hconfirm & H).
  destruct confirmed as [[|]|]; [| |done].
  - apply confirm_question_returns in Hconfirm as (evs1 & evs2 & o & Ht1).
    apply bind_returns in H as ([] & w2 & Hsend & H).
    apply send_text_returns in Hsend as (evs3 & Ht2); [|done..].
    apply bind_returns in H as ([] & w3 & Hlog & H).
    apply bind_returns in H as ([] & w4 & Hsleep & H).
    inversion H; subst w4.
    assert (Ht4 : trace w' = trace w3 ++ [EvSleep 5]) by (by inversion Hsleep).
    unfold log in Hlog. apply bind_returns in Hlog as (l & w5 & Hl & Hlog).
    inversion Hl; subst w5. destruct l as [name|]; [|done].
    assert (Ht3 : trace w3
                  = trace w2
                    ++ [EvLog name ERROR
                          (MsgText "The program exits by the telegram command.")])
      by (by inversion Hlog).
    exists evs1, evs2, evs3, o, name.
    rewrite Ht4, Ht3, Ht2, Ht1. cbn [text plain]. by rewrite <- !app_assoc.
  - apply IH in H as (evs1 & evs2 & evs3 & o & name & Htr).
    destruct (grows_confirm rounds (TelegramMessage [chat] (plain exit_question)) w)
      as (ev0 & Ht0).
    rewrite Hconfirm in Ht0. cbn [snd] in Ht0.
    exists (ev0 ++ evs1), evs2, evs3, o, name.
    rewrite Htr, Ht0. by rewrite <- !app_assoc.
Qed.

Lemma listen_loop_exited (rounds : nat) (T0 chat : Z) (polls : nat) :
  ∀ w w' : world,
    _listen_loop polls rounds T0 chat w = (Return Exited, w') →
    ∃ evs1 evs2 evs3 o name,
      trace w'
      = trace w ++ evs1
        ++ [EvBot (Bot.send_message chat
                     (exit_question +:+ TelegramNotifier.newline
                      +:+ "Please reply Y/N"))]
        ++ evs2 ++ [EvBot (Bot.get_updates o)]
        ++ evs3
        ++ [EvBot (Bot.send_message chat exit_farewell);
            EvLog name ERROR
              (MsgText "The program exits by the telegram command.");
            EvSleep 5].
Proof.
  induction polls as [|k IH]; intros w w' H; [done|].
  cbn [_listen_loop] in H.
  apply bind_returns in H as (us & w1 & Hpoll & H).
  apply bind_returns in H as (r & w2 & Hscan & H).
  destruct (grows_get_new_updates w) as (ev0 & Ht0).
  rewrite Hpoll in Ht0. cbn [snd] in Ht0.
  destruct r as [l|].
  - inversion H; subst l w2.
    apply exit_scan_exited in Hscan as (evs1 & evs2 & evs3 & o & name & Htr).
    exists (ev0 ++ evs1), evs2, evs3, o, name.
    rewrite Htr, Ht0. by rewrite <- !app_assoc.
  - apply bind_returns in H as ([] & w3 & Hsleep & H).
    apply IH in H as (evs1 & evs2 & evs3 & o & name & Htr).
    destruct (grows_exit_scan rounds T0 chat us w1) as (ev1 & Ht1).
    rewrite Hscan in Ht1. cbn [snd] in Ht1.
    assert (Ht3 : trace w3 = trace w2 ++ [EvSleep 20]) by (by inversion Hsleep).
    exists (ev0 ++ ev1 ++ [EvSleep 20] ++ evs1), evs2, evs3, o, name.
    rewrite Htr, Ht3, Ht1, Ht0. by rewrite <- !app_assoc.
Qed.

(** X22: [listen_exit_command] never ends the program on the command
    alone.  Whatever the outside answers and however long the listener has
    run, if it reaches [os._exit(0)] then it has sent the question
    [Do you want to exit the program?] with the request to reply Y/N to the
    chat, a poll for the reply has returned after that, and the last things
    it did were to send the farewell to the chat, to log the error record
    and to sleep five seconds. *)
Theorem exit_only_after_confirmation (polls rounds : nat) (chat : Z)
    (w w' : world) :
  listen_exit_command polls rounds chat w = (Return Exited, w') →
  ∃ evs1 evs2 evs3 o name,
    since w w'
    = evs1
      ++ [EvBot (Bot.send_message chat
                   (exit_question +:+ TelegramNotifier.newline
                    +:+ "Please reply Y/N"))]
      ++ evs2 ++ [EvBot (Bot.get_updates o)]
      ++ evs3
      ++ [EvBot (Bot.send_message chat exit_farewell);
          EvLog name ERROR (MsgText "The program exits by the telegram command.");
          EvSleep 5].
Proof.
  unfold listen_exit_command. intros H.
  apply bind_returns in H as (T0 & w0 & Hnow & H).
  assert (w0 = w) as -> by (by inversion Hnow).
  apply listen_loop_exited in H as (evs1 & evs2 & evs3 & o & name & Htr).
  exists evs1, evs2, evs3, o, name. by apply since_app.
Qed.

Lemma exit_only_after_confirmation_witness :
  let says (id : Z) (t : string) :=
    {| update_id := id;
       message := Some {| date := 50; chat_id := 7; inbound_text := Some t |} |} in
  let o := scripted [Return [says 1 " exit "]; Return []; Return [says 2 "y"];
                     Return []] ok_response in
  let r := listen_exit_command 1 1 7 (ready_world o) in
  r.1 = Return Exited
  ∧ since (ready_world o) r.2
    = [EvBot (Bot.get_updates None);
       EvBot (Bot.send_message 7
                (exit_question +:+ TelegramNotifier.newline
                 +:+ "Please reply Y/N"));
       EvBot (Bot.get_updates (Some 2));
       EvBot (Bot.send_message 7 exit_farewell);
       EvLog "Telegram" ERROR
         (MsgText "The program exits by the telegram command.");
       EvSleep 5]
  ∧ ∃ evs1 evs2 evs3 o' name,
      since (ready_world o) r.2
      = evs1
        ++ [EvBot (Bot.send_message 7
                     (exit_question +:+ TelegramNotifier.newline
                      +:+ "Please reply Y/N"))]
        ++ evs2 ++ [EvBot (Bot.get_updates o')]
        ++ evs3
        ++ [EvBot (Bot.send_message 7 exit_farewell);
            EvLog name ERROR
              (MsgText "The program exits by the telegram command.");
            EvSleep 5].
Proof.
  intros says o r.
  assert (Hrun : listen_exit_command 1 1 7 (ready_world o) = (Return Exited, r.2))
    by reflexivity.
  split_and!; [reflexivity | reflexivity |].
  exact (exit_only_after_confirmation 1 1 7 (ready_world o) r.2 Hrun).
Defined.

(** X23: a message without text (a photo, a sticker) that the listened
    chat sends after the listener has started ends [listen_exit_command]
    with an [AttributeError].  When the servers answer a poll with updates
    that are not the command, then such a message, then anything at all,
    the listener fails at that poll: the updates after the message are not
    read, and the listener neither sleeps nor polls again. *)
Theorem listener_fails_on_textless_message (polls rounds : nat) (T0 chat : Z)
    (pre post : list Update) (u : Update) (m : inbound) (w : world) :
  Forall (not_a_command T0 chat) pre →
  message u = Some m → T0 ≤ date m → chat_id m = chat →
  inbound_text m = None →
  is_Some (bot (attr w)) →
  bot_env (out w) (n_bot w) (Bot.get_updates (update_offset (attr w)))
  = Return (pre ++ u :: post) →
  let r := _listen_loop (S polls) rounds T0 chat w in
  r.1 = Raise (mk_exn AttributeError ["NoneType"; "strip"])
  ∧ since w r.2 = [EvBot (Bot.get_updates (update_offset (attr w)))].
Proof.
  intros Hpre Hm Hge Hchat Hnone Hb Hpoll r. subst r.
  destruct (get_new_updates_answered w _ Hb Hpoll)
    as (w1 & Hrun & _ & _ & _ & Ht1).
  rewrite (listen_loop_round _ _ _ _ _ _ _ Hrun), bind_run.
  rewrite (exit_scan_not_a_command _ _ _ _ _ Hpre).
  cbn [exit_scan]. rewrite Hm.
  destruct (Z.ltb_spec (date m) T0); [lia|].
  rewrite (proj2 (Z.eqb_eq _ _) Hchat). cbn [negb]. rewrite Hnone.
  cbn [fst snd]. split; [done|]. by apply since_app.
Qed.

Lemma listener_fails_on_textless_message_witness :
  let says (id : Z) (t : option string) :=
    {| update_id := id;
       message := Some {| date := 50; chat_id := 7; inbound_text := t |} |} in
  let o := scripted [Return [says 1 (Some "hello"); says 2 None;
                             says 3 (Some "EXIT")]] ok_response in
  Forall (not_a_command 10 7) [says 1 (Some "hello")]
  ∧ is_Some (bot (attr (ready_world o)))
  ∧ (_listen_loop 3 3 10 7 (ready_world o)).1
    = Raise (mk_exn AttributeError ["NoneType"; "strip"])
  ∧ since (ready_world o) (_listen_loop 3 3 10 7 (ready_world o)).2
    = [EvBot (Bot.get_updates None)].
Proof.
  intros says o.
  assert (Hpre : Forall (not_a_command 10 7) [says 1 (Some "hello")]).
  { constructor; [|constructor]. right. right. exists "hello".
    split; [reflexivity|done]. }
  assert (Hb : is_Some (bot (attr (ready_world o)))) by (by eexists).
  destruct (listener_fails_on_textless_message 2 3 10 7
              [says 1 (Some "hello")] [says 3 (Some "EXIT")] (says 2 None)
              {| date := 50; chat_id := 7; inbound_text := None |}
              (ready_world o) Hpre eq_refl (proj1 (Z.leb_le 10 50) eq_refl)
              eq_refl eq_refl Hb eq_refl) as [Hres Hsince].
  split_and!; [exact Hpre | exact Hb | exact Hres | exact Hsince].
Defined.

(** * The rotating-token client *)

Lemma wbind_run {A B} (m : TwitterWatcher.W A) (f : A → TwitterWatcher.W B)
    (w : TwitterWatcher.world) :
  (m ≫= f) w = match m w with
               | (TwitterWatcher.Ok a, w') => f a w'
               | (TwitterWatcher.Err e, w') => (TwitterWatcher.Err e, w')
               end.
Proof. reflexivity. Qed.

Lemma requests_of_app (l1 l2 : list TwitterWatcher.happening) :
  requests_of (l1 ++ l2) = requests_of l1 ++ requests_of l2.
Proof. apply omap_app. Qed.

Lemma happened_app (w w' : TwitterWatcher.world) hs :
  TwitterWatcher.history w' = TwitterWatcher.history w ++ hs → happened w w' = hs.
Proof. intros H. unfold happened. rewrite H. apply drop_app_length. Qed.

Lemma list_index_in_range {A} (l : list A) (i : Z) (d : A) :
  0 ≤ i < Z.of_nat (length l) →
  TwitterWatcher.list_index l i = TwitterWatcher.Ok (default d (l !! Z.to_nat i)).
Proof.
  intros Hi. unfold TwitterWatcher.list_index.
  destruct (Z.ltb_spec i 0) as [|_]; [lia|].
  destruct (Z.leb_spec 0 i) as [_|]; [|lia].
  destruct (Z.ltb_spec i (Z.of_nat (length l))) as [_|]; [|lia].
  cbn [andb].
  destruct (lookup_lt_is_Some_2 l (Z.to_nat i)) as [x Hx]; [lia|].
  by rewrite Hx.
Qed.

Lemma rotated_request_next (w w2 : TwitterWatcher.world) api params (m : nat) :
  0 < TwitterWatcher.token_number (TwitterWatcher.self w) →
  TwitterWatcher.self w2
  = at_token w ((TwitterWatcher.current_token_index (TwitterWatcher.self w) + 1)
                `mod` TwitterWatcher.token_number (TwitterWatcher.self w)) →
  rotated_request w2 api params m = rotated_request w api params (S m).
Proof.
  intros Hn Hself. unfold rotated_request. rewrite Hself.
  cbn [at_token TwitterWatcher.token_number TwitterWatcher.auth_cookie_list
       TwitterWatcher.current_token_index].
  rewrite Zplus_mod_idemp_l.
  by replace (TwitterWatcher.current_token_index (TwitterWatcher.self w) + 1
              + Z.of_nat m)
    with (TwitterWatcher.current_token_index (TwitterWatcher.self w)
          + Z.of_nat (S m)) by lia.
Qed.

Lemma well_formed_at_token (w : TwitterWatcher.world) (i : Z) :
  well_formed (TwitterWatcher.self w) →
  well_formed (at_token w (i `mod` TwitterWatcher.token_number (TwitterWatcher.self w))).
Proof.
  intros (Hn & Hlen & Hi). unfold well_formed. cbn.
  split_and!; try done; by apply Z.mod_pos_bound.
Qed.

Lemma rotated_next api params (k : nat) (w w2 : TwitterWatcher.world) r logs :
  well_formed (TwitterWatcher.self w) →
  TwitterWatcher.self w2
  = at_token w ((TwitterWatcher.current_token_index (TwitterWatcher.self w) + 1)
                `mod` TwitterWatcher.token_number (TwitterWatcher.self w)) →
  TwitterWatcher.out w2 = TwitterWatcher.out w →
  TwitterWatcher.history w2
  = TwitterWatcher.history w
    ++ TwitterWatcher.Requested (rotated_request w api params 1) :: logs →
  requests_of logs = [] →
  TwitterWatcher.requests_made w2 = S (TwitterWatcher.requests_made w) →
  rotated api params k w2 r → rotated api params (S k) w r.
Proof.
  intros (Hn & Hlen & Hi) Hself Hout Hhist Hlogs Hmade
    (k' & hs & Hle & Hpos & Hh & Hreqs & Hm & Ho & Hs & Hnone & Hsome).
  exists (S k'), (TwitterWatcher.Requested (rotated_request w api params 1)
                  :: logs ++ hs).
  split_and!.
  - lia.
  - lia.
  - rewrite Hh, Hhist. by rewrite <- app_assoc.
  - change (TwitterWatcher.Requested (rotated_request w api params 1)
            :: logs ++ hs)
      with ([TwitterWatcher.Requested (rotated_request w api params 1)]
            ++ logs ++ hs).
    rewrite !requests_of_app, Hlogs, Hreqs. cbn [app seq fmap list_fmap].
    f_equal. rewrite <- (fmap_S_seq 1), <- list_fmap_compose.
    apply list_fmap_ext. intros _ m _. cbn.
    by apply rotated_request_next.
  - rewrite Hm, Hmade. lia.
  - by rewrite Ho.
  - rewrite Hs. unfold at_token. rewrite Hself. unfold at_token.
    cbn [TwitterWatcher.token_number TwitterWatcher.auth_cookie_list
         TwitterWatcher.current_token_index].
    rewrite Zplus_mod_idemp_l.
    by replace (TwitterWatcher.current_token_index (TwitterWatcher.self w) + 1
                + Z.of_nat k')
      with (TwitterWatcher.current_token_index (TwitterWatcher.self w)
            + Z.of_nat (S k')) by lia.
  - intros H. by rewrite (Hnone H).
  - intros j H. destruct (Hsome j H) as (resp & Hweb & Hrest).
    exists resp. split; [|exact Hrest].
    rewrite <- Hweb, Hout, Hmade.
    rewrite (rotated_request_next w w2 _ _ _ Hn Hself).
    f_equal. lia.
Qed.

Lemma rotated_stop api params (k : nat) (w w1 : TwitterWatcher.world)
    (res : TwitterWatcher.outcome (option TwitterWatcher.json)) :
  well_formed (TwitterWatcher.self w) →
  TwitterWatcher.self w1
  = at_token w ((TwitterWatcher.current_token_index (TwitterWatcher.self w) + 1)
                `mod` TwitterWatcher.token_number (TwitterWatcher.self w)) →
  TwitterWatcher.out w1 = TwitterWatcher.out w →
  TwitterWatcher.history w1
  = TwitterWatcher.history w
    ++ [TwitterWatcher.Requested (rotated_request w api params 1)] →
  TwitterWatcher.requests_made w1 = S (TwitterWatcher.requests_made w) →
  res ≠ TwitterWatcher.Ok None →
  (∀ j, res = TwitterWatcher.Ok (Some j) →
     ∃ resp,
       TwitterWatcher.web (TwitterWatcher.out w) (TwitterWatcher.requests_made w)
         (rotated_request w api params 1)
       = TwitterWatcher.Ok resp
       ∧ TwitterWatcher.status_code resp ∈ [200; 403; 404]
       ∧ TwitterWatcher.body_json resp = Some j
       ∧ TwitterWatcher.contains_errors j = TwitterWatcher.Ok false) →
  rotated api params (S k) w (res, w1).
Proof.
  intros Hwf Hself Hout Hhist Hmade Hres Hsome.
  exists 1%nat, [TwitterWatcher.Requested (rotated_request w api params 1)].
  cbn [fst snd]. split_and!; try done.
  - lia.
  - rewrite Hmade. lia.
  - replace (TwitterWatcher.requests_made w + 1 - 1)%nat
      with (TwitterWatcher.requests_made w) by lia.
    exact Hsome.
Qed.

Ltac next_token IH :=
  rewrite ?wbind_run;
  unfold TwitterWatcher.log, TwitterWatcher.record; cbv beta iota;
  eapply rotated_next; [| | | | | |apply IH];
  [ done
  | reflexivity
  | reflexivity
  | cbn [TwitterWatcher.history]; rewrite <- ?app_assoc; reflexivity
  | reflexivity
  | reflexivity
  | by apply well_formed_at_token ].

Lemma query_loop_rotated api params (remaining : nat) :
  ∀ hs w,
    well_formed (TwitterWatcher.self w) →
    rotated api params remaining w
      (TwitterWatcher._query_loop api params remaining hs w).
Proof.
  induction remaining as [|k IH]; intros hs w Hwf.
  - exists O.
    destruct Hwf as (Hn & Hlen & Hi).
    assert (Hself : TwitterWatcher.self w
                    = at_token w
                        ((TwitterWatcher.current_token_index (TwitterWatcher.self w)
                          + Z.of_nat 0)
                         `mod` TwitterWatcher.token_number (TwitterWatcher.self w))).
    { unfold at_token. cbn [Z.of_nat]. rewrite Z.add_0_r, Z.mod_small by done.
      by destruct (TwitterWatcher.self w). }
    destruct hs as [hs|]; cbn.
    + exists [TwitterWatcher.Logged ERROR (TwitterWatcher.AllTokensFailed hs params)].
      split_and!; try done; lia.
    + exists []. rewrite app_nil_r. split_and!; try done; lia.
  - pose proof Hwf as (Hn & Hlen & Hi).
    cbn [TwitterWatcher._query_loop].
    rewrite wbind_run. unfold TwitterWatcher.get at 1. cbv beta iota.
    rewrite wbind_run. unfold TwitterWatcher.get at 1. cbv beta iota.
    destruct (Z.eqb_spec (TwitterWatcher.token_number (TwitterWatcher.self w)) 0);
      [lia|].
    rewrite wbind_run. unfold TwitterWatcher.set_current_token_index at 1.
    cbv beta iota.
    rewrite wbind_run. unfold TwitterWatcher.get at 1. cbv beta iota.
    rewrite wbind_run. unfold TwitterWatcher.get at 1. cbv beta iota.
    cbn [TwitterWatcher.self TwitterWatcher.auth_cookie_list
         TwitterWatcher.current_token_index].
    rewrite wbind_run. unfold TwitterWatcher.lift_outcome at 1.
    rewrite (list_index_in_range
               (TwitterWatcher.auth_cookie_list (TwitterWatcher.self w)) _ []).
    2:{ rewrite Hlen. apply Z.mod_pos_bound. lia. }
    cbv beta iota.
    change {| TwitterWatcher.req_method := TwitterWatcher.api_method api;
              TwitterWatcher.req_url := TwitterWatcher.api_url api;
              TwitterWatcher.req_headers := _;
              TwitterWatcher.req_params := params |}
      with (rotated_request w api params 1).
    match goal with
    | |- context [TwitterWatcher._query_loop api params k (Some ?h)] =>
        generalize (Some h); intros hs1
    end.
    rewrite wbind_run.
    unfold TwitterWatcher.try_request, TwitterWatcher.requests_request.
    cbv beta iota.
    cbn [TwitterWatcher.out TwitterWatcher.requests_made TwitterWatcher.self
         TwitterWatcher.history].
    destruct (TwitterWatcher.web (TwitterWatcher.out w)
                (TwitterWatcher.requests_made w) (rotated_request w api params 1))
      as [resp|e] eqn:Hweb.
    + destruct (bool_decide (TwitterWatcher.status_code resp ∈ [200; 403; 404]))
        eqn:Hstatus.
      * destruct (String.eqb (TwitterWatcher.body_text resp) EmptyString);
          [next_token IH|].
        destruct (TwitterWatcher.body_json resp) as [j|] eqn:Hjson.
        -- rewrite wbind_run. unfold TwitterWatcher.lift_outcome at 1.
           destruct (TwitterWatcher.contains_errors j) as [[|]|e] eqn:Hhas.
           ++ rewrite wbind_run. unfold TwitterWatcher.lift_outcome at 1.
              destruct (TwitterWatcher.errors_of j) as [errors|e];
                [next_token IH|].
              by apply rotated_stop.
           ++ apply bool_decide_eq_true in Hstatus.
              apply rotated_stop; try done.
              intros j' [= <-]. by exists resp.
           ++ by apply rotated_stop.
        -- by apply rotated_stop.
      * destruct (negb (TwitterWatcher.status_code resp =? 429));
          next_token IH.
    + destruct e; try (by apply rotated_stop).
      next_token IH.
Qed.

Lemma query_run (api_name : string) (params : TwitterWatcher.json)
    (api : TwitterWatcher.api_data) (w : TwitterWatcher.world) :
  TwitterWatcher.get_api_data (TwitterWatcher.out w) api_name = TwitterWatcher.Ok api →
  TwitterWatcher.query api_name params w
  = TwitterWatcher._query_loop api (built_params w api params)
      (Z.to_nat (TwitterWatcher.token_number (TwitterWatcher.self w))) None w.
Proof.
  intros Hapi. unfold TwitterWatcher.query.
  rewrite wbind_run. unfold TwitterWatcher.ask at 1. cbv beta iota.
  rewrite wbind_run. unfold TwitterWatcher.lift_outcome at 1. rewrite Hapi.
  cbv beta iota.
  rewrite wbind_run. unfold TwitterWatcher.ask at 1. cbv beta iota.
  rewrite wbind_run. unfold TwitterWatcher.get at 1. cbv beta iota.
  reflexivity.
Qed.

(** X24: [query] tries the tokens in turn, starting with the one after the
    current token.  On a watcher as [__init__] leaves it, whatever the web
    answers, a query makes at least one request and at most one for each
    token, the [m]-th of them with the cookies of the [m]-th token after
    the current one (wrapping around), and it leaves the index at the token
    of its last request; the token list is not touched, so the watcher
    stays well formed.  It returns [None] only after it has tried every
    token, and then the index is back where it was.  A value that it
    returns is the JSON body, without [errors], of the response to its last
    request, whose status was 200, 403 or 404. *)
Theorem query_rotates_tokens (api_name : string) (params : TwitterWatcher.json)
    (api : TwitterWatcher.api_data) (w : TwitterWatcher.world) :
  well_formed (TwitterWatcher.self w) →
  TwitterWatcher.get_api_data (TwitterWatcher.out w) api_name = TwitterWatcher.Ok api →
  let n := TwitterWatcher.token_number (TwitterWatcher.self w) in
  let built := built_params w api params in
  let r := TwitterWatcher.query api_name params w in
  ∃ k : nat,
    (1 ≤ k ≤ Z.to_nat n)%nat
    ∧ requests_of (happened w r.2) = rotated_request w api built <$> seq 1 k
    ∧ TwitterWatcher.self r.2
      = at_token w ((TwitterWatcher.current_token_index (TwitterWatcher.self w)
                     + Z.of_nat k) `mod` n)
    ∧ well_formed (TwitterWatcher.self r.2)
    ∧ (r.1 = TwitterWatcher.Ok None →
       k = Z.to_nat n ∧ TwitterWatcher.self r.2 = TwitterWatcher.self w)
    ∧ (∀ j, r.1 = TwitterWatcher.Ok (Some j) →
         ∃ resp,
           TwitterWatcher.web (TwitterWatcher.out w)
             (TwitterWatcher.requests_made w + k - 1)%nat
             (rotated_request w api built k)
           = TwitterWatcher.Ok resp
           ∧ TwitterWatcher.status_code resp ∈ [200; 403; 404]
           ∧ TwitterWatcher.body_json resp = Some j
           ∧ TwitterWatcher.contains_errors j = TwitterWatcher.Ok false).
Proof.
  intros Hwf Hapi n built r. subst r. rewrite (query_run _ _ _ _ Hapi).
  fold built. fold n.
  destruct (query_loop_rotated api built (Z.to_nat n) None w Hwf)
    as (k & hs & Hle & Hpos & Hh & Hreqs & Hm & Ho & Hs & Hnone & Hsome).
  pose proof Hwf as (Hn & Hlen & Hi). fold n in Hn, Hi, Hs.
  exists k. split_and!.
  - apply Hpos. lia.
  - exact Hle.
  - by rewrite (happened_app _ _ _ Hh).
  - exact Hs.
  - rewrite Hs. by apply well_formed_at_token.
  - intros Hr. specialize (Hnone Hr). split; [exact Hnone|].
    rewrite Hs, Hnone, Z2Nat.id by lia.
    rewrite <- (Z.mul_1_l n) at 1. rewrite Z_mod_plus_full, Z.mod_small by done.
    unfold at_token. by destruct (TwitterWatcher.self w).
  - exact Hsome.
Qed.

Lemma query_rotates_tokens_witness :
  let busy := TwitterWatcher.Ok {| TwitterWatcher.status_code := 429;
                                   TwitterWatcher.body_text := "busy";
                                   TwitterWatcher.body_json := None |} in
  let user := TwitterWatcher.JObject [("data", TwitterWatcher.JString "u")] in
  let found := TwitterWatcher.Ok {| TwitterWatcher.status_code := 200;
                                    TwitterWatcher.body_text := "{..}";
                                    TwitterWatcher.body_json := Some user |} in
  let w := watching [busy; found] in
  let r := TwitterWatcher.query "UserByScreenName" (TwitterWatcher.JObject []) w in
  well_formed (TwitterWatcher.self w)
  ∧ r.1 = TwitterWatcher.Ok (Some user)
  ∧ TwitterWatcher.current_token_index (TwitterWatcher.self r.2) = 2
  ∧ ∃ k : nat,
      requests_of (happened w r.2)
      = rotated_request w user_api
          (built_params w user_api (TwitterWatcher.JObject [])) <$> seq 1 k.
Proof.
  intros busy user found w r.
  assert (Hwf : well_formed (TwitterWatcher.self w)).
  { unfold well_formed. cbn. lia. }
  destruct (query_rotates_tokens "UserByScreenName" (TwitterWatcher.JObject [])
              user_api w Hwf eq_refl) as (k & _ & Hreqs & _).
  split_and!; [exact Hwf | reflexivity | reflexivity |].
  exists k. exact Hreqs.
Defined.

Lemma query_loop_throttled api params (k : nat) :
  ∀ (hs : option (TwitterWatcher.pydict string)) (w : TwitterWatcher.world),
    well_formed (TwitterWatcher.self w) →
    throttled (TwitterWatcher.out w) →
    (k = O → is_Some hs) →
    TwitterWatcher._query_loop api params k hs w
    = (TwitterWatcher.Ok None,
       {| TwitterWatcher.self :=
            at_token w
              ((TwitterWatcher.current_token_index (TwitterWatcher.self w)
                + Z.of_nat k)
               `mod` TwitterWatcher.token_number (TwitterWatcher.self w));
          TwitterWatcher.out := TwitterWatcher.out w;
          TwitterWatcher.history :=
            TwitterWatcher.history w
            ++ ((λ m, TwitterWatcher.Requested (rotated_request w api params m))
                  <$> seq 1 k)
            ++ [TwitterWatcher.Logged ERROR
                  (TwitterWatcher.AllTokensFailed
                     match k with
                     | O => default [] hs
                     | S _ => TwitterWatcher.req_headers
                                (rotated_request w api params k)
                     end params)];
          TwitterWatcher.requests_made := (TwitterWatcher.requests_made w + k)%nat |}).
Proof.
  induction k as [|k IH]; intros hs w Hwf Hweb Hhs.
  - destruct (Hhs eq_refl) as [h ->].
    destruct Hwf as (Hn & Hlen & Hi). cbn -[mbind mret].
    rewrite Z.add_0_r, Z.mod_small, Nat.add_0_r by done.
    unfold at_token. rewrite wbind_run.
    unfold TwitterWatcher.log, TwitterWatcher.record. cbv beta iota.
    do 2 f_equal. by destruct (TwitterWatcher.self w).
  - pose proof Hwf as (Hn & Hlen & Hi).
    cbn [TwitterWatcher._query_loop].
    rewrite wbind_run. unfold TwitterWatcher.get at 1. cbv beta iota.
    rewrite wbind_run. unfold TwitterWatcher.get at 1. cbv beta iota.
    destruct (Z.eqb_spec (TwitterWatcher.token_number (TwitterWatcher.self w)) 0);
      [lia|].
    rewrite wbind_run. unfold TwitterWatcher.set_current_token_index at 1.
    cbv beta iota.
    rewrite wbind_run. unfold TwitterWatcher.get at 1. cbv beta iota.
    rewrite wbind_run. unfold TwitterWatcher.get at 1. cbv beta iota.
    cbn [TwitterWatcher.self TwitterWatcher.auth_cookie_list
         TwitterWatcher.current_token_index].
    rewrite wbind_run. unfold TwitterWatcher.lift_outcome at 1.
    rewrite (list_index_in_range
               (TwitterWatcher.auth_cookie_list (TwitterWatcher.self w)) _ []).
    2:{ rewrite Hlen. apply Z.mod_pos_bound. lia. }
    cbv beta iota.
    change {| TwitterWatcher.req_method := TwitterWatcher.api_method api;
              TwitterWatcher.req_url := TwitterWatcher.api_url api;
              TwitterWatcher.req_headers := _;
              TwitterWatcher.req_params := params |}
      with (rotated_request w api params 1).
    change (TwitterWatcher._get_auth_headers _ _)
      with (TwitterWatcher.req_headers (rotated_request w api params 1)).
    rewrite wbind_run.
    unfold TwitterWatcher.try_request, TwitterWatcher.requests_request.
    cbv beta iota.
    cbn [TwitterWatcher.out TwitterWatcher.requests_made TwitterWatcher.self
         TwitterWatcher.history].
    destruct (Hweb (TwitterWatcher.requests_made w) (rotated_request w api params 1))
      as (resp & -> & Hstatus).
    rewrite Hstatus. cbn [negb Z.eqb Pos.eqb].
    rewrite bool_decide_eq_false_2.
    2:{ rewrite !elem_of_cons, elem_of_nil. lia. }
    match goal with
    | |- TwitterWatcher._query_loop _ _ _ _ ?w1 = _ =>
        assert (Hself1 : TwitterWatcher.self w1
                         = at_token w
                             ((TwitterWatcher.current_token_index (TwitterWatcher.self w) + 1)
                              `mod` TwitterWatcher.token_number (TwitterWatcher.self w)))
          by reflexivity;
        rewrite (IH _ w1);
          [ | rewrite Hself1; by apply well_formed_at_token | exact Hweb | by eexists ]
    end.
    f_equal. cbn [TwitterWatcher.self TwitterWatcher.out TwitterWatcher.history
                  TwitterWatcher.requests_made].
    f_equal.
    + unfold at_token.
      cbn [TwitterWatcher.token_number TwitterWatcher.auth_cookie_list
           TwitterWatcher.current_token_index].
      rewrite Zplus_mod_idemp_l.
      by replace (TwitterWatcher.current_token_index (TwitterWatcher.self w) + 1
                  + Z.of_nat k)
        with (TwitterWatcher.current_token_index (TwitterWatcher.self w)
              + Z.of_nat (S k)) by lia.
    + rewrite <- !app_assoc. f_equal. cbn [seq fmap list_fmap app]. f_equal.
      rewrite <- (fmap_S_seq 1), <- list_fmap_compose.
      f_equal.
      * apply list_fmap_ext. intros _ m _. cbn.
        f_equal. by apply rotated_request_next.
      * do 3 f_equal. destruct k as [|k']; [done|].
        f_equal. by apply rotated_request_next.
    + lia.
Qed.

Lemma records_of_requests {A} (f : A → TwitterWatcher.request) (l : list A) :
  records_of ((λ x, TwitterWatcher.Requested (f x)) <$> l) = [].
Proof. induction l as [|x l IH]; [done|exact IH]. Qed.

(** X25: a token that is answered with HTTP 429 is passed over without a
    log record.  When every token is throttled, a query requests once with
    each token in turn, logs nothing but the final error record, which
    carries the headers of the last request, returns [None], and leaves the
    watcher as it was: the next query starts with the same token again. *)
Theorem throttled_query_is_silent (api_name : string)
    (params : TwitterWatcher.json) (api : TwitterWatcher.api_data)
    (w : TwitterWatcher.world) :
  well_formed (TwitterWatcher.self w) →
  TwitterWatcher.get_api_data (TwitterWatcher.out w) api_name = TwitterWatcher.Ok api →
  throttled (TwitterWatcher.out w) →
  let r := TwitterWatcher.query api_name params w in
  r.1 = TwitterWatcher.Ok None
  ∧ happened w r.2 = throttled_round w api (built_params w api params)
  ∧ records_of (happened w r.2)
    = [(ERROR,
        TwitterWatcher.AllTokensFailed
          (TwitterWatcher.req_headers
             (rotated_request w api (built_params w api params)
                (Z.to_nat (TwitterWatcher.token_number (TwitterWatcher.self w)))))
          (built_params w api params))]
  ∧ TwitterWatcher.self r.2 = TwitterWatcher.self w
  ∧ TwitterWatcher.out r.2 = TwitterWatcher.out w.
Proof.
  intros Hwf Hapi Hweb r. subst r. rewrite (query_run _ _ _ _ Hapi).
  pose proof Hwf as (Hn & Hlen & Hi).
  destruct (Z.to_nat (TwitterWatcher.token_number (TwitterWatcher.self w)))
    as [|k] eqn:Hk; [lia|].
  rewrite query_loop_throttled by done. cbn [fst snd].
  assert (Hround : throttled_round w api (built_params w api params)
                   = ((λ m, TwitterWatcher.Requested
                              (rotated_request w api (built_params w api params) m))
                        <$> seq 1 (S k))
                     ++ [TwitterWatcher.Logged ERROR
                           (TwitterWatcher.AllTokensFailed
                              (TwitterWatcher.req_headers
                                 (rotated_request w api (built_params w api params)
                                    (S k)))
                              (built_params w api params))]).
  { unfold throttled_round. by rewrite Hk. }
  split_and!; try done.
  - rewrite Hround. by apply happened_app.
  - erewrite happened_app; [|reflexivity].
    unfold records_of. rewrite omap_app. fold records_of.
    by rewrite records_of_requests.
  - rewrite <- Hk, Z2Nat.id by lia.
    replace ((TwitterWatcher.current_token_index (TwitterWatcher.self w)
              + TwitterWatcher.token_number (TwitterWatcher.self w))
             `mod` TwitterWatcher.token_number (TwitterWatcher.self w))
      with (TwitterWatcher.current_token_index (TwitterWatcher.self w)).
    + unfold at_token. by destruct (TwitterWatcher.self w).
    + rewrite <- (Z.mul_1_l (TwitterWatcher.token_number _)) at 1.
      by rewrite Z_mod_plus_full, Z.mod_small.
Qed.

Lemma throttled_query_is_silent_witness :
  let w := watching [] in
  let r := TwitterWatcher.query "UserByScreenName" (TwitterWatcher.JObject []) w in
  well_formed (TwitterWatcher.self w)
  ∧ throttled (TwitterWatcher.out w)
  ∧ r.1 = TwitterWatcher.Ok None
  ∧ length (requests_of (happened w r.2)) = 3%nat
  ∧ length (records_of (happened w r.2)) = 1%nat
  ∧ TwitterWatcher.self r.2 = TwitterWatcher.self w.
Proof.
  intros w r.
  assert (Hwf : well_formed (TwitterWatcher.self w)).
  { unfold well_formed. cbn. lia. }
  assert (Hweb : throttled (TwitterWatcher.out w)).
  { intros n req. eexists. split; reflexivity. }
  destruct (throttled_query_is_silent "UserByScreenName" (TwitterWatcher.JObject [])
              user_api w Hwf eq_refl Hweb) as (Hr & _ & _ & Hs & _).
  split_and!; [exact Hwf | exact Hweb | exact Hr | reflexivity | reflexivity
              | exact Hs].
Defined.

Lemma throttled_query_run (api_name : string) (params : TwitterWatcher.json)
    (api : TwitterWatcher.api_data) (w : TwitterWatcher.world) :
  well_formed (TwitterWatcher.self w) →
  TwitterWatcher.get_api_data (TwitterWatcher.out w) api_name = TwitterWatcher.Ok api →
  throttled (TwitterWatcher.out w) →
  TwitterWatcher.query api_name params w
  = (TwitterWatcher.Ok None,
     {| TwitterWatcher.self := TwitterWatcher.self w;
        TwitterWatcher.out := TwitterWatcher.out w;
        TwitterWatcher.history :=
          TwitterWatcher.history w
          ++ throttled_round w api (built_params w api params);
        TwitterWatcher.requests_made :=
          (TwitterWatcher.requests_made w
           + Z.to_nat (TwitterWatcher.token_number (TwitterWatcher.self w)))%nat |}).
Proof.
  intros Hwf Hapi Hweb. rewrite (query_run _ _ _ _ Hapi).
  pose proof Hwf as (Hn & Hlen & Hi).
  unfold throttled_round.
  destruct (Z.to_nat (TwitterWatcher.token_number (TwitterWatcher.self w)))
    as [|k] eqn:Hk; [lia|].
  rewrite query_loop_throttled by done. do 2 f_equal.
  rewrite <- Hk, Z2Nat.id by lia.
  replace ((TwitterWatcher.current_token_index (TwitterWatcher.self w)
            + TwitterWatcher.token_number (TwitterWatcher.self w))
           `mod` TwitterWatcher.token_number (TwitterWatcher.self w))
    with (TwitterWatcher.current_token_index (TwitterWatcher.self w)).
  - unfold at_token. by destruct (TwitterWatcher.self w).
  - rewrite <- (Z.mul_1_l (TwitterWatcher.token_number _)) at 1.
    by rewrite Z_mod_plus_full, Z.mod_small.
Qed.

Lemma until_answered_throttled (api_name : string) (params : TwitterWatcher.json)
    (api : TwitterWatcher.api_data) (o : TwitterWatcher.outside)
    (me : TwitterWatcher.watcher) (round : list TwitterWatcher.happening)
    (rounds : nat) :
  well_formed me →
  TwitterWatcher.get_api_data o api_name = TwitterWatcher.Ok api →
  throttled o →
  (∀ w, TwitterWatcher.self w = me → TwitterWatcher.out w = o →
        throttled_round w api (built_params w api params) = round) →
  ∀ w,
    TwitterWatcher.self w = me → TwitterWatcher.out w = o →
    let r := TwitterWatcher._until_answered api_name params rounds None w in
    r.1 = TwitterWatcher.Ok None
    ∧ TwitterWatcher.self r.2 = me
    ∧ TwitterWatcher.out r.2 = o
    ∧ TwitterWatcher.history r.2
      = TwitterWatcher.history w
        ++ mjoin (replicate rounds (TwitterWatcher.Slept 60 :: round)).
Proof.
  intros Hwf Hapi Hweb Hround.
  induction rounds as [|k IH]; intros w Hself Hout r; subst r.
  - cbn. by rewrite app_nil_r.
  - set (w1 := (TwitterWatcher.record (TwitterWatcher.Slept 60) w).2).
    set (w2 := (TwitterWatcher.query api_name params w1).2).
    assert (Hq : TwitterWatcher.query api_name params w1
                 = (TwitterWatcher.Ok None, w2)).
    { unfold w2. by rewrite (throttled_query_run _ _ api);
        [ | cbn; rewrite Hself | cbn; rewrite Hout | cbn; rewrite Hout ]. }
    assert (Hstep : TwitterWatcher._until_answered api_name params (S k) None w
                    = TwitterWatcher._until_answered api_name params k None w2).
    { cbn [TwitterWatcher._until_answered].
      rewrite wbind_run.
      change (TwitterWatcher.record (TwitterWatcher.Slept 60) w)
        with (TwitterWatcher.Ok (), w1).
      cbv beta iota. by rewrite wbind_run, Hq. }
    assert (Hh2 : TwitterWatcher.history w2
                  = TwitterWatcher.history w ++ TwitterWatcher.Slept 60 :: round).
    { unfold w2. rewrite (throttled_query_run _ _ api);
        [ | by cbn; rewrite Hself | by cbn; rewrite Hout | by cbn; rewrite Hout ].
      cbn [snd TwitterWatcher.history].
      rewrite (Hround w1); [|by cbn; rewrite Hself|by cbn; rewrite Hout].
      cbn. by rewrite <- app_assoc. }
    assert (Hs2 : TwitterWatcher.self w2 = me ∧ TwitterWatcher.out w2 = o).
    { unfold w2. rewrite (throttled_query_run _ _ api);
        [ | by cbn; rewrite Hself | by cbn; rewrite Hout | by cbn; rewrite Hout ].
      cbn. by rewrite Hself, Hout. }
    rewrite Hstep.
    destruct (IH w2) as (Hr & Hs & Ho & Hh); [apply Hs2|apply Hs2|].
    split_and!; [exact Hr | exact Hs | exact Ho |].
    rewrite Hh, Hh2. cbn [replicate mjoin list_join].
    by rewrite <- !app_assoc.
Qed.

Lemma lookup_throttled (api_name : string) (params : TwitterWatcher.json)
    (api : TwitterWatcher.api_data) (rounds : nat) (w : TwitterWatcher.world) :
  well_formed (TwitterWatcher.self w) →
  TwitterWatcher.get_api_data (TwitterWatcher.out w) api_name = TwitterWatcher.Ok api →
  throttled (TwitterWatcher.out w) →
  let round := throttled_round w api (built_params w api params) in
  let r := (r ← TwitterWatcher.query api_name params;
            TwitterWatcher._until_answered api_name params rounds r) w in
  r.1 = TwitterWatcher.Ok None
  ∧ happened w r.2
    = round ++ mjoin (replicate rounds (TwitterWatcher.Slept 60 :: round))
  ∧ TwitterWatcher.self r.2 = TwitterWatcher.self w.
Proof.
  intros Hwf Hapi Hweb round r. subst r.
  rewrite wbind_run, (throttled_query_run _ _ api) by done. cbv beta iota.
  match goal with
  | |- context [TwitterWatcher._until_answered _ _ rounds None ?w2] =>
      destruct (until_answered_throttled api_name params api
                  (TwitterWatcher.out w) (TwitterWatcher.self w) round rounds
                  Hwf Hapi Hweb) with (w := w2)
        as (Hr & Hs & _ & Hh)
  end.
  - intros w' Hself Hout. unfold round, throttled_round, built_params, rotated_request.
    by rewrite Hself, Hout.
  - reflexivity.
  - reflexivity.
  - split_and!; [exact Hr | | exact Hs].
    apply happened_app. rewrite Hh. cbn [TwitterWatcher.history].
    by rewrite <- app_assoc.
Qed.

(** X26: [get_user_by_username] and [get_user_by_id] do not give up.  As
    long as every token is throttled they stay in their loop: each round
    asks once with every token, logs the final error record and sleeps 60
    seconds before the next round, which starts with the same token
    again. *)
Theorem throttled_lookup_keeps_asking (rounds : nat) (username : string)
    (user_id : Z) (params : TwitterWatcher.pydict TwitterWatcher.json)
    (w : TwitterWatcher.world) :
  well_formed (TwitterWatcher.self w) →
  throttled (TwitterWatcher.out w) →
  (∀ api,
     TwitterWatcher.get_api_data (TwitterWatcher.out w) "UserByScreenName"
     = TwitterWatcher.Ok api →
     let round :=
       throttled_round w api
         (built_params w api
            (TwitterWatcher.JObject
               (TwitterWatcher.dict_set "screen_name"
                  (TwitterWatcher.JString username) params))) in
     let r := TwitterWatcher.get_user_by_username rounds username params w in
     r.1 = TwitterWatcher.Ok None
     ∧ happened w r.2
       = round ++ mjoin (replicate rounds (TwitterWatcher.Slept 60 :: round))
     ∧ TwitterWatcher.self r.2 = TwitterWatcher.self w)
  ∧ (∀ api,
       TwitterWatcher.get_api_data (TwitterWatcher.out w) "UserByRestId"
       = TwitterWatcher.Ok api →
       let round :=
         throttled_round w api
           (built_params w api
              (TwitterWatcher.JObject
                 (TwitterWatcher.dict_set "userId"
                    (TwitterWatcher.JInt user_id) params))) in
       let r := TwitterWatcher.get_user_by_id rounds user_id params w in
       r.1 = TwitterWatcher.Ok None
       ∧ happened w r.2
         = round ++ mjoin (replicate rounds (TwitterWatcher.Slept 60 :: round))
       ∧ TwitterWatcher.self r.2 = TwitterWatcher.self w).
Proof.
  intros Hwf Hweb. split; intros api Hapi; by apply lookup_throttled.
Qed.

Lemma throttled_lookup_keeps_asking_witness :
  let w := watching [] in
  let r := TwitterWatcher.get_user_by_username 2 "X" [] w in
  well_formed (TwitterWatcher.self w)
  ∧ throttled (TwitterWatcher.out w)
  ∧ r.1 = TwitterWatcher.Ok None
  ∧ length (requests_of (happened w r.2)) = 9%nat
  ∧ TwitterWatcher.self r.2 = TwitterWatcher.self w.
Proof.
  intros w r.
  assert (Hwf : well_formed (TwitterWatcher.self w)).
  { unfold well_formed. cbn. lia. }
  assert (Hweb : throttled (TwitterWatcher.out w)).
  { intros n req. eexists. split; reflexivity. }
  destruct (throttled_lookup_keeps_asking 2 "X" 0 [] w Hwf Hweb) as [Hname _].
  destruct (Hname user_api eq_refl) as (Hr & _ & Hs).
  split_and!; [exact Hwf | exact Hweb | exact Hr | reflexivity | exact Hs].
Defined.
